(** * KLineChart [Store]: viewport and data coordination engine

    A shallow embedding of [src/Store.ts] and a verification of its
    specification.

    Conventions of the embedding.

    - A JavaScript [number] is an exact rational ([Q]) or, where the source
      only ever holds an integer (array lengths, results of [Math.floor],
      [Math.ceil] and [Math.round], time stamps), an integer ([Z]).  The
      values [NaN], [Infinity] and [-Infinity] are outside the model; the
      two infinities that the source writes down itself (tick merging) are
      modelled with [option].  Division is by a constant or by the bar
      space, which stays within [1, 50] ([barSpace_within_limits]).
    - The source computes in IEEE doubles, whose rounding is not modelled.
      The error of a double result is far below a pixel and far below
      [1e-6], but a floor or a rounding to six decimals can turn it into a
      full step: the pixel of a bar, or the float index of a pixel, can
      fall on the neighbouring value.  Where a property equates two such
      results, or bounds their difference, its statement leaves that step
      as room (one pixel for each floor, one unit of the sixth decimal);
      the sharper fact of exact arithmetic is a lemma beside it.
    - A JavaScript array keeps what is written under a key that is not one
      of its indices as a property.  The source writes
      [this._dataList[dataCount - 1]] on an empty list, that is the key
      [-1]; the property is the field [_dataListMinus1] of the store, read
      by [dataAt] and dropped whenever [_dataList] is assigned a new array.
    - The private fields of the class are the fields of the record [Store],
      under their own names.  A method that mutates the object is a function
      [Store -> Store]; a getter is a function from [Store].
    - Calls made on collaborators (the chart, the action bus, the load-more
      callback, the indicator task scheduler) are recorded, in order, in the
      trace [_effects].
    - [_gapBarSpace] is written only by [_calcOptimalBarSpace], which is run
      after every write of [_barSpace]; it is the function
      [_calcOptimalBarSpace] of the bar space and is not stored.  Because of
      [Math.atan] it lives in the real numbers.
    - The registry of indicators ([addIndicator], [removeIndicator] and the
      queries on [_indicators]) is embedded in the module
      [IndicatorRegistry], with the indicators as the records that the
      registry reads; the store itself keeps their names only.
    - The measuring pass of [IndicatorTooltipView] is embedded in the
      module [TooltipLayout].
    - Of the options, the store keeps the time zone and, for the styles,
      the width of the tick-label sample text.  Overlays and precision
      take no part in the properties below and are not embedded. *)

From Stdlib Require Import ZArith QArith Qround Qminmax Qabs Lia List Sorted Permutation Bool String.
From Stdlib Require Import Psatz.
From Stdlib Require Import Reals Qreals Zfloor.
Import ListNotations.

Local Open Scope Z_scope.
Local Open Scope Q_scope.

(** ** Numbers *)

Definition Math_floor (x : Q) : Z := Qfloor x.

Definition Math_ceil (x : Q) : Z := Qceiling x.

(** [Math.round] rounds to the nearest integer, a half towards [+Infinity]. *)
Definition Math_round (x : Q) : Z := Qfloor (x + (1 # 2)).

Definition Number_MAX_SAFE_INTEGER : Z := 2 ^ 53 - 1.

Definition Number_MIN_SAFE_INTEGER : Z := - (2 ^ 53 - 1).

(** [a === b] on two optional numbers ([undefined] is [None]). *)
Definition optQ_eqb (a b : option Q) : bool :=
  match a, b with
  | Some p, Some q => Qeq_bool p q
  | None, None => true
  | _, _ => false
  end.

Definition optString_eqb (a b : option string) : bool :=
  match a, b with
  | Some p, Some q => String.eqb p q
  | None, None => true
  | _, _ => false
  end.

(** [list[i]] for an integer [i] and an array that has no property besides
    its elements: [undefined] outside the list. *)
Definition at_index {A : Type} (l : list A) (i : Z) : option A :=
  if (i <? 0)%Z then None else nth_error l (Z.to_nat i).

(** The indices [lo, lo+1, ..., hi-1] of a [for (i = lo; i < hi; i++)]. *)
Definition index_range (lo hi : Z) : list Z :=
  map (fun k => (lo + Z.of_nat k)%Z) (seq 0 (Z.to_nat (hi - lo))).

(** ** Data model *)

Record KLineData := mkKLineData {
  timestamp : Z;
  open : Q;
  high : Q;
  low : Q;
  close : Q;
  volume : Q
}.

(** The fields of a formatted date ([formatDateToDateTime]); the source
    compares them for equality only. *)
Record DateTime := mkDateTime {
  YYYY : Z;
  MM : Z;
  DD : Z;
  HH : Z;
  mm : Z;
  ss : Z
}.

Record TimeTick := mkTimeTick {
  weight : Z;
  dataIndex : Z;
  dateTime : DateTime;
  tickTimestamp : Z
}.

Module TimeWeightConstants.
Definition Year : Z := 365 * 24 * 3600.
Definition Month : Z := 30 * 24 * 3600.
Definition Day : Z := 24 * 3600.
Definition Hour : Z := 3600.
Definition Minute : Z := 60.
Definition Second : Z := 1.
End TimeWeightConstants.

Module BarSpaceLimitConstants.
Definition MIN : Q := 1.
Definition MAX : Q := 50.
End BarSpaceLimitConstants.

Inductive ScrollLimitRole := BarCount | Distance.

Definition DEFAULT_BAR_SPACE : Q := 10.

Definition DEFAULT_OFFSET_RIGHT_DISTANCE : Q := 80.

Definition SCALE_MULTIPLIER : Q := 10.

Inductive LoadDataType := Init | Forward | Backward.

Record LoadDataMore := mkLoadDataMore {
  forward : bool;
  backward : bool
}.

Record LeftRight := mkLeftRight {
  left : Q;
  right : Q
}.

Record VisibleRange := mkVisibleRange {
  from : Z;
  to : Z;
  realFrom : Z;
  realTo : Z
}.

(** Modelled from the spec: [getDefaultVisibleRange] of
    [common/VisibleRange], which is not among the sources; the cleared
    ("default") range is the empty range at 0. *)
Definition getDefaultVisibleRange : VisibleRange := mkVisibleRange 0 0 0 0.

Record VisibleRangeData := mkVisibleRangeData {
  vrd_dataIndex : Z;
  vrd_x : Z;
  vrd_data : option KLineData
}.

Record HighLowPrice := mkHighLowPrice {
  hl_x : Z;
  price : Q
}.

Definition defaultHighLowPrice : HighLowPrice * HighLowPrice :=
  (mkHighLowPrice 0 (inject_Z Number_MIN_SAFE_INTEGER),
   mkHighLowPrice 0 (inject_Z Number_MAX_SAFE_INTEGER)).

(** [Crosshair]: every field is optional; [{}] is [emptyCrosshair]. *)
Record Crosshair := mkCrosshair {
  x : option Q;
  y : option Q;
  paneId : option string;
  realX : option Z;
  kLineData : option KLineData;
  realDataIndex : option Z;
  cr_dataIndex : option Z
}.

Definition emptyCrosshair : Crosshair :=
  mkCrosshair None None None None None None None.

(** [Map<number, TimeTick[]>], in insertion order. *)
Definition TimeTickMap := list (Z * list TimeTick).

Fixpoint Map_get (m : TimeTickMap) (key : Z) : option (list TimeTick) :=
  match m with
  | [] => None
  | (k, v) :: rest => if (k =? key)%Z then Some v else Map_get rest key
  end.

Fixpoint Map_set (m : TimeTickMap) (key : Z) (value : list TimeTick) : TimeTickMap :=
  match m with
  | [] => [(key, value)]
  | (k, v) :: rest =>
      if (k =? key)%Z then (k, value) :: rest else (k, v) :: Map_set rest key value
  end.

Definition Map_keys (m : TimeTickMap) : list Z := map fst m.

(** [keys.sort((w1, w2) => w2 - w1)]: descending order. *)
Fixpoint insert_desc (w : Z) (l : list Z) : list Z :=
  match l with
  | [] => [w]
  | h :: t => if (h <? w)%Z then w :: l else h :: insert_desc w t
  end.

Definition sort_desc (l : list Z) : list Z := fold_right insert_desc [] l.

(** Calls on the collaborators of the store. *)
Inductive Effect :=
| ExecuteOnVisibleRangeChange (range : VisibleRange)
| ExecuteOnScroll (distance : Z)
| ExecuteOnZoom (scale : Q)
| ChartLayout
| ChartCrosshairChange (crosshair : Crosshair)
| ChartUpdatePane
| LoadMoreData (type : LoadDataType) (data : option KLineData)
| AddIndicatorCalcTask (pane name : string) (type : LoadDataType).

(** ** The store *)

(** [_dataListMinus1] is the property [-1] of the array [_dataList];
    [_loadMoreDataCallback] records whether a callback is registered;
    [_dateTimeFormat] is the formatter as the function it computes;
    [_timezone] is [_options.timezone]; [_tickTextWidth] is the width that
    [calcTextWidth] measures for the tick-label sample text under
    [_options.styles]; [_indicators] lists the indicator names of each
    pane. *)
Record Store := mkStore {
  _dataList : list KLineData;
  _dataListMinus1 : option KLineData;
  _loadMoreDataCallback : bool;
  _loading : bool;
  _loadDataMore : LoadDataMore;
  _dateTimeFormat : Z -> DateTime;
  _zoomEnabled : bool;
  _scrollEnabled : bool;
  _totalBarSpace : Q;
  _barSpace : Q;
  _offsetRightDistance : Q;
  _lastBarRightSideDiffBarCount : Q;
  _startLastBarRightSideDiffBarCount : Q;
  _scrollLimitRole : ScrollLimitRole;
  _minVisibleBarCount : LeftRight;
  _maxOffsetDistance : LeftRight;
  _visibleRange : VisibleRange;
  _cacheVisibleRange : VisibleRange;
  _timeTicks : TimeTickMap;
  _visibleRangeTimeTickList : list TimeTick;
  _visibleRangeDataList : list VisibleRangeData;
  _visibleRangeHighLowPrice : HighLowPrice * HighLowPrice;
  _crosshair : Crosshair;
  _indicators : list (string * list string);
  _timezone : string;
  _tickTextWidth : Q;
  _effects : list Effect
}.

Definition set_dataList (v : list KLineData) (s : Store) : Store :=
  mkStore v (_dataListMinus1 s) (_loadMoreDataCallback s) (_loading s) (_loadDataMore s)
    (_dateTimeFormat s) (_zoomEnabled s) (_scrollEnabled s) (_totalBarSpace s) (_barSpace s)
    (_offsetRightDistance s) (_lastBarRightSideDiffBarCount s)
    (_startLastBarRightSideDiffBarCount s) (_scrollLimitRole s) (_minVisibleBarCount s)
    (_maxOffsetDistance s) (_visibleRange s) (_cacheVisibleRange s) (_timeTicks s)
    (_visibleRangeTimeTickList s) (_visibleRangeDataList s) (_visibleRangeHighLowPrice s)
    (_crosshair s) (_indicators s) (_timezone s) (_tickTextWidth s) (_effects s).

Definition set_dataListMinus1 (v : option KLineData) (s : Store) : Store :=
  mkStore (_dataList s) v (_loadMoreDataCallback s) (_loading s) (_loadDataMore s)
    (_dateTimeFormat s) (_zoomEnabled s) (_scrollEnabled s) (_totalBarSpace s) (_barSpace s)
    (_offsetRightDistance s) (_lastBarRightSideDiffBarCount s)
    (_startLastBarRightSideDiffBarCount s) (_scrollLimitRole s) (_minVisibleBarCount s)
    (_maxOffsetDistance s) (_visibleRange s) (_cacheVisibleRange s) (_timeTicks s)
    (_visibleRangeTimeTickList s) (_visibleRangeDataList s) (_visibleRangeHighLowPrice s)
    (_crosshair s) (_indicators s) (_timezone s) (_tickTextWidth s) (_effects s).

Definition set_loadMoreDataCallback (v : bool) (s : Store) : Store :=
  mkStore (_dataList s) (_dataListMinus1 s) v (_loading s) (_loadDataMore s) (_dateTimeFormat s)
    (_zoomEnabled s) (_scrollEnabled s) (_totalBarSpace s) (_barSpace s)
    (_offsetRightDistance s) (_lastBarRightSideDiffBarCount s)
    (_startLastBarRightSideDiffBarCount s) (_scrollLimitRole s) (_minVisibleBarCount s)
    (_maxOffsetDistance s) (_visibleRange s) (_cacheVisibleRange s) (_timeTicks s)
    (_visibleRangeTimeTickList s) (_visibleRangeDataList s) (_visibleRangeHighLowPrice s)
    (_crosshair s) (_indicators s) (_timezone s) (_tickTextWidth s) (_effects s).

Definition set_loading (v : bool) (s : Store) : Store :=
  mkStore (_dataList s) (_dataListMinus1 s) (_loadMoreDataCallback s) v (_loadDataMore s)
    (_dateTimeFormat s) (_zoomEnabled s) (_scrollEnabled s) (_totalBarSpace s) (_barSpace s)
    (_offsetRightDistance s) (_lastBarRightSideDiffBarCount s)
    (_startLastBarRightSideDiffBarCount s) (_scrollLimitRole s) (_minVisibleBarCount s)
    (_maxOffsetDistance s) (_visibleRange s) (_cacheVisibleRange s) (_timeTicks s)
    (_visibleRangeTimeTickList s) (_visibleRangeDataList s) (_visibleRangeHighLowPrice s)
    (_crosshair s) (_indicators s) (_timezone s) (_tickTextWidth s) (_effects s).

Definition set_loadDataMore (v : LoadDataMore) (s : Store) : Store :=
  mkStore (_dataList s) (_dataListMinus1 s) (_loadMoreDataCallback s) (_loading s) v
    (_dateTimeFormat s) (_zoomEnabled s) (_scrollEnabled s) (_totalBarSpace s) (_barSpace s)
    (_offsetRightDistance s) (_lastBarRightSideDiffBarCount s)
    (_startLastBarRightSideDiffBarCount s) (_scrollLimitRole s) (_minVisibleBarCount s)
    (_maxOffsetDistance s) (_visibleRange s) (_cacheVisibleRange s) (_timeTicks s)
    (_visibleRangeTimeTickList s) (_visibleRangeDataList s) (_visibleRangeHighLowPrice s)
    (_crosshair s) (_indicators s) (_timezone s) (_tickTextWidth s) (_effects s).

Definition set_dateTimeFormat (v : Z -> DateTime) (s : Store) : Store :=
  mkStore (_dataList s) (_dataListMinus1 s) (_loadMoreDataCallback s) (_loading s)
    (_loadDataMore s) v (_zoomEnabled s) (_scrollEnabled s) (_totalBarSpace s) (_barSpace s)
    (_offsetRightDistance s) (_lastBarRightSideDiffBarCount s)
    (_startLastBarRightSideDiffBarCount s) (_scrollLimitRole s) (_minVisibleBarCount s)
    (_maxOffsetDistance s) (_visibleRange s) (_cacheVisibleRange s) (_timeTicks s)
    (_visibleRangeTimeTickList s) (_visibleRangeDataList s) (_visibleRangeHighLowPrice s)
    (_crosshair s) (_indicators s) (_timezone s) (_tickTextWidth s) (_effects s).

Definition set_zoomEnabled (v : bool) (s : Store) : Store :=
  mkStore (_dataList s) (_dataListMinus1 s) (_loadMoreDataCallback s) (_loading s)
    (_loadDataMore s) (_dateTimeFormat s) v (_scrollEnabled s) (_totalBarSpace s) (_barSpace s)
    (_offsetRightDistance s) (_lastBarRightSideDiffBarCount s)
    (_startLastBarRightSideDiffBarCount s) (_scrollLimitRole s) (_minVisibleBarCount s)
    (_maxOffsetDistance s) (_visibleRange s) (_cacheVisibleRange s) (_timeTicks s)
    (_visibleRangeTimeTickList s) (_visibleRangeDataList s) (_visibleRangeHighLowPrice s)
    (_crosshair s) (_indicators s) (_timezone s) (_tickTextWidth s) (_effects s).

Definition set_scrollEnabled (v : bool) (s : Store) : Store :=
  mkStore (_dataList s) (_dataListMinus1 s) (_loadMoreDataCallback s) (_loading s)
    (_loadDataMore s) (_dateTimeFormat s) (_zoomEnabled s) v (_totalBarSpace s) (_barSpace s)
    (_offsetRightDistance s) (_lastBarRightSideDiffBarCount s)
    (_startLastBarRightSideDiffBarCount s) (_scrollLimitRole s) (_minVisibleBarCount s)
    (_maxOffsetDistance s) (_visibleRange s) (_cacheVisibleRange s) (_timeTicks s)
    (_visibleRangeTimeTickList s) (_visibleRangeDataList s) (_visibleRangeHighLowPrice s)
    (_crosshair s) (_indicators s) (_timezone s) (_tickTextWidth s) (_effects s).

Definition set_totalBarSpace (v : Q) (s : Store) : Store :=
  mkStore (_dataList s) (_dataListMinus1 s) (_loadMoreDataCallback s) (_loading s)
    (_loadDataMore s) (_dateTimeFormat s) (_zoomEnabled s) (_scrollEnabled s) v (_barSpace s)
    (_offsetRightDistance s) (_lastBarRightSideDiffBarCount s)
    (_startLastBarRightSideDiffBarCount s) (_scrollLimitRole s) (_minVisibleBarCount s)
    (_maxOffsetDistance s) (_visibleRange s) (_cacheVisibleRange s) (_timeTicks s)
    (_visibleRangeTimeTickList s) (_visibleRangeDataList s) (_visibleRangeHighLowPrice s)
    (_crosshair s) (_indicators s) (_timezone s) (_tickTextWidth s) (_effects s).

Definition set_barSpace (v : Q) (s : Store) : Store :=
  mkStore (_dataList s) (_dataListMinus1 s) (_loadMoreDataCallback s) (_loading s)
    (_loadDataMore s) (_dateTimeFormat s) (_zoomEnabled s) (_scrollEnabled s) (_totalBarSpace s)
    v (_offsetRightDistance s) (_lastBarRightSideDiffBarCount s)
    (_startLastBarRightSideDiffBarCount s) (_scrollLimitRole s) (_minVisibleBarCount s)
    (_maxOffsetDistance s) (_visibleRange s) (_cacheVisibleRange s) (_timeTicks s)
    (_visibleRangeTimeTickList s) (_visibleRangeDataList s) (_visibleRangeHighLowPrice s)
    (_crosshair s) (_indicators s) (_timezone s) (_tickTextWidth s) (_effects s).

Definition set_offsetRightDistance (v : Q) (s : Store) : Store :=
  mkStore (_dataList s) (_dataListMinus1 s) (_loadMoreDataCallback s) (_loading s)
    (_loadDataMore s) (_dateTimeFormat s) (_zoomEnabled s) (_scrollEnabled s) (_totalBarSpace s)
    (_barSpace s) v (_lastBarRightSideDiffBarCount s) (_startLastBarRightSideDiffBarCount s)
    (_scrollLimitRole s) (_minVisibleBarCount s) (_maxOffsetDistance s) (_visibleRange s)
    (_cacheVisibleRange s) (_timeTicks s) (_visibleRangeTimeTickList s)
    (_visibleRangeDataList s) (_visibleRangeHighLowPrice s) (_crosshair s) (_indicators s)
    (_timezone s) (_tickTextWidth s) (_effects s).

Definition set_lastBarRightSideDiffBarCount (v : Q) (s : Store) : Store :=
  mkStore (_dataList s) (_dataListMinus1 s) (_loadMoreDataCallback s) (_loading s)
    (_loadDataMore s) (_dateTimeFormat s) (_zoomEnabled s) (_scrollEnabled s) (_totalBarSpace s)
    (_barSpace s) (_offsetRightDistance s) v (_startLastBarRightSideDiffBarCount s)
    (_scrollLimitRole s) (_minVisibleBarCount s) (_maxOffsetDistance s) (_visibleRange s)
    (_cacheVisibleRange s) (_timeTicks s) (_visibleRangeTimeTickList s)
    (_visibleRangeDataList s) (_visibleRangeHighLowPrice s) (_crosshair s) (_indicators s)
    (_timezone s) (_tickTextWidth s) (_effects s).

Definition set_startLastBarRightSideDiffBarCount (v : Q) (s : Store) : Store :=
  mkStore (_dataList s) (_dataListMinus1 s) (_loadMoreDataCallback s) (_loading s)
    (_loadDataMore s) (_dateTimeFormat s) (_zoomEnabled s) (_scrollEnabled s) (_totalBarSpace s)
    (_barSpace s) (_offsetRightDistance s) (_lastBarRightSideDiffBarCount s) v
    (_scrollLimitRole s) (_minVisibleBarCount s) (_maxOffsetDistance s) (_visibleRange s)
    (_cacheVisibleRange s) (_timeTicks s) (_visibleRangeTimeTickList s)
    (_visibleRangeDataList s) (_visibleRangeHighLowPrice s) (_crosshair s) (_indicators s)
    (_timezone s) (_tickTextWidth s) (_effects s).

Definition set_scrollLimitRole (v : ScrollLimitRole) (s : Store) : Store :=
  mkStore (_dataList s) (_dataListMinus1 s) (_loadMoreDataCallback s) (_loading s)
    (_loadDataMore s) (_dateTimeFormat s) (_zoomEnabled s) (_scrollEnabled s) (_totalBarSpace s)
    (_barSpace s) (_offsetRightDistance s) (_lastBarRightSideDiffBarCount s)
    (_startLastBarRightSideDiffBarCount s) v (_minVisibleBarCount s) (_maxOffsetDistance s)
    (_visibleRange s) (_cacheVisibleRange s) (_timeTicks s) (_visibleRangeTimeTickList s)
    (_visibleRangeDataList s) (_visibleRangeHighLowPrice s) (_crosshair s) (_indicators s)
    (_timezone s) (_tickTextWidth s) (_effects s).

Definition set_minVisibleBarCount (v : LeftRight) (s : Store) : Store :=
  mkStore (_dataList s) (_dataListMinus1 s) (_loadMoreDataCallback s) (_loading s)
    (_loadDataMore s) (_dateTimeFormat s) (_zoomEnabled s) (_scrollEnabled s) (_totalBarSpace s)
    (_barSpace s) (_offsetRightDistance s) (_lastBarRightSideDiffBarCount s)
    (_startLastBarRightSideDiffBarCount s) (_scrollLimitRole s) v (_maxOffsetDistance s)
    (_visibleRange s) (_cacheVisibleRange s) (_timeTicks s) (_visibleRangeTimeTickList s)
    (_visibleRangeDataList s) (_visibleRangeHighLowPrice s) (_crosshair s) (_indicators s)
    (_timezone s) (_tickTextWidth s) (_effects s).

Definition set_maxOffsetDistance (v : LeftRight) (s : Store) : Store :=
  mkStore (_dataList s) (_dataListMinus1 s) (_loadMoreDataCallback s) (_loading s)
    (_loadDataMore s) (_dateTimeFormat s) (_zoomEnabled s) (_scrollEnabled s) (_totalBarSpace s)
    (_barSpace s) (_offsetRightDistance s) (_lastBarRightSideDiffBarCount s)
    (_startLastBarRightSideDiffBarCount s) (_scrollLimitRole s) (_minVisibleBarCount s) v
    (_visibleRange s) (_cacheVisibleRange s) (_timeTicks s) (_visibleRangeTimeTickList s)
    (_visibleRangeDataList s) (_visibleRangeHighLowPrice s) (_crosshair s) (_indicators s)
    (_timezone s) (_tickTextWidth s) (_effects s).

Definition set_visibleRange (v : VisibleRange) (s : Store) : Store :=
  mkStore (_dataList s) (_dataListMinus1 s) (_loadMoreDataCallback s) (_loading s)
    (_loadDataMore s) (_dateTimeFormat s) (_zoomEnabled s) (_scrollEnabled s) (_totalBarSpace s)
    (_barSpace s) (_offsetRightDistance s) (_lastBarRightSideDiffBarCount s)
    (_startLastBarRightSideDiffBarCount s) (_scrollLimitRole s) (_minVisibleBarCount s)
    (_maxOffsetDistance s) v (_cacheVisibleRange s) (_timeTicks s) (_visibleRangeTimeTickList s)
    (_visibleRangeDataList s) (_visibleRangeHighLowPrice s) (_crosshair s) (_indicators s)
    (_timezone s) (_tickTextWidth s) (_effects s).

Definition set_cacheVisibleRange (v : VisibleRange) (s : Store) : Store :=
  mkStore (_dataList s) (_dataListMinus1 s) (_loadMoreDataCallback s) (_loading s)
    (_loadDataMore s) (_dateTimeFormat s) (_zoomEnabled s) (_scrollEnabled s) (_totalBarSpace s)
    (_barSpace s) (_offsetRightDistance s) (_lastBarRightSideDiffBarCount s)
    (_startLastBarRightSideDiffBarCount s) (_scrollLimitRole s) (_minVisibleBarCount s)
    (_maxOffsetDistance s) (_visibleRange s) v (_timeTicks s) (_visibleRangeTimeTickList s)
    (_visibleRangeDataList s) (_visibleRangeHighLowPrice s) (_crosshair s) (_indicators s)
    (_timezone s) (_tickTextWidth s) (_effects s).

Definition set_timeTicks (v : TimeTickMap) (s : Store) : Store :=
  mkStore (_dataList s) (_dataListMinus1 s) (_loadMoreDataCallback s) (_loading s)
    (_loadDataMore s) (_dateTimeFormat s) (_zoomEnabled s) (_scrollEnabled s) (_totalBarSpace s)
    (_barSpace s) (_offsetRightDistance s) (_lastBarRightSideDiffBarCount s)
    (_startLastBarRightSideDiffBarCount s) (_scrollLimitRole s) (_minVisibleBarCount s)
    (_maxOffsetDistance s) (_visibleRange s) (_cacheVisibleRange s) v
    (_visibleRangeTimeTickList s) (_visibleRangeDataList s) (_visibleRangeHighLowPrice s)
    (_crosshair s) (_indicators s) (_timezone s) (_tickTextWidth s) (_effects s).

Definition set_visibleRangeTimeTickList (v : list TimeTick) (s : Store) : Store :=
  mkStore (_dataList s) (_dataListMinus1 s) (_loadMoreDataCallback s) (_loading s)
    (_loadDataMore s) (_dateTimeFormat s) (_zoomEnabled s) (_scrollEnabled s) (_totalBarSpace s)
    (_barSpace s) (_offsetRightDistance s) (_lastBarRightSideDiffBarCount s)
    (_startLastBarRightSideDiffBarCount s) (_scrollLimitRole s) (_minVisibleBarCount s)
    (_maxOffsetDistance s) (_visibleRange s) (_cacheVisibleRange s) (_timeTicks s) v
    (_visibleRangeDataList s) (_visibleRangeHighLowPrice s) (_crosshair s) (_indicators s)
    (_timezone s) (_tickTextWidth s) (_effects s).

Definition set_visibleRangeDataList (v : list VisibleRangeData) (s : Store) : Store :=
  mkStore (_dataList s) (_dataListMinus1 s) (_loadMoreDataCallback s) (_loading s)
    (_loadDataMore s) (_dateTimeFormat s) (_zoomEnabled s) (_scrollEnabled s) (_totalBarSpace s)
    (_barSpace s) (_offsetRightDistance s) (_lastBarRightSideDiffBarCount s)
    (_startLastBarRightSideDiffBarCount s) (_scrollLimitRole s) (_minVisibleBarCount s)
    (_maxOffsetDistance s) (_visibleRange s) (_cacheVisibleRange s) (_timeTicks s)
    (_visibleRangeTimeTickList s) v (_visibleRangeHighLowPrice s) (_crosshair s) (_indicators s)
    (_timezone s) (_tickTextWidth s) (_effects s).

Definition set_visibleRangeHighLowPrice (v : HighLowPrice * HighLowPrice) (s : Store) : Store :=
  mkStore (_dataList s) (_dataListMinus1 s) (_loadMoreDataCallback s) (_loading s)
    (_loadDataMore s) (_dateTimeFormat s) (_zoomEnabled s) (_scrollEnabled s) (_totalBarSpace s)
    (_barSpace s) (_offsetRightDistance s) (_lastBarRightSideDiffBarCount s)
    (_startLastBarRightSideDiffBarCount s) (_scrollLimitRole s) (_minVisibleBarCount s)
    (_maxOffsetDistance s) (_visibleRange s) (_cacheVisibleRange s) (_timeTicks s)
    (_visibleRangeTimeTickList s) (_visibleRangeDataList s) v (_crosshair s) (_indicators s)
    (_timezone s) (_tickTextWidth s) (_effects s).

Definition set_crosshair (v : Crosshair) (s : Store) : Store :=
  mkStore (_dataList s) (_dataListMinus1 s) (_loadMoreDataCallback s) (_loading s)
    (_loadDataMore s) (_dateTimeFormat s) (_zoomEnabled s) (_scrollEnabled s) (_totalBarSpace s)
    (_barSpace s) (_offsetRightDistance s) (_lastBarRightSideDiffBarCount s)
    (_startLastBarRightSideDiffBarCount s) (_scrollLimitRole s) (_minVisibleBarCount s)
    (_maxOffsetDistance s) (_visibleRange s) (_cacheVisibleRange s) (_timeTicks s)
    (_visibleRangeTimeTickList s) (_visibleRangeDataList s) (_visibleRangeHighLowPrice s) v
    (_indicators s) (_timezone s) (_tickTextWidth s) (_effects s).

Definition set_indicators (v : list (string * list string)) (s : Store) : Store :=
  mkStore (_dataList s) (_dataListMinus1 s) (_loadMoreDataCallback s) (_loading s)
    (_loadDataMore s) (_dateTimeFormat s) (_zoomEnabled s) (_scrollEnabled s) (_totalBarSpace s)
    (_barSpace s) (_offsetRightDistance s) (_lastBarRightSideDiffBarCount s)
    (_startLastBarRightSideDiffBarCount s) (_scrollLimitRole s) (_minVisibleBarCount s)
    (_maxOffsetDistance s) (_visibleRange s) (_cacheVisibleRange s) (_timeTicks s)
    (_visibleRangeTimeTickList s) (_visibleRangeDataList s) (_visibleRangeHighLowPrice s)
    (_crosshair s) v (_timezone s) (_tickTextWidth s) (_effects s).

Definition set_timezone (v : string) (s : Store) : Store :=
  mkStore (_dataList s) (_dataListMinus1 s) (_loadMoreDataCallback s) (_loading s)
    (_loadDataMore s) (_dateTimeFormat s) (_zoomEnabled s) (_scrollEnabled s) (_totalBarSpace s)
    (_barSpace s) (_offsetRightDistance s) (_lastBarRightSideDiffBarCount s)
    (_startLastBarRightSideDiffBarCount s) (_scrollLimitRole s) (_minVisibleBarCount s)
    (_maxOffsetDistance s) (_visibleRange s) (_cacheVisibleRange s) (_timeTicks s)
    (_visibleRangeTimeTickList s) (_visibleRangeDataList s) (_visibleRangeHighLowPrice s)
    (_crosshair s) (_indicators s) v (_tickTextWidth s) (_effects s).

Definition set_tickTextWidth (v : Q) (s : Store) : Store :=
  mkStore (_dataList s) (_dataListMinus1 s) (_loadMoreDataCallback s) (_loading s)
    (_loadDataMore s) (_dateTimeFormat s) (_zoomEnabled s) (_scrollEnabled s) (_totalBarSpace s)
    (_barSpace s) (_offsetRightDistance s) (_lastBarRightSideDiffBarCount s)
    (_startLastBarRightSideDiffBarCount s) (_scrollLimitRole s) (_minVisibleBarCount s)
    (_maxOffsetDistance s) (_visibleRange s) (_cacheVisibleRange s) (_timeTicks s)
    (_visibleRangeTimeTickList s) (_visibleRangeDataList s) (_visibleRangeHighLowPrice s)
    (_crosshair s) (_indicators s) (_timezone s) v (_effects s).

Definition set_effects (v : list Effect) (s : Store) : Store :=
  mkStore (_dataList s) (_dataListMinus1 s) (_loadMoreDataCallback s) (_loading s)
    (_loadDataMore s) (_dateTimeFormat s) (_zoomEnabled s) (_scrollEnabled s) (_totalBarSpace s)
    (_barSpace s) (_offsetRightDistance s) (_lastBarRightSideDiffBarCount s)
    (_startLastBarRightSideDiffBarCount s) (_scrollLimitRole s) (_minVisibleBarCount s)
    (_maxOffsetDistance s) (_visibleRange s) (_cacheVisibleRange s) (_timeTicks s)
    (_visibleRangeTimeTickList s) (_visibleRangeDataList s) (_visibleRangeHighLowPrice s)
    (_crosshair s) (_indicators s) (_timezone s) (_tickTextWidth s) v.

Definition emit (e : Effect) (s : Store) : Store :=
  set_effects (_effects s ++ [e]) s.

Definition dataCount (s : Store) : Z := Z.of_nat (List.length (_dataList s)).

(** [this._dataList[i]]: the element at [i], the property [-1] of the array
    for [i = -1], and [undefined] for every other [i]. *)
Definition dataAt (s : Store) (i : Z) : option KLineData :=
  if (i =? -1)%Z then _dataListMinus1 s else at_index (_dataList s) i.

(** [this._dataList = dataList] for a new array: its elements, and no
    property [-1]. *)
Definition assignDataList (dataList : list KLineData) (s : Store) : Store :=
  set_dataListMinus1 None (set_dataList dataList s).

(** ** Coordinate transform *)

Definition coordinateToFloatIndex (s : Store) (x : Q) : Q :=
  let dataCount := inject_Z (dataCount s) in
  let deltaFromRight := (_totalBarSpace s - x) / _barSpace s in
  let index := dataCount + _lastBarRightSideDiffBarCount s - deltaFromRight in
  inject_Z (Math_round (index * 1000000)) / 1000000.

Definition dataIndexToCoordinate (s : Store) (dataIndex : Q) : Z :=
  let dataCount := inject_Z (dataCount s) in
  let deltaFromRight := dataCount + _lastBarRightSideDiffBarCount s - dataIndex in
  Math_floor (_totalBarSpace s - (deltaFromRight - 0.5) * _barSpace s + 0.5).

Definition coordinateToDataIndex (s : Store) (x : Q) : Z :=
  (Math_ceil (coordinateToFloatIndex s x) - 1)%Z.

(** ** Time ticks *)

(** The weight of a bar: the first field of its date that differs from the
    previous bar's; [Second] for a bar without predecessor. *)
Definition tickWeight (dateTime : DateTime) (prevDateTime : option DateTime) : Z :=
  match prevDateTime with
  | Some prevDateTime =>
      if negb (YYYY dateTime =? YYYY prevDateTime)%Z then TimeWeightConstants.Year
      else if negb (MM dateTime =? MM prevDateTime)%Z then TimeWeightConstants.Month
      else if negb (DD dateTime =? DD prevDateTime)%Z then TimeWeightConstants.Day
      else if negb (HH dateTime =? HH prevDateTime)%Z then TimeWeightConstants.Hour
      else if negb (mm dateTime =? mm prevDateTime)%Z then TimeWeightConstants.Minute
      else TimeWeightConstants.Second
  | None => TimeWeightConstants.Second
  end.

(** The body of the [for] loop of [_classifyTimeTicks], from index [i] on. *)
Fixpoint classifyLoop (format : Z -> DateTime) (newDataList : list KLineData)
    (i baseDataIndex : Z) (prevKLineData : option KLineData) (ticks : TimeTickMap)
    : TimeTickMap :=
  match newDataList with
  | [] => ticks
  | kLineData :: rest =>
      let dateTime := format (timestamp kLineData) in
      let weight :=
        tickWeight dateTime (option_map (fun p => format (timestamp p)) prevKLineData) in
      let tickList :=
        match Map_get ticks weight with Some l => l | None => [] end in
      let tickList :=
        tickList ++ [mkTimeTick weight (i + baseDataIndex) dateTime (timestamp kLineData)] in
      classifyLoop format rest (i + 1) baseDataIndex (Some kLineData)
        (Map_set ticks weight tickList)
  end.

Definition _classifyTimeTicks (newDataList : list KLineData) (isUpdate : bool)
    (s : Store) : Store :=
  let baseDataIndex := if isUpdate then dataCount s else 0%Z in
  let prevKLineData :=
    if isUpdate then dataAt s (baseDataIndex - 1) else None in
  let ticks := if isUpdate then _timeTicks s else [] in
  set_timeTicks
    (classifyLoop (_dateTimeFormat s) newDataList 0 baseDataIndex prevKLineData ticks) s.

(** [leftIndex] starts at [-Infinity] and [rightIndex] at [Infinity]; both
    are [None] while infinite.  The two tests of the admission condition: *)
Definition rightFar (rightIndex : option Z) (currentIndex barCount : Z) : bool :=
  match rightIndex with
  | None => true
  | Some r => (r - currentIndex >=? barCount)%Z
  end.

Definition leftFar (leftIndex : option Z) (currentIndex barCount : Z) : bool :=
  match leftIndex with
  | None => true
  | Some l => (currentIndex - l >=? barCount)%Z
  end.

(** The inner [while]: [prevRest] is [prevTickList] from
    [prevTickListPointer] on. *)
Fixpoint drainPrevTicks (prevRest tickList : list TimeTick)
    (leftIndex rightIndex : option Z) (currentIndex : Z)
    : list TimeTick * list TimeTick * option Z * option Z :=
  match prevRest with
  | [] => (prevRest, tickList, leftIndex, rightIndex)
  | lastMark :: rest =>
      let lastIndex := dataIndex lastMark in
      if (lastIndex <? currentIndex)%Z
      then drainPrevTicks rest (tickList ++ [lastMark]) (Some lastIndex) None currentIndex
      else (prevRest, tickList, leftIndex, Some lastIndex)
  end.

(** The [for] over [currentTicks], followed by the [for] that appends what
    is left of [prevTickList]. *)
Fixpoint mergeCurrentTicks (barCount : Z) (currentTicks prevRest tickList : list TimeTick)
    (leftIndex rightIndex : option Z) : list TimeTick :=
  match currentTicks with
  | [] => tickList ++ prevRest
  | tick :: more =>
      let currentIndex := dataIndex tick in
      let '(prevRest, tickList, leftIndex, rightIndex) :=
        drainPrevTicks prevRest tickList leftIndex rightIndex currentIndex in
      if rightFar rightIndex currentIndex barCount && leftFar leftIndex currentIndex barCount
      then mergeCurrentTicks barCount more prevRest (tickList ++ [tick])
             (Some currentIndex) rightIndex
      else mergeCurrentTicks barCount more prevRest tickList leftIndex rightIndex
  end.

Definition tickBarCount (s : Store) : Z :=
  let width :=
    Qmax (inject_Z (Math_ceil (_totalBarSpace s / 10))) (_tickTextWidth s) in
  Math_ceil (width / _barSpace s).

(** The merged tick list over all weights, coarsest first. *)
Definition mergedTickList (s : Store) : list TimeTick :=
  let barCount := tickBarCount s in
  fold_left
    (fun prevTickList key =>
       let currentTicks :=
         match Map_get (_timeTicks s) key with Some l => l | None => [] end in
       mergeCurrentTicks barCount currentTicks prevTickList [] None None)
    (sort_desc (Map_keys (_timeTicks s))) [].

Definition _adjustVisibleRangeTimeTickList (s : Store) : Store :=
  let tickList := mergedTickList s in
  set_visibleRangeTimeTickList
    (filter
       (fun tick =>
          (dataIndex tick >=? from (_visibleRange s))%Z
          && (dataIndex tick <=? to (_visibleRange s))%Z)
       tickList) s.

(** ** Visible range *)

(** The two clamps of [_lastBarRightSideDiffBarCount] at the head of
    [_adjustVisibleRange]. *)
Definition clampedLastBarRightSideDiffBarCount (s : Store) : Q :=
  let totalBarCount := inject_Z (dataCount s) in
  let visibleBarCount := _totalBarSpace s / _barSpace s in
  let leftMinVisibleBarCount :=
    match _scrollLimitRole s with
    | Distance => (_totalBarSpace s - right (_maxOffsetDistance s)) / _barSpace s
    | BarCount => left (_minVisibleBarCount s)
    end in
  let rightMinVisibleBarCount :=
    match _scrollLimitRole s with
    | Distance => (_totalBarSpace s - left (_maxOffsetDistance s)) / _barSpace s
    | BarCount => right (_minVisibleBarCount s)
    end in
  let leftMinVisibleBarCount := Qmax 0 leftMinVisibleBarCount in
  let rightMinVisibleBarCount := Qmax 0 rightMinVisibleBarCount in
  let maxRightOffsetBarCount :=
    visibleBarCount - Qmin leftMinVisibleBarCount totalBarCount in
  let diff :=
    if Qlt_le_dec maxRightOffsetBarCount (_lastBarRightSideDiffBarCount s)
    then maxRightOffsetBarCount else _lastBarRightSideDiffBarCount s in
  let minRightOffsetBarCount :=
    - totalBarCount + Qmin rightMinVisibleBarCount totalBarCount in
  if Qlt_le_dec diff minRightOffsetBarCount then minRightOffsetBarCount else diff.

(** The range derived from the (already clamped) offset. *)
Definition derivedVisibleRange (s : Store) : VisibleRange :=
  let totalBarCount := dataCount s in
  let visibleBarCount := _totalBarSpace s / _barSpace s in
  let to := Math_round (_lastBarRightSideDiffBarCount s + inject_Z totalBarCount + 0.5) in
  let realTo := to in
  let to := if (to >? totalBarCount)%Z then totalBarCount else to in
  let from := (Math_round (inject_Z to - visibleBarCount) - 1)%Z in
  let from := if (from <? 0)%Z then 0%Z else from in
  let realFrom :=
    if Qlt_le_dec 0 (_lastBarRightSideDiffBarCount s)
    then (Math_round (inject_Z totalBarCount + _lastBarRightSideDiffBarCount s
                      - visibleBarCount) - 1)%Z
    else from in
  mkVisibleRange from to realFrom realTo.

(** One turn of the loop over [realFrom <= i < realTo]. *)
Definition visitVisibleBar (s : Store)
    (acc : list VisibleRangeData * (HighLowPrice * HighLowPrice)) (i : Z)
    : list VisibleRangeData * (HighLowPrice * HighLowPrice) :=
  let '(dataList, (highest, lowest)) := acc in
  let kLineData := dataAt s i in
  let x := dataIndexToCoordinate s (inject_Z i) in
  let dataList := dataList ++ [mkVisibleRangeData i x kLineData] in
  match kLineData with
  | Some k =>
      let highest :=
        if Qlt_le_dec (price highest) (high k) then mkHighLowPrice x (high k) else highest in
      let lowest :=
        if Qlt_le_dec (low k) (price lowest) then mkHighLowPrice x (low k) else lowest in
      (dataList, (highest, lowest))
  | None => (dataList, (highest, lowest))
  end.

(** The pagination request at the tail of [_adjustVisibleRange]. *)
Definition requestMoreData (s : Store) : Store :=
  let from := from (_visibleRange s) in
  let to := to (_visibleRange s) in
  let totalBarCount := dataCount s in
  if negb (_loading s) && _loadMoreDataCallback s then
    if (from =? 0)%Z then
      if forward (_loadDataMore s)
      then emit (LoadMoreData Forward (dataAt s 0)) (set_loading true s)
      else s
    else if (to =? totalBarCount)%Z then
      if backward (_loadDataMore s)
      then emit (LoadMoreData Backward (dataAt s (totalBarCount - 1)))
                (set_loading true s)
      else s
    else s
  else s.

Definition _adjustVisibleRange (s : Store) : Store :=
  let s := set_lastBarRightSideDiffBarCount (clampedLastBarRightSideDiffBarCount s) s in
  let s := set_visibleRange (derivedVisibleRange s) s in
  let s := emit (ExecuteOnVisibleRangeChange (_visibleRange s)) s in
  let '(dataList, highLow) :=
    fold_left (visitVisibleBar s)
      (index_range (realFrom (_visibleRange s)) (realTo (_visibleRange s)))
      ([], defaultHighLowPrice) in
  let s := set_visibleRangeDataList dataList s in
  let s := set_visibleRangeHighLowPrice highLow s in
  let s :=
    if negb (from (_cacheVisibleRange s) =? from (_visibleRange s))%Z
       || negb (to (_cacheVisibleRange s) =? to (_visibleRange s))%Z
    then _adjustVisibleRangeTimeTickList (set_cacheVisibleRange (_visibleRange s) s)
    else s in
  requestMoreData s.

(** ** Crosshair *)

Definition setCrosshair (crosshair : option Crosshair) (notInvalidate : bool)
    (s : Store) : Store :=
  let cr := match crosshair with Some c => c | None => emptyCrosshair end in
  let '(realDataIndex, dataIndex) :=
    match x cr with
    | Some crx =>
        let realDataIndex := coordinateToDataIndex s crx in
        if (realDataIndex <? 0)%Z then (realDataIndex, 0%Z)
        else if (realDataIndex >? dataCount s - 1)%Z then (realDataIndex, (dataCount s - 1)%Z)
        else (realDataIndex, realDataIndex)
    | None => ((dataCount s - 1)%Z, (dataCount s - 1)%Z)
    end in
  let kLineData := dataAt s dataIndex in
  let realX := dataIndexToCoordinate s (inject_Z realDataIndex) in
  let prevCrosshair := _crosshair s in
  let s :=
    set_crosshair
      (mkCrosshair (x cr) (y cr) (paneId cr) (Some realX) kLineData
         (Some realDataIndex) (Some dataIndex)) s in
  if negb (optQ_eqb (x prevCrosshair) (x cr))
     || negb (optQ_eqb (y prevCrosshair) (y cr))
     || negb (optString_eqb (paneId prevCrosshair) (paneId cr))
  then
    let s :=
      match kLineData with
      | Some _ => emit (ChartCrosshairChange (_crosshair s)) s
      | None => s
      end in
    if negb notInvalidate then emit ChartUpdatePane s else s
  else s.

(** ** Bar space, total space, offsets *)

Definition setBarSpace (barSpace : Q) (adjustBeforeFunc : option (Store -> Store))
    (s : Store) : Store :=
  if Qlt_le_dec barSpace BarSpaceLimitConstants.MIN then s
  else if Qlt_le_dec BarSpaceLimitConstants.MAX barSpace then s
  else if Qeq_bool (_barSpace s) barSpace then s
  else
    let s := set_barSpace barSpace s in
    let s := match adjustBeforeFunc with Some f => f s | None => s end in
    let s := _adjustVisibleRange s in
    let s := setCrosshair (Some (_crosshair s)) true s in
    emit ChartLayout s.

Definition setTotalBarSpace (totalSpace : Q) (s : Store) : Store :=
  if negb (Qeq_bool (_totalBarSpace s) totalSpace) then
    let s := set_totalBarSpace totalSpace s in
    let s := _adjustVisibleRange s in
    setCrosshair (Some (_crosshair s)) true s
  else s.

Definition setOffsetRightDistance (distance : Q) (isUpdate : bool) (s : Store) : Store :=
  let s :=
    set_offsetRightDistance
      (match _scrollLimitRole s with
       | Distance => Qmin (right (_maxOffsetDistance s)) distance
       | BarCount => distance
       end) s in
  let s := set_lastBarRightSideDiffBarCount (_offsetRightDistance s / _barSpace s) s in
  if isUpdate then
    let s := _adjustVisibleRange s in
    let s := setCrosshair (Some (_crosshair s)) true s in
    emit ChartLayout s
  else s.

Definition getLastBarRightSideDiffBarCount (s : Store) : Q :=
  _lastBarRightSideDiffBarCount s.

Definition setLastBarRightSideDiffBarCount (barCount : Q) (s : Store) : Store :=
  set_lastBarRightSideDiffBarCount barCount s.

Definition setMaxOffsetLeftDistance (distance : Q) (s : Store) : Store :=
  set_maxOffsetDistance (mkLeftRight distance (right (_maxOffsetDistance s)))
    (set_scrollLimitRole Distance s).

Definition setMaxOffsetRightDistance (distance : Q) (s : Store) : Store :=
  set_maxOffsetDistance (mkLeftRight (left (_maxOffsetDistance s)) distance)
    (set_scrollLimitRole Distance s).

Definition setLeftMinVisibleBarCount (barCount : Q) (s : Store) : Store :=
  set_minVisibleBarCount (mkLeftRight barCount (right (_minVisibleBarCount s)))
    (set_scrollLimitRole BarCount s).

Definition setRightMinVisibleBarCount (barCount : Q) (s : Store) : Store :=
  set_minVisibleBarCount (mkLeftRight (left (_minVisibleBarCount s)) barCount)
    (set_scrollLimitRole BarCount s).

Definition getVisibleRange (s : Store) : VisibleRange := _visibleRange s.

Definition getVisibleRangeTimeTickList (s : Store) : list TimeTick :=
  _visibleRangeTimeTickList s.

(** ** Scroll and zoom *)

Definition startScroll (s : Store) : Store :=
  set_startLastBarRightSideDiffBarCount (_lastBarRightSideDiffBarCount s) s.

Definition scroll (distance : Q) (s : Store) : Store :=
  if negb (_scrollEnabled s) then s
  else
    let distanceBarCount := distance / _barSpace s in
    let prevLastBarRightSideDistance := _lastBarRightSideDiffBarCount s * _barSpace s in
    let s :=
      set_lastBarRightSideDiffBarCount
        (_startLastBarRightSideDiffBarCount s - distanceBarCount) s in
    let s := _adjustVisibleRange s in
    let s := setCrosshair (Some (_crosshair s)) true s in
    let s := emit ChartLayout s in
    let realDistance :=
      Math_round (prevLastBarRightSideDistance
                  - _lastBarRightSideDiffBarCount s * _barSpace s) in
    if negb (realDistance =? 0)%Z then emit (ExecuteOnScroll realDistance) s else s.

(** The coordinate is [coordinate?.x]: [None] when absent or not a number. *)
Definition zoom (scale : Q) (coordinate : option Q) (s : Store) : Store :=
  if negb (_zoomEnabled s) then s
  else
    let x :=
      match coordinate with
      | Some x => x
      | None =>
          match x (_crosshair s) with
          | Some cx => cx
          | None => _totalBarSpace s / 2
          end
      end in
    let floatIndex := coordinateToFloatIndex s x in
    let prevBarSpace := _barSpace s in
    let barSpace := _barSpace s + scale * (_barSpace s / SCALE_MULTIPLIER) in
    let s :=
      setBarSpace barSpace
        (Some (fun s =>
                 set_lastBarRightSideDiffBarCount
                   (_lastBarRightSideDiffBarCount s
                    + (floatIndex - coordinateToFloatIndex s x)) s)) s in
    let realScale := _barSpace s / prevBarSpace in
    if negb (Qeq_bool realScale 1) then emit (ExecuteOnZoom realScale) s else s.

(** ** Data window *)

Definition clear (s : Store) : Store :=
  let s := set_loadDataMore (mkLoadDataMore false false) s in
  let s := set_loading true s in
  let s := assignDataList [] s in
  let s := set_visibleRangeDataList [] s in
  let s := set_visibleRangeHighLowPrice defaultHighLowPrice s in
  let s := set_visibleRange getDefaultVisibleRange s in
  let s := set_cacheVisibleRange getDefaultVisibleRange s in
  let s := set_timeTicks [] s in
  set_crosshair emptyCrosshair s.

(** [more?.forward ?? false] and [more?.backward ?? false]. *)
Definition moreForward (more : option LoadDataMore) : bool :=
  match more with Some m => forward m | None => false end.

Definition moreBackward (more : option LoadDataMore) : bool :=
  match more with Some m => backward m | None => false end.

(** Modelled from the spec: [formatValue(bar, 'timestamp', 0)] of
    [common/utils/format], which is not among the sources: the time stamp of
    the bar, and the default 0 when there is no bar. *)
Definition formatValue_timestamp (data : option KLineData) : Z :=
  match data with Some d => timestamp d | None => 0%Z end.

(** [list[i] = v] for an index [i] inside the list. *)
Fixpoint replace_at {A : Type} (l : list A) (i : nat) (v : A) : list A :=
  match l, i with
  | [] , _ => []
  | _ :: t, O => v :: t
  | h :: t, S i => h :: replace_at t i v
  end.

(** [this._dataList[dataCount - 1] = data]: the last element of the list
    is replaced; on an empty list the key is [-1], the bar becomes the
    property [-1] of the array and the length stays 0. *)
Definition assignLastData (data : KLineData) (s : Store) : Store :=
  let dataCount := dataCount s in
  if (dataCount =? 0)%Z then set_dataListMinus1 (Some data) s
  else set_dataList (replace_at (_dataList s) (Z.to_nat (dataCount - 1)) data) s.

(** The tail of [addData] when [success && adjustFlag]. *)
Definition afterDataChange (type : LoadDataType) (s : Store) : Store :=
  let s := _adjustVisibleRange s in
  let s := setCrosshair (Some (_crosshair s)) true s in
  let s :=
    fold_left
      (fun s '(pane, indicators) =>
         fold_left (fun s name => emit (AddIndicatorCalcTask pane name type) s) indicators s)
      (_indicators s) s in
  emit ChartLayout s.

(** [data] is a list ([isArray]) or a single bar. *)
Definition addData (data : KLineData + list KLineData) (type : LoadDataType)
    (more : option LoadDataMore) (s : Store) : Store :=
  match data with
  | inr data =>
      let dataLengthChange := Z.of_nat (List.length data) in
      let '(s, adjustFlag) :=
        match type with
        | Init =>
            let s := clear s in
            let s := assignDataList data s in
            let s :=
              set_loadDataMore (mkLoadDataMore (forward (_loadDataMore s)) (moreForward more)) s in
            let s :=
              set_loadDataMore (mkLoadDataMore (moreForward more) (backward (_loadDataMore s))) s in
            let s := _classifyTimeTicks (_dataList s) false s in
            let s := setOffsetRightDistance (_offsetRightDistance s) false s in
            (s, true)
        | Backward =>
            let s := _classifyTimeTicks data true s in
            let s := assignDataList (_dataList s ++ data) s in
            let s :=
              set_loadDataMore (mkLoadDataMore (forward (_loadDataMore s)) (moreBackward more)) s in
            (s, (dataLengthChange >? 0)%Z)
        | Forward =>
            let s := assignDataList (data ++ _dataList s) s in
            let s := _classifyTimeTicks (_dataList s) false s in
            let s :=
              set_loadDataMore (mkLoadDataMore (moreForward more) (backward (_loadDataMore s))) s in
            (s, (dataLengthChange >? 0)%Z)
        end in
      let s := set_loading false s in
      if adjustFlag then afterDataChange type s else s
  | inl data =>
      let dataCount := dataCount s in
      let timestamp := timestamp data in
      let lastDataTimestamp :=
        formatValue_timestamp (dataAt s (dataCount - 1)) in
      if (timestamp >? lastDataTimestamp)%Z then
        let s := _classifyTimeTicks [data] true s in
        let s := set_dataList (_dataList s ++ [data]) s in
        let lastBarRightSideDiffBarCount := getLastBarRightSideDiffBarCount s in
        let s :=
          if Qlt_le_dec lastBarRightSideDiffBarCount 0
          then setLastBarRightSideDiffBarCount (lastBarRightSideDiffBarCount - 1) s
          else s in
        afterDataChange type s
      else if (timestamp =? lastDataTimestamp)%Z then
        let s := assignLastData data s in
        afterDataChange type s
      else s
  end.

Definition setLoadMoreDataCallback (s : Store) : Store :=
  set_loadMoreDataCallback true s.

Definition setZoomEnabled (enabled : bool) (s : Store) : Store := set_zoomEnabled enabled s.

Definition setScrollEnabled (enabled : bool) (s : Store) : Store := set_scrollEnabled enabled s.

(** ** Options *)

(** The part of [OverrideOptions] that the store reads: the time zone, and
    the styles as the width that [calcTextWidth] measures for the tick-label
    sample text once they are merged ([None] for options that leave that
    width as it is). *)
Record OverrideOptions := mkOverrideOptions {
  timezone : option string;
  tickTextWidth : option Q
}.

(** [created] is what [new Intl.DateTimeFormat('en', ...)] returns for the
    time zone of the options, [None] when it throws.  The ticks are
    classified and merged before the new formatter is stored and before the
    options are merged. *)
Definition setOptions (options : option OverrideOptions)
    (created : option (Z -> DateTime)) (s : Store) : Store :=
  let timezone :=
    match options with Some o => timezone o | None => None end in
  let s :=
    if match timezone with
       | Some tz => negb (String.eqb tz (_timezone s))
       | None => false
       end
    then
      match created with
      | Some dateTimeFormat =>
          let s := _classifyTimeTicks (_dataList s) false s in
          let s := _adjustVisibleRangeTimeTickList s in
          set_dateTimeFormat dateTimeFormat s
      | None => s
      end
    else s in
  let s := match timezone with Some tz => set_timezone tz s | None => s end in
  match options with
  | Some o =>
      match tickTextWidth o with
      | Some width => set_tickTextWidth width s
      | None => s
      end
  | None => s
  end.

(** The store that the constructor builds without options ([dateTimeFormat]
    is the formatter of the time zone ['auto']), for a measured tick-label
    width. *)
Definition newStore (dateTimeFormat : Z -> DateTime) (tickTextWidth : Q) : Store :=
  mkStore [] None false true (mkLoadDataMore false false) dateTimeFormat true true
    0 DEFAULT_BAR_SPACE DEFAULT_OFFSET_RIGHT_DISTANCE
    (DEFAULT_OFFSET_RIGHT_DISTANCE / DEFAULT_BAR_SPACE) 0
    BarCount (mkLeftRight 2 2) (mkLeftRight 50 50)
    getDefaultVisibleRange getDefaultVisibleRange [] [] [] defaultHighLowPrice
    emptyCrosshair [] "auto"%string tickTextWidth [].

(** ** Mutations of the store, as a caller issues them *)

Inductive Mutation :=
| AddData (data : KLineData + list KLineData) (type : LoadDataType)
    (more : option LoadDataMore)
| SetBarSpace (barSpace : Q)
| SetTotalBarSpace (totalSpace : Q)
| SetOffsetRightDistance (distance : Q) (isUpdate : bool)
| SetLastBarRightSideDiffBarCount (barCount : Q)
| SetMaxOffsetLeftDistance (distance : Q)
| SetMaxOffsetRightDistance (distance : Q)
| SetLeftMinVisibleBarCount (barCount : Q)
| SetRightMinVisibleBarCount (barCount : Q)
| StartScroll
| Scroll (distance : Q)
| Zoom (scale : Q) (coordinate : option Q)
| SetCrosshair (crosshair : option Crosshair) (notInvalidate : bool)
| SetZoomEnabled (enabled : bool)
| SetScrollEnabled (enabled : bool)
| SetLoadMoreDataCallback
| SetOptions (options : option OverrideOptions) (created : option (Z -> DateTime))
| Clear.

Definition perform (s : Store) (m : Mutation) : Store :=
  match m with
  | AddData data type more => addData data type more s
  | SetBarSpace barSpace => setBarSpace barSpace None s
  | SetTotalBarSpace totalSpace => setTotalBarSpace totalSpace s
  | SetOffsetRightDistance distance isUpdate => setOffsetRightDistance distance isUpdate s
  | SetLastBarRightSideDiffBarCount barCount => setLastBarRightSideDiffBarCount barCount s
  | SetMaxOffsetLeftDistance distance => setMaxOffsetLeftDistance distance s
  | SetMaxOffsetRightDistance distance => setMaxOffsetRightDistance distance s
  | SetLeftMinVisibleBarCount barCount => setLeftMinVisibleBarCount barCount s
  | SetRightMinVisibleBarCount barCount => setRightMinVisibleBarCount barCount s
  | StartScroll => startScroll s
  | Scroll distance => scroll distance s
  | Zoom scale coordinate => zoom scale coordinate s
  | SetCrosshair crosshair notInvalidate => setCrosshair crosshair notInvalidate s
  | SetZoomEnabled enabled => setZoomEnabled enabled s
  | SetScrollEnabled enabled => setScrollEnabled enabled s
  | SetLoadMoreDataCallback => setLoadMoreDataCallback s
  | SetOptions options created => setOptions options created s
  | Clear => clear s
  end.

Definition performAll (ms : list Mutation) (s : Store) : Store := fold_left perform ms s.

(** A total-space change to a drawing area of non-negative width. *)
Definition nonNegativeWidth (m : Mutation) : Prop :=
  match m with
  | SetTotalBarSpace totalSpace => 0 <= totalSpace
  | _ => True
  end.

(** The range invariant of the specification. *)
Definition rangeWithinData (s : Store) : Prop :=
  (0 <= from (_visibleRange s) /\ from (_visibleRange s) <= to (_visibleRange s)
   /\ to (_visibleRange s) <= dataCount s)%Z.

(** ** Gap bar space *)

Definition BAR_GAP_RATIO : R := (2 / 10)%R.

(** [_calcOptimalBarSpace], as the value it stores in [_gapBarSpace]. *)
Definition _calcOptimalBarSpace (barSpace : R) : Z :=
  let specialBarSpace := 4%R in
  let ratio :=
    (1 - BAR_GAP_RATIO * atan (Rmax specialBarSpace barSpace - specialBarSpace)
         / (PI * (5 / 10)))%R in
  let gapBarSpace := Z.min (Zfloor (barSpace * ratio)) (Zfloor barSpace) in
  let gapBarSpace :=
    if (Z.rem gapBarSpace 2 =? 0)%Z
    then if Rle_lt_dec barSpace (IZR (gapBarSpace + 2))
         then (gapBarSpace - 1)%Z else gapBarSpace
    else gapBarSpace in
  Z.max 1 gapBarSpace.

(** The value of [gapBarSpace] in [_calcOptimalBarSpace] before its parity
    is looked at: the smaller of the two floors. *)
Definition unadjustedGapBarSpace (barSpace : R) : Z :=
  let specialBarSpace := 4%R in
  let ratio :=
    (1 - BAR_GAP_RATIO * atan (Rmax specialBarSpace barSpace - specialBarSpace)
         / (PI * (5 / 10)))%R in
  Z.min (Zfloor (barSpace * ratio)) (Zfloor barSpace).

Definition _gapBarSpace (s : Store) : Z := _calcOptimalBarSpace (Q2R (_barSpace s)).

(** ** Indicator calculation tasks *)

Module IndicatorTasks.

Inductive IndicatorDataState := Loading | Ready | Error.

(** A task of [_addIndicatorCalcTask]: its id is made of the pane and the
    indicator name; its handler is determined by the indicator and the
    load kind. *)
Record Task := mkTask {
  taskPane : string;
  taskName : string;
  loadDataType : LoadDataType
}.

(** Modelled from the spec: [generateTaskId] of [common/TaskScheduler],
    which is not among the sources; the key is the pair (pane, indicator
    name). *)
Definition generateTaskId (t : Task) : string * string := (taskPane t, taskName t).

Definition sameId (a b : string * string) : bool :=
  String.eqb (fst a) (fst b) && String.eqb (snd a) (snd b).

(** [indicator.onDataStateChange({ state, type, indicator })], for an
    indicator that has the hook. *)
Record Notification := mkNotification {
  notifiedId : string * string;
  state : IndicatorDataState;
  notifiedType : LoadDataType
}.

(** How the promise of [calcImp] settles. *)
Inductive Outcome := Resolved (result : bool) | Rejected.

(** [tasks]: registered, not yet run.  [inFlight]: handlers that have
    run and whose computation has not settled.  [notifications] and
    [layouts]: what the handlers have done so far. *)
Record Scheduler := mkScheduler {
  tasks : list Task;
  inFlight : list Task;
  notifications : list Notification;
  layouts : nat
}.

Definition emptyScheduler : Scheduler := mkScheduler [] [] [] 0.

(** Modelled from the spec: the task list of [TaskScheduler] after a
    submission; a task for a key that already has one pending supersedes
    it, any other task is queued. *)
Fixpoint replaceOrPush (t : Task) (l : list Task) : list Task :=
  match l with
  | [] => [t]
  | h :: rest =>
      if sameId (generateTaskId h) (generateTaskId t) then t :: rest
      else h :: replaceOrPush t rest
  end.

(** Modelled from the spec: [TaskScheduler.addTask], which is not among
    the sources (replace-on-resubmit; the task is run later, by
    [runNext]). *)
Definition addTask (t : Task) (sch : Scheduler) : Scheduler :=
  mkScheduler (replaceOrPush t (tasks sch)) (inFlight sch) (notifications sch)
    (layouts sch).

(** The handler of [_addIndicatorCalcTask] up to the suspension:
    [Loading] is notified and [calcImp] is started. *)
Definition handler (t : Task) (sch : Scheduler) : Scheduler :=
  mkScheduler (tasks sch) (inFlight sch ++ [t])
    (notifications sch ++ [mkNotification (generateTaskId t) Loading (loadDataType t)])
    (layouts sch).

(** Modelled from the spec: the scheduler runs the first pending task. *)
Definition runNext (sch : Scheduler) : Scheduler :=
  match tasks sch with
  | [] => sch
  | t :: rest =>
      handler t (mkScheduler rest (inFlight sch) (notifications sch) (layouts sch))
  end.

Fixpoint remove_nth {A : Type} (n : nat) (l : list A) : list A :=
  match l, n with
  | [], _ => []
  | _ :: t, O => t
  | h :: t, S n => h :: remove_nth n t
  end.

(** The [then] and [catch] continuations of the handler, when the [n]-th
    computation in flight settles. *)
Definition settle (n : nat) (o : Outcome) (sch : Scheduler) : Scheduler :=
  match nth_error (inFlight sch) n with
  | None => sch
  | Some t =>
      let rest := remove_nth n (inFlight sch) in
      match o with
      | Resolved true =>
          mkScheduler (tasks sch) rest
            (notifications sch
             ++ [mkNotification (generateTaskId t) Ready (loadDataType t)])
            (S (layouts sch))
      | Resolved false => mkScheduler (tasks sch) rest (notifications sch) (layouts sch)
      | Rejected =>
          mkScheduler (tasks sch) rest
            (notifications sch
             ++ [mkNotification (generateTaskId t) Error (loadDataType t)])
            (layouts sch)
      end
  end.

Inductive Event :=
| AddTask (t : Task)
| RunNext
| Settle (n : nat) (o : Outcome).

Definition step (sch : Scheduler) (e : Event) : Scheduler :=
  match e with
  | AddTask t => addTask t sch
  | RunNext => runNext sch
  | Settle n o => settle n o sch
  end.

Definition run (es : list Event) (sch : Scheduler) : Scheduler := fold_left step es sch.

Definition isCompletion (key : string * string) (n : Notification) : bool :=
  sameId (notifiedId n) key
  && match state n with Loading => false | Ready | Error => true end.

(** The completion notifications ([Ready] or [Error]) delivered for a key. *)
Definition completions (key : string * string) (sch : Scheduler) : nat :=
  List.length (filter (isCompletion key) (notifications sch)).

Definition addsTaskFor (key : string * string) (e : Event) : bool :=
  match e with
  | AddTask t => sameId (generateTaskId t) key
  | _ => false
  end.

(** The tasks of a list that carry a key. *)
Definition countFor (key : string * string) (l : list Task) : nat :=
  List.length (filter (fun t => sameId (generateTaskId t) key) l).

(** What can still be, or has been, notified as complete for a key: its
    pending tasks, its computations in flight and its completions. *)
Definition load (key : string * string) (sch : Scheduler) : nat :=
  countFor key (tasks sch) + countFor key (inFlight sch) + completions key sch.

(** The event settles a computation of the key with a falsy result, for
    which the handler notifies nothing. *)
Definition settlesFalsy (key : string * string) (sch : Scheduler) (e : Event) : bool :=
  match e with
  | Settle n (Resolved false) =>
      match nth_error (inFlight sch) n with
      | Some t => sameId (generateTaskId t) key
      | None => false
      end
  | _ => false
  end.

(** The computations of the key that a run of events settles with a
    falsy result. *)
Fixpoint falsyResolutions (key : string * string) (es : list Event) (sch : Scheduler)
    : nat :=
  match es with
  | [] => 0
  | e :: rest =>
      ((if settlesFalsy key sch e then 1 else 0)
       + falsyResolutions key rest (step sch e))%nat
  end.

(** No event of the list submits a task for the key. *)
Definition noSubmission (key : string * string) (es : list Event) : bool :=
  forallb (fun e => negb (addsTaskFor key e)) es.

End IndicatorTasks.

(** ** Auxiliary notions of the verification *)

(** The fields that decide the viewport, and the data. *)
Definition view (s : Store) :=
  (_dataList s, _barSpace s, _totalBarSpace s, _lastBarRightSideDiffBarCount s,
   _visibleRange s, _loadDataMore s,
   (_scrollLimitRole s, _minVisibleBarCount s, _maxOffsetDistance s),
   (_zoomEnabled s, _scrollEnabled s, _startLastBarRightSideDiffBarCount s),
   _dataListMinus1 s).

(** The bar space is within its limits and the drawing area has a width. *)
Definition geometryOk (s : Store) : Prop :=
  1 <= _barSpace s /\ _barSpace s <= 50 /\ 0 <= _totalBarSpace s.

Definition wellFormed (s : Store) : Prop := geometryOk s /\ rangeWithinData s.

(** The offset is where [_adjustVisibleRange] would leave it: within the
    scroll limits of the store. *)
Definition offsetWithinLimits (s : Store) : Prop :=
  clampedLastBarRightSideDiffBarCount s == _lastBarRightSideDiffBarCount s.

(** A getter as a call: the value and the store after the call. *)
Definition call {A : Type} (getter : Store -> A) (s : Store) : A * Store := (getter s, s).

(** ** Example data *)

(** A formatter for time stamps in milliseconds that counts days from the
    epoch (one month, one year). *)
Definition exampleFormat (t : Z) : DateTime :=
  mkDateTime 1970 1 (t / 86400000) ((t / 3600000) mod 24) ((t / 60000) mod 60)
    ((t / 1000) mod 60).

Definition exampleBar (t : Z) (o c : Q) : KLineData :=
  mkKLineData t o (Qmax o c) (Qmin o c) c 0.

Definition twoBars : list KLineData := [exampleBar 1 9 10; exampleBar 2 10 11].

Definition fiveBars : list KLineData :=
  [exampleBar 1 9 10; exampleBar 2 10 11; exampleBar 3 11 12; exampleBar 4 12 11;
   exampleBar 5 11 13].

(** Two bars loaded into a viewport 200 pixels wide, bar space 10. *)
Definition twoBarStore : Store :=
  performAll [SetTotalBarSpace 200; AddData (inr twoBars) Init None]
    (newStore exampleFormat 100).

(** Five bars in the same viewport, dragged 100 pixels to the right: the
    offset is -2. *)
Definition fiveBarStore : Store :=
  performAll [SetTotalBarSpace 200; AddData (inr fiveBars) Init None; StartScroll; Scroll 100]
    (newStore exampleFormat 100).

(** The same five bars dragged to the right as far as the scroll limit
    allows: the offset is -3, bars 0 and 1 are at pixels 185 and 195. *)
Definition scrolledStore : Store :=
  performAll [SetTotalBarSpace 200; AddData (inr fiveBars) Init None; StartScroll; Scroll 1000]
    (newStore exampleFormat 100).

(** ** Tolerances and intermediate states *)

(** The rounding of the round trip index -> pixel -> float index, in bars:
    half a pixel ([Math.floor] of the pixel) and half of [1e-6] (the
    precision of [coordinateToFloatIndex]). *)
Definition roundTripTolerance (barSpace : Q) : Q := (1 # 2) / barSpace + (1 # 2000000).

(** One unit of the sixth decimal, the precision to which
    [coordinateToFloatIndex] rounds. *)
Definition floatIndexTolerance : Q := 1 # 1000000.

(** The bar space that [zoom] asks for. *)
Definition zoomedBarSpace (scale : Q) (s : Store) : Q :=
  _barSpace s + scale * (_barSpace s / SCALE_MULTIPLIER).

(** The store as [zoom] hands it to [_adjustVisibleRange]: the new bar space
    is set and the offset has been moved by the callback of [zoom]. *)
Definition zoomAnchored (scale x : Q) (s : Store) : Store :=
  let floatIndex := coordinateToFloatIndex s x in
  let s1 := set_barSpace (zoomedBarSpace scale s) s in
  set_lastBarRightSideDiffBarCount
    (_lastBarRightSideDiffBarCount s1 + (floatIndex - coordinateToFloatIndex s1 x)) s1.

(** ** Tick spacing *)

(** The minimum spacing of the specification, in bars:
    [ceil(max(totalBarSpace / 10, minLabelPixelWidth) / barSpace)]. *)
Definition minimumTickSpacing (s : Store) : Z :=
  Qceiling (Qmax (_totalBarSpace s / 10) (_tickTextWidth s) / _barSpace s).

(** [b] lies at least [n] indices to the right of [a]. *)
Definition apartBy (n : Z) (a b : TimeTick) : Prop := (dataIndex a + n <= dataIndex b)%Z.

(** What the merge loop maintains: the ticks kept so far and the ticks of
    the coarser list still to come are spaced by [n], each kept tick is [n]
    to the left of each tick to come, and no kept tick is to the right of
    [leftIndex]. *)
Definition mergeInvariant (n : Z) (prevRest tickList : list TimeTick)
    (leftIndex : option Z) : Prop :=
  StronglySorted (apartBy n) tickList
  /\ StronglySorted (apartBy n) prevRest
  /\ (forall a b, In a tickList -> In b prevRest -> apartBy n a b)
  /\ (forall a, In a tickList -> exists l, leftIndex = Some l /\ (dataIndex a <= l)%Z).

(** Thirty one-minute bars in a viewport 300 pixels wide. *)
Definition minuteBars : list KLineData :=
  map (fun k => exampleBar (60000 * Z.of_nat k) 1 1) (seq 0 30).

Definition minuteStore : Store :=
  performAll [SetTotalBarSpace 300; AddData (inr minuteBars) Init None]
    (newStore exampleFormat 100).

(** Sixty one-minute bars in a viewport 600 pixels wide: all of them are on
    screen, at bar space 10 and at any smaller one. *)
Definition hourBars : list KLineData :=
  map (fun k => exampleBar (60000 * Z.of_nat k) 1 1) (seq 0 60).

Definition hourStore : Store :=
  performAll [SetTotalBarSpace 600; AddData (inr hourBars) Init None]
    (newStore exampleFormat 100).

(** ** Example tasks *)

Definition maOnInit : IndicatorTasks.Task :=
  IndicatorTasks.mkTask "candle_pane"%string "MA"%string Init.

Definition maOnBackward : IndicatorTasks.Task :=
  IndicatorTasks.mkTask "candle_pane"%string "MA"%string Backward.

Definition volOnInit : IndicatorTasks.Task :=
  IndicatorTasks.mkTask "candle_pane"%string "VOL"%string Init.

Definition volOnBackward : IndicatorTasks.Task :=
  IndicatorTasks.mkTask "candle_pane"%string "VOL"%string Backward.

(** ** Further notions: scroll limits and load requests *)

(** The two minimum visible bar counts of [_adjustVisibleRange], after
    [Math.max(0, ...)]. *)
Definition leftMinVisibleBarCount (s : Store) : Q :=
  Qmax 0
    match _scrollLimitRole s with
    | Distance => (_totalBarSpace s - right (_maxOffsetDistance s)) / _barSpace s
    | BarCount => left (_minVisibleBarCount s)
    end.

Definition rightMinVisibleBarCount (s : Store) : Q :=
  Qmax 0
    match _scrollLimitRole s with
    | Distance => (_totalBarSpace s - left (_maxOffsetDistance s)) / _barSpace s
    | BarCount => right (_minVisibleBarCount s)
    end.

(** The two limits of the offset in [_adjustVisibleRange]. *)
Definition maxRightOffsetBarCount (s : Store) : Q :=
  _totalBarSpace s / _barSpace s - Qmin (leftMinVisibleBarCount s) (inject_Z (dataCount s)).

Definition minRightOffsetBarCount (s : Store) : Q :=
  - inject_Z (dataCount s) + Qmin (rightMinVisibleBarCount s) (inject_Z (dataCount s)).

(** The effects that a step adds to the trace. *)
Definition newEffects (before after : Store) : list Effect :=
  skipn (List.length (_effects before)) (_effects after).

(** The trace of [after] is the trace of [before] with effects appended. *)
Definition extends (before after : Store) : Prop :=
  exists new, _effects after = _effects before ++ new.

Definition isLoadMoreData (e : Effect) : bool :=
  match e with
  | LoadMoreData _ _ => true
  | _ => false
  end.

(** The load-more requests made so far. *)
Definition loadRequests (s : Store) : nat :=
  List.length (filter isLoadMoreData (_effects s)).

(** A page (or an initial list) handed to [addData]. *)
Definition isArrayLoad (m : Mutation) : bool :=
  match m with
  | AddData (inr _) _ _ => true
  | _ => false
  end.


(** The requests made, plus one when a request may be made ([_loading] is
    off). *)
Definition requestLedger (s : Store) : nat :=
  (loadRequests s + if _loading s then 0 else 1)%nat.

(** The centre of bar [dataIndex] on the axis, before
    [dataIndexToCoordinate] rounds it to a pixel. *)
Definition barCentre (s : Store) (dataIndex : Z) : Q :=
  _totalBarSpace s
  - (inject_Z (dataCount s) + _lastBarRightSideDiffBarCount s - inject_Z dataIndex - 0.5)
    * _barSpace s.

(** [crosshair ?? {}] at the head of [setCrosshair]. *)
Definition crosshairOrEmpty (crosshair : option Crosshair) : Crosshair :=
  match crosshair with Some c => c | None => emptyCrosshair end.

(** The real and the clamped data index that [setCrosshair] computes. *)
Definition crosshairIndices (s : Store) (cr : Crosshair) : Z * Z :=
  match x cr with
  | Some crx =>
      let realDataIndex := coordinateToDataIndex s crx in
      if (realDataIndex <? 0)%Z then (realDataIndex, 0%Z)
      else if (realDataIndex >? dataCount s - 1)%Z then (realDataIndex, (dataCount s - 1)%Z)
      else (realDataIndex, realDataIndex)
  | None => ((dataCount s - 1)%Z, (dataCount s - 1)%Z)
  end.

(** The entry that the loop of [_adjustVisibleRange] pushes for index [i]. *)
Definition visibleEntry (s : Store) (i : Z) : VisibleRangeData :=
  mkVisibleRangeData i (dataIndexToCoordinate s (inject_Z i)) (dataAt s i).

(** What the classification of the time ticks reads and writes. *)
Definition tickInputs (s : Store) :=
  (_dataList s, _dataListMinus1 s, _timeTicks s, _dateTimeFormat s).

(** The tick map is what [_classifyTimeTicks] builds from the whole data
    list, starting from an empty map. *)
Definition ticksRebuilt (s : Store) : Prop :=
  _timeTicks s = classifyLoop (_dateTimeFormat s) (_dataList s) 0 0 None [].

(** Nothing is stored under the key [-1], and the tick map is the
    classification of the data list. *)
Definition ticksKept (s : Store) : Prop := _dataListMinus1 s = None /\ ticksRebuilt s.

(** A mutation that neither names a time zone, which can replace the
    formatter, nor upserts a bar with time stamp 0, which an empty list
    stores under the key [-1]. *)
Definition keepsTickInputs (m : Mutation) : Prop :=
  match m with
  | SetOptions (Some options) _ => timezone options = None
  | AddData (inl bar) _ _ => timestamp bar <> 0%Z
  | _ => True
  end.

(** A formatter half an hour ahead of [exampleFormat]. *)
Definition halfHourAhead (t : Z) : DateTime := exampleFormat (t + 1800000).

(** The tick of bar [i] of a list: its weight compares the date of the bar
    with the date of the bar before it. *)
Definition tickOfBar (format : Z -> DateTime) (l : list KLineData) (i : Z)
    (bar : KLineData) : TimeTick :=
  mkTimeTick
    (tickWeight (format (timestamp bar))
       (option_map (fun p => format (timestamp p)) (at_index l (i - 1))))
    i (format (timestamp bar)) (timestamp bar).

Definition indexBefore (a b : TimeTick) : Prop := (dataIndex a < dataIndex b)%Z.

(** A tick map holds, for every bar of the list, the tick of the bar in the
    bucket of its weight, nothing else, and every bucket in the order of
    the bars. *)
Definition classified (format : Z -> DateTime) (l : list KLineData)
    (ticks : TimeTickMap) : Prop :=
  (forall i bar, at_index l i = Some bar ->
     exists bucket,
       Map_get ticks (weight (tickOfBar format l i bar)) = Some bucket
       /\ In (tickOfBar format l i bar) bucket)
  /\ (forall w bucket tick, Map_get ticks w = Some bucket -> In tick bucket ->
        weight tick = w
        /\ exists bar, at_index l (dataIndex tick) = Some bar
                       /\ tick = tickOfBar format l (dataIndex tick) bar)
  /\ (forall w bucket, Map_get ticks w = Some bucket -> StronglySorted indexBefore bucket).

(** The calls that [setCrosshair] makes on the chart. *)
Definition isCrosshairCall (e : Effect) : bool :=
  match e with
  | ChartCrosshairChange _ | ChartUpdatePane => true
  | _ => false
  end.

Definition crosshairCalls (s : Store) : nat :=
  List.length (filter isCrosshairCall (_effects s)).

Definition isSetCrosshair (m : Mutation) : bool :=
  match m with
  | SetCrosshair _ _ => true
  | _ => false
  end.

(** ** The indicators of the panes *)

(** [_indicators], [addIndicator], [removeIndicator] and the queries on
    them, with the indicators as the records the registry reads (the store
    above keeps their names only) and the calls on the task scheduler as a
    trace. *)
Module IndicatorRegistry.

(** What the registry reads of an [IndicatorImp]. *)
Record Indicator := mkIndicator {
  name : string;
  zLevel : Z
}.

(** [Map<string, IndicatorImp[]>], in insertion order. *)
Definition IndicatorMap := list (string * list Indicator).

Fixpoint Map_get (m : IndicatorMap) (key : string) : option (list Indicator) :=
  match m with
  | [] => None
  | (k, v) :: rest => if String.eqb k key then Some v else Map_get rest key
  end.

Fixpoint Map_set (m : IndicatorMap) (key : string) (value : list Indicator)
    : IndicatorMap :=
  match m with
  | [] => [(key, value)]
  | (k, v) :: rest =>
      if String.eqb k key then (k, value) :: rest else (k, v) :: Map_set rest key value
  end.

Fixpoint Map_delete (m : IndicatorMap) (key : string) : IndicatorMap :=
  match m with
  | [] => []
  | (k, v) :: rest =>
      if String.eqb k key then rest else (k, v) :: Map_delete rest key
  end.

Definition Map_has (m : IndicatorMap) (key : string) : bool :=
  match Map_get m key with Some _ => true | None => false end.

(** The calls on [_taskScheduler]. *)
Inductive SchedulerCall :=
| AddTask (paneId indicatorName : string) (type : LoadDataType)
| RemoveTask (paneId indicatorName : string).

Record Registry := mkRegistry {
  _indicators : IndicatorMap;
  _taskScheduler : list SchedulerCall
}.

Definition emptyRegistry : Registry := mkRegistry [] [].

(** [IndicatorFilter]: both fields are optional. *)
Record IndicatorFilter := mkIndicatorFilter {
  filterPaneId : option string;
  filterName : option string
}.

Definition getIndicatorsByPaneId (reg : Registry) (paneId : string) : list Indicator :=
  match Map_get (_indicators reg) paneId with Some l => l | None => [] end.

Definition hasIndicators (reg : Registry) (paneId : string) : bool :=
  Map_has (_indicators reg) paneId.

(** [!isValid(name) || indicator.name === name] *)
Definition nameMatches (filterName : option string) (indicator : Indicator) : bool :=
  match filterName with
  | None => true
  | Some n => String.eqb (name indicator) n
  end.

(** The local [find] of [getIndicatorsByFilter]. *)
Definition find (indicators : list Indicator) (filterName : option string)
    : list Indicator :=
  filter (nameMatches filterName) indicators.

(** With a name and no pane id, the source fills a map declared in the
    inner block and returns the outer one, which is empty. *)
Definition getIndicatorsByFilter (reg : Registry) (filter : IndicatorFilter)
    : IndicatorMap :=
  match filterPaneId filter with
  | Some paneId => [(paneId, find (getIndicatorsByPaneId reg paneId) (filterName filter))]
  | None =>
      match filterName filter with
      | Some _ => []
      | None => map (fun '(paneId, indicators) => (paneId, find indicators None))
                  (_indicators reg)
      end
  end.

(** [findIndex] by name followed by [splice(index, 1)]: [None] when no
    indicator of the list has the name. *)
Fixpoint spliceByName (n : string) (l : list Indicator) : option (list Indicator) :=
  match l with
  | [] => None
  | h :: t =>
      if String.eqb (name h) n then Some t
      else option_map (cons h) (spliceByName n t)
  end.

(** The inner [forEach] of [removeIndicator], on the array of the pane. *)
Definition removeEach (paneId : string) (indicators : list Indicator)
    (acc : list Indicator * list SchedulerCall * bool)
    : list Indicator * list SchedulerCall * bool :=
  fold_left
    (fun '(paneIndicators, calls, removed) indicator =>
       match spliceByName (name indicator) paneIndicators with
       | Some rest => (rest, calls ++ [RemoveTask paneId (name indicator)], true)
       | None => (paneIndicators, calls, removed)
       end)
    indicators acc.

(** One turn of the outer [forEach]: the array of the pane is the one the
    map holds (it is spliced in place), or a fresh empty one when the map
    has no such pane; the pane is deleted when its array is left empty. *)
Definition removeFromPane (acc : Registry * bool)
    (entry : string * list Indicator) : Registry * bool :=
  let '(reg, removed) := acc in
  let '(paneId, indicators) := entry in
  let '(paneIndicators, calls, removed) :=
    removeEach paneId indicators
      (getIndicatorsByPaneId reg paneId, _taskScheduler reg, removed) in
  let m :=
    match paneIndicators with
    | [] => Map_delete (_indicators reg) paneId
    | _ => Map_set (_indicators reg) paneId paneIndicators
    end in
  (mkRegistry m calls, removed).

Definition removeIndicator (filter : IndicatorFilter) (reg : Registry)
    : bool * Registry :=
  let filterMap := getIndicatorsByFilter reg filter in
  let '(reg, removed) := fold_left removeFromPane filterMap (reg, false) in
  (removed, reg).

(** [sort((i1, i2) => i1.zLevel - i2.zLevel)]: ascending and stable. *)
Fixpoint insertByZLevel (i : Indicator) (l : list Indicator) : list Indicator :=
  match l with
  | [] => [i]
  | h :: t => if (zLevel i <? zLevel h)%Z then i :: l else h :: insertByZLevel i t
  end.

Definition sortByZLevel (l : list Indicator) : list Indicator :=
  fold_left (fun sorted i => insertByZLevel i sorted) l [].

(** [_sortIndicators(paneId)] with a pane id. *)
Definition _sortIndicators (paneId : string) (m : IndicatorMap) : IndicatorMap :=
  match Map_get m paneId with
  | Some l => Map_set m paneId (sortByZLevel l)
  | None => m
  end.

(** [addIndicator]: [createName] is [create.name]; [indicator] is the
    instance that [new IndicatorClazz()], the precision and
    [override(create)] leave. *)
Definition addIndicator (createName : string) (indicator : Indicator)
    (paneId : string) (isStack : bool) (reg : Registry) : bool * Registry :=
  let paneIndicators := Map_get (_indicators reg) paneId in
  if match paneIndicators with
     | Some l => existsb (fun i => String.eqb (name i) createName) l
     | None => false
     end
  then (false, reg)
  else
    let paneIndicators := match paneIndicators with Some l => l | None => [] end in
    let '(reg, paneIndicators) :=
      if negb isStack
      then (snd (removeIndicator (mkIndicatorFilter (Some paneId) None) reg), [])
      else (reg, paneIndicators) in
    let paneIndicators := paneIndicators ++ [indicator] in
    let m := Map_set (_indicators reg) paneId paneIndicators in
    let m := _sortIndicators paneId m in
    (true,
     mkRegistry m (_taskScheduler reg ++ [AddTask paneId (name indicator) Init])).

(** The calls of a client on the registry. *)
Inductive Call :=
| AddIndicator (createName : string) (indicator : Indicator) (paneId : string)
    (isStack : bool)
| RemoveIndicator (filter : IndicatorFilter).

Definition perform (reg : Registry) (c : Call) : Registry :=
  match c with
  | AddIndicator createName indicator paneId isStack =>
      snd (addIndicator createName indicator paneId isStack reg)
  | RemoveIndicator filter => snd (removeIndicator filter reg)
  end.

Definition performAll (cs : list Call) (reg : Registry) : Registry :=
  fold_left perform cs reg.

(** The instance carries the name it was created under. *)
Definition namedAsCreated (c : Call) : Prop :=
  match c with
  | AddIndicator createName indicator _ _ => name indicator = createName
  | RemoveIndicator _ => True
  end.

Definition zLevelOrder (a b : Indicator) : Prop := (zLevel a <= zLevel b)%Z.

(** The list of a pane: not empty, no two indicators of the same name, in
    the order of their z levels. *)
Definition paneOk (l : list Indicator) : Prop :=
  l <> [] /\ NoDup (map name l) /\ StronglySorted zLevelOrder l.

(** Every pane of the map has such a list; no pane is listed twice. *)
Definition wellKept (reg : Registry) : Prop :=
  NoDup (map fst (_indicators reg))
  /\ forall paneId indicators, In (paneId, indicators) (_indicators reg) -> paneOk indicators.

(** An indicator has the name of one of a list. *)
Definition namedIn (todo : list Indicator) (i : Indicator) : bool :=
  existsb (fun j => String.eqb (name i) (name j)) todo.

End IndicatorRegistry.

(** ** The layout of the indicator tooltip *)

(** The measuring pass of [IndicatorTooltipView]: [updateRectSize],
    [measurePositionFeatures], [measurePositionLegends],
    [drawStandardTooltipRect] and [classifyTooltipFeatures].  The canvas
    enters through [measureText], the width that
    [ctx.measureText(text).width] returns under a font. *)
Module TooltipLayout.

(** [createFont(size, weight, family)], as the triple it is made of. *)
Record Font := createFont {
  fontSize : Q;
  fontWeight : string;
  fontFamily : string
}.

Record Coordinate := mkCoordinate {
  x : Q;
  y : Q
}.

Record RectMeasured := mkRectMeasured {
  rect_x : Q;
  rect_w : Q;
  rect_h : Q
}.

Inductive TooltipFeatureType := IconFont | Path.

Inductive TooltipFeaturePosition := Left | Middle | Right.

(** A [TooltipFeatureStyle], its optional numbers already defaulted to 0
    as the destructuring of the source does. *)
Record TooltipFeatureStyle := mkTooltipFeatureStyle {
  position : TooltipFeaturePosition;
  marginLeft : Q;
  marginTop : Q;
  marginRight : Q;
  marginBottom : Q;
  paddingLeft : Q;
  paddingTop : Q;
  paddingRight : Q;
  paddingBottom : Q;
  size : Q;
  type : TooltipFeatureType;
  iconFontContent : string;
  iconFontFamily : string
}.

(** A [TooltipLegend]: the texts of its title and of its value. *)
Record TooltipLegend := mkTooltipLegend {
  titleText : string;
  valueText : string
}.

Record TooltipTextStyle := mkTooltipTextStyle {
  textMarginLeft : Q;
  textMarginTop : Q;
  textMarginRight : Q;
  textMarginBottom : Q;
  textSize : Q;
  textFamily : string;
  textWeight : string
}.

(** The rectangle that is painted behind the tooltip. *)
Record RectFigure := mkRectFigure {
  figure_x : Q;
  figure_y : Q;
  figure_width : Q;
  figure_height : Q
}.

Definition updateRectSize (rectMeasured : RectMeasured) (maxWidth width height : Q)
    : RectMeasured :=
  let w := Qmax (rect_w rectMeasured) (rect_x rectMeasured + width) in
  let h := Qmax (rect_h rectMeasured) height in
  if Qlt_le_dec maxWidth w
  then mkRectMeasured width (w - width) (h + height)
  else mkRectMeasured (rect_x rectMeasured + width) w h.

Section Measure.

Variable measureText : Font -> string -> Q.

Definition featureContentWidth (feature : TooltipFeatureStyle) : Q :=
  match type feature with
  | IconFont =>
      measureText (createFont (size feature) "normal" (iconFontFamily feature))
        (iconFontContent feature)
  | Path => size feature
  end.

Definition featureWidth (feature : TooltipFeatureStyle) : Q :=
  marginLeft feature + paddingLeft feature + featureContentWidth feature
  + paddingRight feature + marginRight feature.

Definition featureHeight (feature : TooltipFeatureStyle) : Q :=
  marginTop feature + paddingTop feature + size feature
  + paddingBottom feature + marginBottom feature.

(** [measurePositionFeatures]: the positions, and [rectMeasured] as the
    calls of [updateRectSize] leave it. *)
Definition measurePositionFeatures (coordinate : Coordinate)
    (rectMeasured : RectMeasured) (maxWidth : Q)
    (features : list TooltipFeatureStyle) : list Coordinate * RectMeasured :=
  fold_left
    (fun '(measureResult, rectMeasured) feature =>
       let elmWith := featureWidth feature in
       let elmHeight := featureHeight feature in
       let rectMeasured := updateRectSize rectMeasured maxWidth elmWith elmHeight in
       (measureResult
        ++ [mkCoordinate
              (x coordinate + rect_x rectMeasured - elmWith + marginLeft feature)
              (y coordinate + rect_h rectMeasured - elmHeight + marginTop feature)],
        rectMeasured))
    features ([], rectMeasured).

Definition legendFont (styles : TooltipTextStyle) : Font :=
  createFont (textSize styles) (textWeight styles) (textFamily styles).

Definition legendWidth (styles : TooltipTextStyle) (data : TooltipLegend) : Q :=
  textMarginLeft styles
  + (measureText (legendFont styles) (titleText data)
     + measureText (legendFont styles) (valueText data))
  + textMarginRight styles.

Definition legendHeight (styles : TooltipTextStyle) : Q :=
  textMarginTop styles + textSize styles + textMarginBottom styles.

(** [measurePositionLegends]: for each legend the position of its title
    ([{ x: 0, y: 0 }] for an empty title) and of its value. *)
Definition measurePositionLegends (coordinate : Coordinate)
    (rectMeasured : RectMeasured) (maxWidth : Q) (legends : list TooltipLegend)
    (styles : TooltipTextStyle) : list (Coordinate * Coordinate) * RectMeasured :=
  fold_left
    (fun '(measureResult, rectMeasured) data =>
       let titleTextWidth := measureText (legendFont styles) (titleText data) in
       let elmWith := legendWidth styles data in
       let h := legendHeight styles in
       let rectMeasured := updateRectSize rectMeasured maxWidth elmWith h in
       let x := x coordinate + rect_x rectMeasured - elmWith + textMarginLeft styles in
       let y := y coordinate + rect_h rectMeasured - h + textMarginTop styles in
       (measureResult
        ++ [(if (0 <? String.length (titleText data))%nat
             then mkCoordinate x y else mkCoordinate 0 0,
             mkCoordinate (x + titleTextWidth) y)],
        rectMeasured))
    legends ([], rectMeasured).

(** The five parts of [MeasureCoordinate], in the order of the source:
    left features, name, middle features, legends, right features. *)
Record MeasureCoordinate := mkMeasureCoordinate {
  leftPositions : list Coordinate;
  namePositions : list (Coordinate * Coordinate);
  middlePositions : list Coordinate;
  legendPositions : list (Coordinate * Coordinate);
  rightPositions : list Coordinate
}.

(** [drawStandardTooltipRect]: the measured positions, the height of the
    block, and the rectangle it paints when [tooltipOverlayOpacity] is
    defined and positive. *)
Definition drawStandardTooltipRect (leftFeatures : list TooltipFeatureStyle)
    (name calcParamsText : string) (middleFeatures : list TooltipFeatureStyle)
    (legends : list TooltipLegend) (rightFeatures : list TooltipFeatureStyle)
    (coordinate : Coordinate) (maxWidth : Q) (tooltipTextStyles : TooltipTextStyle)
    (tooltipOverlayOpacity : option Q)
    : MeasureCoordinate * Q * option RectFigure :=
  let rectMeasured := mkRectMeasured 0 0 0 in
  let '(part0, rectMeasured) :=
    measurePositionFeatures coordinate rectMeasured maxWidth leftFeatures in
  let '(part1, rectMeasured) :=
    if (0 <? String.length name)%nat
    then measurePositionLegends coordinate rectMeasured maxWidth
           [mkTooltipLegend "" (name ++ calcParamsText)] tooltipTextStyles
    else ([], rectMeasured) in
  let '(part2, rectMeasured) :=
    measurePositionFeatures coordinate rectMeasured maxWidth middleFeatures in
  let '(part3, rectMeasured) :=
    if (0 <? List.length legends)%nat
    then measurePositionLegends coordinate rectMeasured maxWidth legends
           tooltipTextStyles
    else ([], rectMeasured) in
  let '(part4, rectMeasured) :=
    measurePositionFeatures coordinate rectMeasured maxWidth rightFeatures in
  let figure :=
    match tooltipOverlayOpacity with
    | Some opacity =>
        if Qlt_le_dec 0 opacity
        then Some (mkRectFigure (x coordinate) (y coordinate)
                     (rect_w rectMeasured) (rect_h rectMeasured))
        else None
    | None => None
    end in
  (mkMeasureCoordinate part0 part1 part2 part3 part4, rect_h rectMeasured, figure).

End Measure.

Definition classifyTooltipFeatures (features : list TooltipFeatureStyle)
    : list TooltipFeatureStyle * list TooltipFeatureStyle * list TooltipFeatureStyle :=
  fold_left
    (fun '(leftFeatures, middleFeatures, rightFeatures) feature =>
       match position feature with
       | Left => (leftFeatures ++ [feature], middleFeatures, rightFeatures)
       | Middle => (leftFeatures, middleFeatures ++ [feature], rightFeatures)
       | Right => (leftFeatures, middleFeatures, rightFeatures ++ [feature])
       end)
    features ([], [], []).

(** The feature is placed at the position. *)
Definition placedAt (p : TooltipFeaturePosition) (feature : TooltipFeatureStyle) : bool :=
  match position feature, p with
  | Left, Left | Middle, Middle | Right, Right => true
  | _, _ => false
  end.

(** The box that an element takes: its position without the left and top
    margins, its width and its height. *)
Record Box := mkBox {
  box_left : Q;
  box_top : Q;
  box_width : Q;
  box_height : Q
}.

(** A box lies within the block of a tooltip: below its top, above its
    measured height, right of its left edge, and left of [maxWidth]
    unless the box alone is wider than that. *)
Definition withinBlock (coordinate : Coordinate) (maxWidth height : Q) (b : Box) : Prop :=
  x coordinate <= box_left b
  /\ box_left b + box_width b <= x coordinate + Qmax maxWidth (box_width b)
  /\ y coordinate <= box_top b
  /\ box_top b + box_height b <= y coordinate + height.

Definition featureBox (measureText : Font -> string -> Q)
    (feature : TooltipFeatureStyle) (position : Coordinate) : Box :=
  mkBox (x position - marginLeft feature) (y position - marginTop feature)
    (featureWidth measureText feature) (featureHeight feature).

(** The box of a legend, from the position of its value. *)
Definition legendBox (measureText : Font -> string -> Q) (styles : TooltipTextStyle)
    (data : TooltipLegend) (position : Coordinate * Coordinate) : Box :=
  mkBox
    (x (snd position) - measureText (legendFont styles) (titleText data)
     - textMarginLeft styles)
    (y (snd position) - textMarginTop styles)
    (legendWidth measureText styles data) (legendHeight styles).

(** The sizes of a feature are not negative. *)
Definition featureSized (feature : TooltipFeatureStyle) : Prop :=
  0 <= marginLeft feature /\ 0 <= marginTop feature /\ 0 <= marginRight feature
  /\ 0 <= marginBottom feature /\ 0 <= paddingLeft feature /\ 0 <= paddingTop feature
  /\ 0 <= paddingRight feature /\ 0 <= paddingBottom feature /\ 0 <= size feature.

Definition textSized (styles : TooltipTextStyle) : Prop :=
  0 <= textMarginLeft styles /\ 0 <= textMarginTop styles
  /\ 0 <= textMarginRight styles /\ 0 <= textMarginBottom styles
  /\ 0 <= textSize styles.

(** ** Example data *)

(** Six pixels for each character, whatever the font. *)
Definition exampleMeasureText (font : Font) (text : string) : Q :=
  inject_Z (Z.of_nat (String.length text)) * 6.

(** An icon of 12 pixels with margins of 2 pixels. *)
Definition exampleFeature (position : TooltipFeaturePosition) : TooltipFeatureStyle :=
  mkTooltipFeatureStyle position 2 2 2 2 0 0 0 0 12 Path "" "".

Definition exampleTextStyle : TooltipTextStyle :=
  mkTooltipTextStyle 8 4 0 4 12 "Helvetica Neue" "normal".

End TooltipLayout.

(** * Verification *)

(** ** Frame properties: what the internal steps leave alone *)

Ltac break_if :=
  match goal with
  | |- context [if ?c then _ else _] => destruct c
  | |- context [match ?c with Some _ => _ | None => _ end] => destruct c
  end.

Lemma view_fields (a b : Store) :
  view a = view b ->
  _dataList a = _dataList b /\ _barSpace a = _barSpace b
  /\ _totalBarSpace a = _totalBarSpace b
  /\ _lastBarRightSideDiffBarCount a = _lastBarRightSideDiffBarCount b
  /\ _visibleRange a = _visibleRange b /\ _loadDataMore a = _loadDataMore b
  /\ _scrollLimitRole a = _scrollLimitRole b
  /\ _minVisibleBarCount a = _minVisibleBarCount b
  /\ _maxOffsetDistance a = _maxOffsetDistance b.
Proof.
  unfold view. intro H. injection H. intros. repeat split; assumption.
Qed.

Lemma dataAt_view (a b : Store) (i : Z) : view a = view b -> dataAt a i = dataAt b i.
Proof.
  unfold view. intro H. injection H. intros. unfold dataAt.
  destruct (i =? -1)%Z; congruence.
Qed.

Lemma view_emit (e : Effect) (s : Store) : view (emit e s) = view s.
Proof. reflexivity. Qed.

(** The two cases of [this._dataList[dataCount - 1] = data]. *)
Lemma assignLastData_cases (data : KLineData) (s : Store) :
  (_dataList s = [] /\ assignLastData data s = set_dataListMinus1 (Some data) s)
  \/ (_dataList s <> []
      /\ assignLastData data s
         = set_dataList (replace_at (_dataList s) (List.length (_dataList s) - 1) data) s).
Proof.
  unfold assignLastData, dataCount. destruct (_dataList s) as [|a l] eqn:E.
  - left. split; reflexivity.
  - right. split; [discriminate|].
    destruct (Z.eqb_spec (Z.of_nat (List.length (a :: l))) 0) as [H|_]; [discriminate H|].
    replace (Z.to_nat (Z.of_nat (List.length (a :: l)) - 1))
      with (List.length (a :: l) - 1)%nat by lia.
    reflexivity.
Qed.

Lemma geometryOk_assignLastData (data : KLineData) (s : Store) :
  geometryOk s -> geometryOk (assignLastData data s).
Proof.
  intro G. destruct (assignLastData_cases data s) as [[_ ->]|[_ ->]]; exact G.
Qed.

Lemma barSpace_assignLastData (data : KLineData) (s : Store) :
  _barSpace (assignLastData data s) = _barSpace s.
Proof. destruct (assignLastData_cases data s) as [[_ ->]|[_ ->]]; reflexivity. Qed.

Lemma effects_assignLastData (data : KLineData) (s : Store) :
  _effects (assignLastData data s) = _effects s
  /\ _loading (assignLastData data s) = _loading s.
Proof. destruct (assignLastData_cases data s) as [[_ ->]|[_ ->]]; split; reflexivity. Qed.

(** Reading the list where it has elements does not meet the property
    [-1]. *)
Lemma dataAt_nonneg (s : Store) (i : Z) :
  (0 <= i)%Z -> dataAt s i = at_index (_dataList s) i.
Proof.
  intro H. unfold dataAt. destruct (Z.eqb_spec i (-1)); [lia | reflexivity].
Qed.

Lemma dataAt_last (s : Store) :
  _dataList s <> [] -> dataAt s (dataCount s - 1) = at_index (_dataList s) (dataCount s - 1).
Proof.
  intro H. apply dataAt_nonneg. unfold dataCount.
  destruct (_dataList s); [contradiction | cbn [List.length]; lia].
Qed.

Lemma dataAt_without_property (s : Store) (i : Z) :
  _dataListMinus1 s = None -> dataAt s i = at_index (_dataList s) i.
Proof.
  intro H. unfold dataAt. destruct (Z.eqb_spec i (-1)) as [->|]; [exact H | reflexivity].
Qed.

Lemma view_requestMoreData (s : Store) : view (requestMoreData s) = view s.
Proof. unfold requestMoreData. repeat (break_if; cbn); reflexivity. Qed.

Lemma view_adjustVisibleRangeTimeTickList (s : Store) :
  view (_adjustVisibleRangeTimeTickList s) = view s.
Proof. reflexivity. Qed.

Lemma view_setCrosshair (c : option Crosshair) (b : bool) (s : Store) :
  view (setCrosshair c b s) = view s.
Proof.
  unfold setCrosshair.
  match goal with |- context [match ?p with (a, b) => _ end] => destruct p as [rdi di] end.
  repeat (break_if; cbn); reflexivity.
Qed.

(** [_adjustVisibleRange] writes the clamped offset and the range derived
    from it, and nothing else that decides the viewport. *)
Lemma view_adjustVisibleRange (s : Store) :
  let s1 :=
    set_lastBarRightSideDiffBarCount (clampedLastBarRightSideDiffBarCount s) s in
  view (_adjustVisibleRange s) = view (set_visibleRange (derivedVisibleRange s1) s1).
Proof.
  unfold _adjustVisibleRange.
  match goal with |- context [fold_left ?f ?l ?a] => destruct (fold_left f l a) as [dl hl] end.
  cbv zeta. rewrite view_requestMoreData. break_if; reflexivity.
Qed.

Lemma view_submitIndicators (type : LoadDataType) (l : list (string * list string))
    (s : Store) :
  view
    (fold_left
       (fun s '(pane, indicators) =>
          fold_left (fun s name => emit (AddIndicatorCalcTask pane name type) s)
            indicators s) l s)
  = view s.
Proof.
  revert s. induction l as [|[pane names] l IH]; intro s; cbn; [reflexivity|].
  rewrite IH. clear IH. revert s.
  induction names as [|n names IH]; intro s; cbn; [reflexivity|].
  rewrite IH. reflexivity.
Qed.

Lemma view_afterDataChange (type : LoadDataType) (s : Store) :
  view (afterDataChange type s) = view (_adjustVisibleRange s).
Proof.
  unfold afterDataChange. rewrite view_emit, view_submitIndicators, view_setCrosshair.
  reflexivity.
Qed.

Lemma dataCount_view (a b : Store) : view a = view b -> dataCount a = dataCount b.
Proof. intro H. apply view_fields in H. unfold dataCount. destruct H as [-> _]. reflexivity. Qed.

(** ** Rounding *)

Lemma Qfloor_lb (z : Z) (q : Q) : inject_Z z <= q -> (z <= Qfloor q)%Z.
Proof. intro H. rewrite <- (Qfloor_Z z). apply Qfloor_resp_le, H. Qed.

Lemma Qfloor_ub (z : Z) (q : Q) : q < inject_Z z -> (Qfloor q < z)%Z.
Proof.
  intro H. rewrite Zlt_Qlt. eapply Qle_lt_trans; [apply Qfloor_le | exact H].
Qed.

Lemma Qfloor_unique (z : Z) (q : Q) :
  inject_Z z <= q -> q < inject_Z z + 1 -> Qfloor q = z.
Proof.
  intros H1 H2. apply Qfloor_lb in H1.
  assert (Qfloor q < z + 1)%Z.
  { apply Qfloor_ub. rewrite inject_Z_plus. exact H2. }
  lia.
Qed.

Lemma Qceiling_ub (z : Z) (q : Q) : q <= inject_Z z -> (Qceiling q <= z)%Z.
Proof. intro H. rewrite <- (Qceiling_Z z). apply Qceiling_resp_le, H. Qed.

Lemma Qceiling_lb (z : Z) (q : Q) : inject_Z z < q -> (z < Qceiling q)%Z.
Proof.
  intro H. rewrite Zlt_Qlt. eapply Qlt_le_trans; [exact H | apply Qle_ceiling].
Qed.

Lemma Qceiling_unique (z : Z) (q : Q) :
  inject_Z z - 1 < q -> q <= inject_Z z -> Qceiling q = z.
Proof.
  intros H1 H2. apply Qceiling_ub in H2.
  assert (z - 1 < Qceiling q)%Z.
  { apply Qceiling_lb. unfold Zminus. rewrite inject_Z_plus. exact H1. }
  lia.
Qed.

Lemma Qdiv_nonneg (a b : Q) : 0 <= a -> 0 < b -> 0 <= a / b.
Proof.
  intros Ha Hb. unfold Qdiv. apply Qmult_le_0_compat; [exact Ha|].
  apply Qlt_le_weak, Qinv_lt_0_compat, Hb.
Qed.

Lemma dataCount_nonneg (s : Store) : 0 <= inject_Z (dataCount s).
Proof. unfold dataCount. change 0 with (inject_Z 0). rewrite <- Zle_Qle. lia. Qed.

(** ** The visible range stays within the data (C1) *)

(** After the clamps the offset is at least [-dataCount]. *)
Lemma clamped_lower_bound (s : Store) :
  - inject_Z (dataCount s) <= clampedLastBarRightSideDiffBarCount s.
Proof.
  unfold clampedLastBarRightSideDiffBarCount. cbv zeta.
  pose proof (dataCount_nonneg s) as Hn.
  set (n := inject_Z (dataCount s)) in *.
  assert (Hmin : forall e, 0 <= Qmin (Qmax 0 e) n).
  { intro e. apply Q.min_glb; [apply Q.le_max_l | exact Hn]. }
  repeat match goal with
         | |- context [Qmin (Qmax 0 ?e) n] =>
             pose proof (Hmin e); set (Qmin (Qmax 0 e) n) in *
         end.
  destruct (Qlt_le_dec _ _) as [H1|H1];
    destruct (Qlt_le_dec _ _) as [H2|H2]; lra.
Qed.

Lemma derivedVisibleRange_within (s : Store) :
  0 < _barSpace s -> 0 <= _totalBarSpace s ->
  - inject_Z (dataCount s) <= _lastBarRightSideDiffBarCount s ->
  let r := derivedVisibleRange s in
  (0 <= from r /\ from r <= to r /\ to r <= dataCount s)%Z.
Proof.
  intros Hb Ht Hd. unfold derivedVisibleRange. cbv zeta.
  pose proof (Qdiv_nonneg _ _ Ht Hb) as Hv.
  set (v := _totalBarSpace s / _barSpace s) in *.
  assert (Hn : (0 <= dataCount s)%Z) by (unfold dataCount; lia).
  set (n := dataCount s) in *.
  set (d := _lastBarRightSideDiffBarCount s) in *.
  assert (Hto : (1 <= Math_round (d + inject_Z n + 0.5))%Z).
  { unfold Math_round. apply Qfloor_lb. change (inject_Z 1) with 1. lra. }
  set (t0 := Math_round (d + inject_Z n + 0.5)) in *.
  set (t := if (t0 >? n)%Z then n else t0).
  assert (Ht' : (0 <= t <= n)%Z).
  { unfold t. destruct (Z.gtb_spec t0 n); lia. }
  assert (Hf : (Math_round (inject_Z t - v) - 1 <= t - 1)%Z).
  { unfold Math_round.
    assert (Qfloor (inject_Z t - v + (1 # 2)) < t + 1)%Z; [|lia].
    apply Qfloor_ub. rewrite inject_Z_plus. change (inject_Z 1) with 1. lra. }
  cbn [from to].
  destruct (Z.ltb_spec (Math_round (inject_Z t - v) - 1) 0); lia.
Qed.

Lemma adjustVisibleRange_within (s : Store) :
  0 < _barSpace s -> 0 <= _totalBarSpace s -> rangeWithinData (_adjustVisibleRange s).
Proof.
  intros Hb Ht. unfold rangeWithinData.
  pose proof (view_adjustVisibleRange s) as V. cbv zeta in V.
  rewrite (dataCount_view _ _ V).
  apply view_fields in V. destruct V as (_ & _ & _ & _ & -> & _).
  cbn [_visibleRange set_visibleRange].
  set (s1 := set_lastBarRightSideDiffBarCount (clampedLastBarRightSideDiffBarCount s) s).
  change (dataCount (set_visibleRange (derivedVisibleRange s1) s1)) with (dataCount s1).
  apply (derivedVisibleRange_within s1); cbn; try assumption.
  exact (clamped_lower_bound s).
Qed.

Lemma wellFormed_view (a b : Store) : view a = view b -> wellFormed b -> wellFormed a.
Proof.
  intros V. unfold wellFormed, geometryOk, rangeWithinData.
  rewrite (dataCount_view _ _ V). apply view_fields in V.
  destruct V as (_ & -> & -> & _ & -> & _). tauto.
Qed.

Lemma wellFormed_adjustVisibleRange (s : Store) :
  geometryOk s -> wellFormed (_adjustVisibleRange s).
Proof.
  intros (Hb1 & Hb2 & Ht). split.
  - pose proof (view_adjustVisibleRange s) as V. cbv zeta in V.
    apply view_fields in V. destruct V as (_ & V1 & V2 & _).
    unfold geometryOk. rewrite V1, V2. cbn. auto.
  - apply adjustVisibleRange_within; [lra | exact Ht].
Qed.

Lemma wellFormed_afterDataChange (type : LoadDataType) (s : Store) :
  geometryOk s -> wellFormed (afterDataChange type s).
Proof.
  intro G. eapply wellFormed_view; [apply view_afterDataChange|].
  apply wellFormed_adjustVisibleRange, G.
Qed.

Lemma wellFormed_refresh (s : Store) :
  geometryOk s ->
  wellFormed (emit ChartLayout (setCrosshair (Some (_crosshair (_adjustVisibleRange s))) true
                                  (_adjustVisibleRange s))).
Proof.
  intro G. eapply wellFormed_view.
  - rewrite view_emit, view_setCrosshair. reflexivity.
  - apply wellFormed_adjustVisibleRange, G.
Qed.

Lemma wellFormed_addData data type more (s : Store) :
  wellFormed s -> wellFormed (addData data type more s).
Proof.
  intros W. pose proof W as (G & R). unfold addData.
  destruct data as [bar|data].
  - destruct (_ >? _)%Z.
    + destruct (Qlt_le_dec _ _); apply wellFormed_afterDataChange; exact G.
    + destruct (_ =? _)%Z; [|exact W].
      apply wellFormed_afterDataChange, geometryOk_assignLastData, G.
  - destruct type; cbv zeta.
    + apply wellFormed_afterDataChange. exact G.
    + destruct (_ >? _)%Z eqn:E.
      * apply wellFormed_afterDataChange. exact G.
      * assert (data = []) as -> by (destruct data; [reflexivity | cbn in E; lia]).
        split; [exact G|]. unfold rangeWithinData, dataCount in *. cbn in *. exact R.
    + destruct (_ >? _)%Z eqn:E.
      * apply wellFormed_afterDataChange. exact G.
      * assert (data = []) as -> by (destruct data; [reflexivity | cbn in E; lia]).
        split; [exact G|]. unfold rangeWithinData, dataCount in *. cbn in *.
        rewrite app_nil_r. exact R.
Qed.

Lemma wellFormed_setBarSpace barSpace (f : option (Store -> Store)) (s : Store) :
  (forall g t, f = Some g -> _barSpace (g t) = _barSpace t
                            /\ _totalBarSpace (g t) = _totalBarSpace t) ->
  wellFormed s -> wellFormed (setBarSpace barSpace f s).
Proof.
  intros Hf W. unfold setBarSpace.
  destruct (Qlt_le_dec _ _) as [|H1]; [exact W|].
  destruct (Qlt_le_dec _ _) as [|H2]; [exact W|].
  destruct (Qeq_bool _ _); [exact W|].
  apply wellFormed_refresh. destruct W as ((_ & _ & Ht) & _).
  unfold BarSpaceLimitConstants.MIN, BarSpaceLimitConstants.MAX in *.
  destruct f as [g|].
  - destruct (Hf g (set_barSpace barSpace s) eq_refl) as [E1 E2].
    unfold geometryOk. rewrite E1, E2. cbn. auto.
  - unfold geometryOk. cbn. auto.
Qed.

Lemma wellFormed_emit (e : Effect) (s : Store) : wellFormed s -> wellFormed (emit e s).
Proof. apply wellFormed_view, view_emit. Qed.

Lemma view_setOptions (options : option OverrideOptions) (created : option (Z -> DateTime))
    (s : Store) :
  view (setOptions options created s) = view s.
Proof. unfold setOptions. repeat (break_if; cbn); reflexivity. Qed.

Lemma effects_setOptions (options : option OverrideOptions)
    (created : option (Z -> DateTime)) (s : Store) :
  _effects (setOptions options created s) = _effects s
  /\ _loading (setOptions options created s) = _loading s.
Proof. unfold setOptions. repeat (break_if; cbn); split; reflexivity. Qed.

Lemma wellFormed_setOptions (options : option OverrideOptions)
    (created : option (Z -> DateTime)) (s : Store) :
  wellFormed s -> wellFormed (setOptions options created s).
Proof. apply wellFormed_view, view_setOptions. Qed.

(** Every mutation keeps the store well formed, a change of the total space
    as long as the new width is not negative. *)
Lemma wellFormed_perform (s : Store) (m : Mutation) :
  nonNegativeWidth m -> wellFormed s -> wellFormed (perform s m).
Proof.
  intros Hm W. pose proof W as (G & R). pose proof G as (Hb1 & Hb2 & Ht).
  destruct m; cbn [perform nonNegativeWidth] in *.
  - apply wellFormed_addData, W.
  - apply wellFormed_setBarSpace; [discriminate | exact W].
  - unfold setTotalBarSpace. destruct (negb _); [|exact W].
    eapply wellFormed_view; [apply view_setCrosshair|].
    apply wellFormed_adjustVisibleRange. unfold geometryOk. cbn. auto.
  - unfold setOffsetRightDistance. destruct isUpdate.
    + apply wellFormed_refresh. exact G.
    + exact W.
  - exact W.
  - exact W.
  - exact W.
  - exact W.
  - exact W.
  - exact W.
  - unfold scroll. destruct (negb _); [exact W|]. cbv zeta.
    match goal with |- wellFormed (if ?c then _ else _) => destruct c end;
      [apply wellFormed_emit|]; apply wellFormed_refresh; exact G.
  - unfold zoom. destruct (negb _); [exact W|]. cbv zeta.
    match goal with |- wellFormed (if ?c then _ else _) => destruct c end;
      [apply wellFormed_emit|];
      (apply wellFormed_setBarSpace; [|exact W]);
      intros g t [= <-]; split; reflexivity.
  - eapply wellFormed_view; [apply view_setCrosshair | exact W].
  - exact W.
  - exact W.
  - exact W.
  - apply wellFormed_setOptions, W.
  - split; [exact G|]. unfold rangeWithinData, dataCount. cbn. lia.
Qed.

Lemma wellFormed_newStore (format : Z -> DateTime) (w : Q) : wellFormed (newStore format w).
Proof.
  unfold wellFormed, geometryOk, rangeWithinData, dataCount. cbn.
  unfold DEFAULT_BAR_SPACE. repeat split; try lra; lia.
Qed.

Lemma wellFormed_performAll (ms : list Mutation) (s : Store) :
  Forall nonNegativeWidth ms -> wellFormed s -> wellFormed (performAll ms s).
Proof.
  unfold performAll. revert s.
  induction ms as [|m ms IH]; intros s HF W; cbn; [exact W|].
  inversion HF; subst. apply IH; [assumption|]. apply wellFormed_perform; assumption.
Qed.

(** C1 (as amended).  Whatever sequence of mutations a caller issues on a
    new store (loads, single-bar upserts, scroll, zoom, bar-space and
    total-space changes, ...), the visible range satisfies
    [0 <= from <= to <= dataCount], provided every total-space change sets a
    width that is not negative. *)
Theorem visible_range_within_data (format : Z -> DateTime) (w : Q) (ms : list Mutation) :
  Forall nonNegativeWidth ms ->
  rangeWithinData (performAll ms (newStore format w)).
Proof.
  intro HF. apply (wellFormed_performAll ms (newStore format w) HF).
  apply wellFormed_newStore.
Qed.

(** *** The bar space stays within its limits

    Whatever the widths, [setBarSpace] is the only writer of [_barSpace] and
    it refuses a value outside [1, 50]: no division of the store is by
    zero. *)

Lemma barSpace_view (a b : Store) : view a = view b -> _barSpace a = _barSpace b.
Proof. intro V. apply view_fields in V. tauto. Qed.

Lemma barSpace_adjustVisibleRange (s : Store) :
  _barSpace (_adjustVisibleRange s) = _barSpace s.
Proof.
  pose proof (view_adjustVisibleRange s) as V. cbv zeta in V.
  rewrite (barSpace_view _ _ V). reflexivity.
Qed.

Lemma barSpace_afterDataChange (type : LoadDataType) (s : Store) :
  _barSpace (afterDataChange type s) = _barSpace s.
Proof.
  rewrite (barSpace_view _ _ (view_afterDataChange type s)).
  apply barSpace_adjustVisibleRange.
Qed.

Lemma barSpace_refresh (s : Store) :
  _barSpace (emit ChartLayout (setCrosshair (Some (_crosshair (_adjustVisibleRange s))) true
                                 (_adjustVisibleRange s)))
  = _barSpace s.
Proof.
  rewrite (barSpace_view _ (_adjustVisibleRange s)).
  - apply barSpace_adjustVisibleRange.
  - rewrite view_emit, view_setCrosshair. reflexivity.
Qed.

Lemma barSpace_setBarSpace (barSpace : Q) (f : option (Store -> Store)) (s : Store) :
  (forall g t, f = Some g -> _barSpace (g t) = _barSpace t) ->
  1 <= _barSpace s <= 50 -> 1 <= _barSpace (setBarSpace barSpace f s) <= 50.
Proof.
  intros Hf W. unfold setBarSpace, BarSpaceLimitConstants.MIN, BarSpaceLimitConstants.MAX.
  destruct (Qlt_le_dec _ _) as [|H1]; [exact W|].
  destruct (Qlt_le_dec _ _) as [|H2]; [exact W|].
  destruct (Qeq_bool _ _); [exact W|].
  cbv zeta. rewrite barSpace_refresh.
  destruct f as [g|]; [rewrite (Hf g _ eq_refl)|]; cbn; split; assumption.
Qed.

Lemma barSpace_perform (s : Store) (m : Mutation) :
  1 <= _barSpace s <= 50 -> 1 <= _barSpace (perform s m) <= 50.
Proof.
  intros W. destruct m; cbn [perform]; try exact W.
  - unfold addData. destruct data as [bar|data].
    + destruct (_ >? _)%Z.
      * destruct (Qlt_le_dec _ _); rewrite barSpace_afterDataChange; exact W.
      * destruct (_ =? _)%Z;
          [rewrite barSpace_afterDataChange, barSpace_assignLastData|]; exact W.
    + destruct type; cbv zeta.
      * rewrite barSpace_afterDataChange. exact W.
      * destruct (_ >? _)%Z; [rewrite barSpace_afterDataChange|]; exact W.
      * destruct (_ >? _)%Z; [rewrite barSpace_afterDataChange|]; exact W.
  - apply barSpace_setBarSpace; [discriminate | exact W].
  - unfold setTotalBarSpace. destruct (negb _); [|exact W]. cbv zeta.
    rewrite (barSpace_view _ _ (view_setCrosshair _ _ _)), barSpace_adjustVisibleRange.
    exact W.
  - unfold setOffsetRightDistance. destruct isUpdate; [|exact W]. cbv zeta.
    rewrite barSpace_refresh. exact W.
  - unfold scroll. destruct (negb _); [exact W|]. cbv zeta.
    match goal with |- _ <= _barSpace (if ?c then _ else _) <= _ => destruct c end;
      [rewrite (barSpace_view _ _ (view_emit _ _))|]; rewrite barSpace_refresh; exact W.
  - unfold zoom. destruct (negb _); [exact W|]. cbv zeta.
    match goal with |- _ <= _barSpace (if ?c then _ else _) <= _ => destruct c end;
      [rewrite (barSpace_view _ _ (view_emit _ _))|];
      (apply barSpace_setBarSpace; [|exact W]); intros g t [= <-]; reflexivity.
  - rewrite (barSpace_view _ _ (view_setCrosshair _ _ _)). exact W.
  - rewrite (barSpace_view _ _ (view_setOptions _ _ _)). exact W.
Qed.

(** X1.  On a new store, after any sequence of mutations, the bar space is
    within [BarSpaceLimitConstants.MIN, BarSpaceLimitConstants.MAX], that
    is [1, 50]: [setBarSpace] (also when [zoom] calls it) is the only
    writer, and it refuses every other value. *)
Lemma barSpace_within_limits (format : Z -> DateTime) (w : Q) (ms : list Mutation) :
  1 <= _barSpace (performAll ms (newStore format w)) <= 50.
Proof.
  unfold performAll.
  assert (W : 1 <= _barSpace (newStore format w) <= 50)
    by (cbn; unfold DEFAULT_BAR_SPACE; split; discriminate).
  revert W. generalize (newStore format w).
  induction ms as [|m ms IH]; intros s W; cbn; [exact W|].
  apply IH, barSpace_perform, W.
Qed.

Lemma visible_range_within_data_witness :
  Forall nonNegativeWidth
    [AddData (inr fiveBars) Init None; SetTotalBarSpace 200; StartScroll; Scroll 35;
     Zoom 1 (Some 100); AddData (inl (exampleBar 6 1 2)) Backward None]
  /\ rangeWithinData
       (performAll
          [AddData (inr fiveBars) Init None; SetTotalBarSpace 200; StartScroll; Scroll 35;
           Zoom 1 (Some 100); AddData (inl (exampleBar 6 1 2)) Backward None]
          (newStore exampleFormat 100)).
Proof.
  assert (H : Forall nonNegativeWidth
    [AddData (inr fiveBars) Init None; SetTotalBarSpace 200; StartScroll; Scroll 35;
     Zoom 1 (Some 100); AddData (inl (exampleBar 6 1 2)) Backward None]).
  { repeat constructor. cbn. discriminate. }
  split; [exact H | apply visible_range_within_data; exact H].
Defined.

(** C1, as stated, fails: after an [Init] load of five bars, a total-space
    change to a negative width (-100, bar space 10) leaves the range
    [from = 12], [to = 3] over 5 bars. *)
Lemma visible_range_negative_width :
  let s :=
    performAll [AddData (inr fiveBars) Init None; SetTotalBarSpace (-100)]
      (newStore exampleFormat 100) in
  from (_visibleRange s) = 12%Z /\ to (_visibleRange s) = 3%Z /\ dataCount s = 5%Z
  /\ ~ rangeWithinData s.
Proof.
  cbv zeta. unfold rangeWithinData.
  assert (E : _visibleRange
                (performAll [AddData (inr fiveBars) Init None; SetTotalBarSpace (-100)]
                   (newStore exampleFormat 100))
              = mkVisibleRange 12 3 12 3) by (vm_compute; reflexivity).
  rewrite E. cbn [from to]. repeat split; try reflexivity. lia.
Qed.

(** ** The pixel of a data index (C5) *)

(** C5.  [dataIndexToCoordinate(i)] is
    [floor(totalBarSpace - (dataCount + diffBarCount - i - 0.5) * barSpace + 0.5)],
    an integer, and a second call, with no state change in between, returns
    the same value and leaves the store as it was. *)
Theorem dataIndexToCoordinate_deterministic (s : Store) (i : Q) :
  dataIndexToCoordinate s i
  = Qfloor (_totalBarSpace s
            - (inject_Z (dataCount s) + _lastBarRightSideDiffBarCount s - i - 0.5)
              * _barSpace s + 0.5)
  /\ (let '(x1, s1) := call (fun s => dataIndexToCoordinate s i) s in
      let '(x2, s2) := call (fun s => dataIndexToCoordinate s i) s1 in
      x1 = x2 /\ s2 = s).
Proof. split; [reflexivity | cbn; split; reflexivity]. Qed.

(** The scenario of the specification: two bars, bar space 10, width 200. *)
Example dataIndexToCoordinate_scenario :
  _barSpace twoBarStore == 10 /\ _totalBarSpace twoBarStore == 200
  /\ dataIndexToCoordinate twoBarStore 1 = 115%Z.
Proof. vm_compute. repeat split; reflexivity. Qed.

(** ** Bar space outside its limits (C8) *)

(** C8.  [setBarSpace] with a bar space below 1 or above 50 returns the
    store unchanged: no field is written, nothing is requested from the
    chart and no action is executed. *)
Theorem setBarSpace_out_of_limits (barSpace : Q) (adjustBeforeFunc : option (Store -> Store))
    (s : Store) :
  barSpace < 1 \/ 50 < barSpace ->
  setBarSpace barSpace adjustBeforeFunc s = s.
Proof.
  intros H. unfold setBarSpace, BarSpaceLimitConstants.MIN, BarSpaceLimitConstants.MAX.
  destruct (Qlt_le_dec barSpace 1) as [|H1]; [reflexivity|].
  destruct (Qlt_le_dec 50 barSpace) as [|H2]; [reflexivity|].
  exfalso. destruct H; lra.
Qed.

Lemma setBarSpace_out_of_limits_witness :
  (0.5 < 1 \/ 50 < 0.5) /\ setBarSpace 0.5 None twoBarStore = twoBarStore.
Proof.
  assert (H : 0.5 < 1 \/ 50 < 0.5) by (left; reflexivity).
  split; [exact H | apply setBarSpace_out_of_limits; exact H].
Defined.

(** The gap bar space, a function of the bar space, is unchanged as well. *)
Lemma setBarSpace_out_of_limits_gap (barSpace : Q) (f : option (Store -> Store)) (s : Store) :
  barSpace < 1 \/ 50 < barSpace ->
  _gapBarSpace (setBarSpace barSpace f s) = _gapBarSpace s.
Proof.
  intros H. unfold setBarSpace, BarSpaceLimitConstants.MIN, BarSpaceLimitConstants.MAX.
  destruct (Qlt_le_dec barSpace 1) as [|H1]; [reflexivity|].
  destruct (Qlt_le_dec 50 barSpace) as [|H2]; [reflexivity|].
  exfalso. destruct H; lra.
Qed.

(** ** The continuation flags of an [Init] load (C10) *)

(** C10.  After [addData(data, Init, more)] both the forward-more and the
    backward-more flag are the [forward] hint of [more] (and both are off
    when no hint is passed); the [backward] hint is not read. *)
Theorem addData_Init_flags (data : list KLineData) (more : option LoadDataMore) (s : Store) :
  let s' := addData (inr data) Init more s in
  (forall m : LoadDataMore, more = Some m ->
     forward (_loadDataMore s') = forward m /\ backward (_loadDataMore s') = forward m)
  /\ (more = None ->
      forward (_loadDataMore s') = false /\ backward (_loadDataMore s') = false).
Proof.
  cbv zeta. unfold addData. cbv zeta.
  match goal with |- context [afterDataChange Init ?t] =>
    pose proof (view_afterDataChange Init t) as V;
    pose proof (view_adjustVisibleRange t) as V'
  end.
  cbv zeta in V'. rewrite V' in V. apply view_fields in V.
  destruct V as (_ & _ & _ & _ & _ & -> & _).
  split; [intros m -> | intros ->]; cbn; split; reflexivity.
Qed.

(** A caller that passes [{forward: false, backward: true}] does not enable
    backward pagination. *)
Example addData_Init_backward_hint_ignored :
  backward (_loadDataMore
              (addData (inr twoBars) Init (Some (mkLoadDataMore false true))
                 (newStore exampleFormat 100)))
  = false.
Proof. vm_compute. reflexivity. Qed.

(** And a caller that passes [{forward: true, backward: false}] enables it. *)
Example addData_Init_forward_hint_sets_backward :
  backward (_loadDataMore
              (addData (inr twoBars) Init (Some (mkLoadDataMore true false))
                 (newStore exampleFormat 100)))
  = true.
Proof. vm_compute. reflexivity. Qed.

(** ** Single-bar upsert (C3) *)

Lemma replace_at_length {A : Type} (l : list A) (i : nat) (v : A) :
  List.length (replace_at l i v) = List.length l.
Proof.
  revert i. induction l as [|h t IH]; intros [|i]; cbn; try reflexivity.
  rewrite IH. reflexivity.
Qed.

Lemma replace_at_snoc {A : Type} (l : list A) (a v : A) :
  replace_at (l ++ [a]) (List.length l) v = l ++ [v].
Proof. induction l as [|h t IH]; cbn; [reflexivity | rewrite IH; reflexivity]. Qed.

Lemma replace_at_last {A : Type} (l : list A) (v : A) :
  l <> [] -> replace_at l (List.length l - 1) v = removelast l ++ [v].
Proof.
  intro Hne. destruct (exists_last Hne) as (l' & a & ->).
  rewrite removelast_last, length_app. cbn [List.length].
  replace (List.length l' + 1 - 1)%nat with (List.length l') by lia.
  apply replace_at_snoc.
Qed.

Lemma assignLastData_nonempty (data : KLineData) (s : Store) :
  _dataList s <> [] ->
  assignLastData data s
  = set_dataList (replace_at (_dataList s) (List.length (_dataList s) - 1) data) s.
Proof.
  intro H. destruct (assignLastData_cases data s) as [[E _]|[_ E]]; [contradiction | exact E].
Qed.

Lemma dataCount_assignLastData (data : KLineData) (s : Store) :
  dataCount (assignLastData data s) = dataCount s.
Proof.
  destruct (assignLastData_cases data s) as [[_ ->]|[_ ->]]; [reflexivity|].
  unfold dataCount. cbn. rewrite replace_at_length. reflexivity.
Qed.

Lemma at_index_last_nonempty {A : Type} (l : list A) (a : A) :
  at_index l (Z.of_nat (List.length l) - 1) = Some a -> l <> [].
Proof. intros H ->. discriminate H. Qed.

(** The clamps read the number of bars, the geometry, the limits and the
    offset. *)
Lemma clamped_ext (a b : Store) :
  dataCount a = dataCount b -> _totalBarSpace a = _totalBarSpace b ->
  _barSpace a = _barSpace b -> _scrollLimitRole a = _scrollLimitRole b ->
  _minVisibleBarCount a = _minVisibleBarCount b ->
  _maxOffsetDistance a = _maxOffsetDistance b ->
  _lastBarRightSideDiffBarCount a = _lastBarRightSideDiffBarCount b ->
  clampedLastBarRightSideDiffBarCount a = clampedLastBarRightSideDiffBarCount b.
Proof.
  intros E1 E2 E3 E4 E5 E6 E7. unfold clampedLastBarRightSideDiffBarCount.
  rewrite E1, E2, E3, E4, E5, E6, E7. reflexivity.
Qed.

(** One more bar and an offset one bar further left: still within limits. *)
Lemma clamped_after_append (s s1 : Store) :
  dataCount s1 = (dataCount s + 1)%Z -> _totalBarSpace s1 = _totalBarSpace s ->
  _barSpace s1 = _barSpace s -> _scrollLimitRole s1 = _scrollLimitRole s ->
  _minVisibleBarCount s1 = _minVisibleBarCount s ->
  _maxOffsetDistance s1 = _maxOffsetDistance s ->
  _lastBarRightSideDiffBarCount s1 = _lastBarRightSideDiffBarCount s - 1 ->
  offsetWithinLimits s -> _lastBarRightSideDiffBarCount s < 0 ->
  clampedLastBarRightSideDiffBarCount s1 == _lastBarRightSideDiffBarCount s - 1.
Proof.
  intros E1 E2 E3 E4 E5 E6 E7 W Hneg. unfold offsetWithinLimits in W.
  unfold clampedLastBarRightSideDiffBarCount in *. cbv zeta in *.
  rewrite E1, E2, E3, E4, E5, E6, E7. rewrite inject_Z_plus.
  change (inject_Z 1) with 1.
  pose proof (dataCount_nonneg s) as Hn.
  set (n := inject_Z (dataCount s)) in *.
  set (d := _lastBarRightSideDiffBarCount s) in *.
  set (v := _totalBarSpace s / _barSpace s) in *.
  repeat match goal with
         | H : context [Qmin (Qmax 0 ?e) n] |- _ =>
             progress (set (Qmax 0 e) in * )
         end.
  repeat match goal with
         | |- context [Qmin ?e ?m] =>
             let H := fresh in
             pose proof (Q.min_spec e m) as H; set (Qmin e m) in *
         end.
  repeat match goal with
         | H : context [Qmin ?e ?m] |- _ =>
             let H := fresh in
             pose proof (Q.min_spec e m) as H; set (Qmin e m) in *
         end.
  revert W.
  repeat match goal with
         | |- context [if Qlt_le_dec ?a ?b then _ else _] =>
             lazymatch a with
             | context [Qlt_le_dec] => fail
             | _ => destruct (Qlt_le_dec a b); cbv iota beta
             end
         end;
  intro W; lra.
Qed.

Lemma afterDataChange_fields (type : LoadDataType) (s : Store) :
  _dataList (afterDataChange type s) = _dataList s
  /\ _lastBarRightSideDiffBarCount (afterDataChange type s)
     = clampedLastBarRightSideDiffBarCount s.
Proof.
  pose proof (view_afterDataChange type s) as V.
  pose proof (view_adjustVisibleRange s) as V'. cbv zeta in V'. rewrite V' in V.
  apply view_fields in V. destruct V as (-> & _ & _ & -> & _). split; reflexivity.
Qed.

(** C3 (as amended).  A single bar upserted into a non-empty window: a time
    stamp greater than the last bar's appends the bar (the length grows by
    one, and a negative right offset that is within the scroll limits is
    decremented by one); an equal time stamp replaces the last bar (same
    length, and an offset within the scroll limits stays where it is); a
    lesser time stamp changes nothing at all.  The offset is compared before
    and after the whole call. *)
Theorem addData_single_bar (bar lastBar : KLineData) (type : LoadDataType)
    (more : option LoadDataMore) (s : Store) :
  at_index (_dataList s) (dataCount s - 1) = Some lastBar ->
  let s' := addData (inl bar) type more s in
  ((timestamp bar > timestamp lastBar)%Z ->
     _dataList s' = _dataList s ++ [bar]
     /\ dataCount s' = (dataCount s + 1)%Z
     /\ (offsetWithinLimits s -> _lastBarRightSideDiffBarCount s < 0 ->
         _lastBarRightSideDiffBarCount s' == _lastBarRightSideDiffBarCount s - 1))
  /\ ((timestamp bar = timestamp lastBar)%Z ->
      _dataList s' = removelast (_dataList s) ++ [bar]
      /\ dataCount s' = dataCount s
      /\ (offsetWithinLimits s ->
          _lastBarRightSideDiffBarCount s' == _lastBarRightSideDiffBarCount s))
  /\ ((timestamp bar < timestamp lastBar)%Z -> s' = s).
Proof.
  intros Hlast. cbv zeta. unfold addData.
  pose proof (at_index_last_nonempty _ _ Hlast) as Hne.
  rewrite (dataAt_last s Hne), Hlast. cbn [formatValue_timestamp].
  split; [intro Hgt | split; [intro Heq | intro Hlt]].
  - destruct (Z.gtb_spec (timestamp bar) (timestamp lastBar)) as [_|]; [|lia].
    unfold getLastBarRightSideDiffBarCount.
    cbn [_lastBarRightSideDiffBarCount set_dataList _classifyTimeTicks set_timeTicks].
    split; [|split].
    + destruct (Qlt_le_dec _ _); rewrite (proj1 (afterDataChange_fields _ _)); reflexivity.
    + unfold dataCount at 1.
      destruct (Qlt_le_dec _ _); rewrite (proj1 (afterDataChange_fields _ _));
        cbn; rewrite length_app; unfold dataCount; cbn; lia.
    + intros W Hneg. destruct (Qlt_le_dec _ _); [|lra].
      rewrite (proj2 (afterDataChange_fields _ _)).
      apply clamped_after_append; try reflexivity; try assumption.
      unfold dataCount. cbn. rewrite length_app. cbn. lia.
  - destruct (Z.gtb_spec (timestamp bar) (timestamp lastBar)); [lia|].
    rewrite (proj2 (Z.eqb_eq _ _) Heq).
    split; [|split].
    + rewrite (proj1 (afterDataChange_fields _ _)), (assignLastData_nonempty bar s Hne).
      cbn. apply replace_at_last, Hne.
    + unfold dataCount at 1. rewrite (proj1 (afterDataChange_fields _ _)).
      apply dataCount_assignLastData.
    + intro W. rewrite (proj2 (afterDataChange_fields _ _)).
      rewrite (clamped_ext (assignLastData bar s) s);
        [exact W | apply dataCount_assignLastData | ..];
        rewrite (assignLastData_nonempty bar s Hne); reflexivity.
  - destruct (Z.gtb_spec (timestamp bar) (timestamp lastBar)); [lia|].
    destruct (Z.eqb_spec (timestamp bar) (timestamp lastBar)); [lia|]. reflexivity.
Qed.

Lemma addData_single_bar_witness :
  at_index (_dataList fiveBarStore) (dataCount fiveBarStore - 1) = Some (exampleBar 5 11 13)
  /\ _dataList (addData (inl (exampleBar 6 13 14)) Backward None fiveBarStore)
     = _dataList fiveBarStore ++ [exampleBar 6 13 14]
  /\ _lastBarRightSideDiffBarCount
       (addData (inl (exampleBar 6 13 14)) Backward None fiveBarStore)
     == _lastBarRightSideDiffBarCount fiveBarStore - 1.
Proof.
  assert (H1 : at_index (_dataList fiveBarStore) (dataCount fiveBarStore - 1)
               = Some (exampleBar 5 11 13)) by (vm_compute; reflexivity).
  assert (H2 : (timestamp (exampleBar 6 13 14) > timestamp (exampleBar 5 11 13))%Z)
    by reflexivity.
  assert (H3 : offsetWithinLimits fiveBarStore) by (vm_compute; reflexivity).
  assert (H4 : _lastBarRightSideDiffBarCount fiveBarStore < 0) by (vm_compute; reflexivity).
  destruct (addData_single_bar (exampleBar 6 13 14) (exampleBar 5 11 13) Backward None
              fiveBarStore H1) as [Happend _].
  destruct (Happend H2) as (Hlist & _ & Hoffset).
  split; [exact H1 | split; [exact Hlist | exact (Hoffset H3 H4)]].
Defined.

(** C3, as stated, fails: five bars dragged to offset -2, then
    [setRightMinVisibleBarCount(4)], which raises the lower scroll limit to
    -1 and leaves the offset, now outside the limits, where it is.  A newer
    bar is appended, but the offset, decremented to -3, is clamped to the
    limit -2 of six bars: it ends where it was.  A bar with the time stamp
    of the last one replaces it, and the offset is clamped to -1: it has
    moved. *)
Lemma addData_single_bar_offset_clamped :
  let s := perform fiveBarStore (SetRightMinVisibleBarCount 4) in
  let appended := addData (inl (exampleBar 6 13 14)) Backward None s in
  let replaced := addData (inl (exampleBar 5 12 14)) Backward None s in
  at_index (_dataList s) (dataCount s - 1) = Some (exampleBar 5 11 13)
  /\ _lastBarRightSideDiffBarCount s == -2
  /\ _dataList appended = _dataList s ++ [exampleBar 6 13 14]
  /\ _lastBarRightSideDiffBarCount appended == -2
  /\ ~ _lastBarRightSideDiffBarCount appended == _lastBarRightSideDiffBarCount s - 1
  /\ _dataList replaced = removelast (_dataList s) ++ [exampleBar 5 12 14]
  /\ _lastBarRightSideDiffBarCount replaced == -1
  /\ ~ _lastBarRightSideDiffBarCount replaced == _lastBarRightSideDiffBarCount s.
Proof. vm_compute. repeat split; try reflexivity; discriminate. Qed.

(** Whatever the offset was, an appended bar moves a negative offset one bar
    to the left before the viewport is re-derived, and the re-derivation
    clamps the result. *)
Lemma addData_append_offset (bar lastBar : KLineData) (type : LoadDataType)
    (more : option LoadDataMore) (s : Store) :
  at_index (_dataList s) (dataCount s - 1) = Some lastBar ->
  (timestamp bar > timestamp lastBar)%Z ->
  _lastBarRightSideDiffBarCount s < 0 ->
  _lastBarRightSideDiffBarCount (addData (inl bar) type more s)
  = clampedLastBarRightSideDiffBarCount
      (set_lastBarRightSideDiffBarCount (_lastBarRightSideDiffBarCount s - 1)
         (set_dataList (_dataList s ++ [bar]) s)).
Proof.
  intros Hlast Hgt Hneg. unfold addData.
  rewrite (dataAt_last s (at_index_last_nonempty _ _ Hlast)), Hlast.
  cbn [formatValue_timestamp].
  destruct (Z.gtb_spec (timestamp bar) (timestamp lastBar)) as [_|]; [|lia].
  unfold getLastBarRightSideDiffBarCount.
  cbn [_lastBarRightSideDiffBarCount set_dataList _classifyTimeTicks set_timeTicks].
  destruct (Qlt_le_dec _ _); [|lra].
  rewrite (proj2 (afterDataChange_fields _ _)).
  apply clamped_ext; reflexivity.
Qed.

(** ** Index -> pixel -> index (C2) *)

Lemma Qfloor_plus_Z (q : Q) (z : Z) : Qfloor (q + inject_Z z) = (Qfloor q + z)%Z.
Proof.
  apply Qfloor_unique.
  - rewrite inject_Z_plus. pose proof (Qfloor_le q). lra.
  - rewrite inject_Z_plus. pose proof (Qlt_floor q) as H.
    rewrite inject_Z_plus in H. change (inject_Z 1) with 1 in H. lra.
Qed.

(** The float index is the exact index rounded to a multiple of [1e-6]. *)
Lemma Math_round_bounds (q : Q) :
  inject_Z (Math_round q) <= q + (1 # 2) /\ q - (1 # 2) < inject_Z (Math_round q).
Proof.
  unfold Math_round. pose proof (Qfloor_le (q + (1 # 2))).
  pose proof (Qlt_floor (q + (1 # 2))) as H1.
  rewrite inject_Z_plus in H1. change (inject_Z 1) with 1 in H1. split; lra.
Qed.

Lemma Qinv_le_1 (b : Q) : 1 <= b -> 0 < / b /\ / b <= 1.
Proof.
  intro H. assert (Hb : 0 < b) by lra. split; [apply Qinv_lt_0_compat, Hb|].
  apply Qle_shift_inv_r; [exact Hb | lra].
Qed.

(** The exact (unrounded) float index of the pixel of bar [i] is within
    half a pixel of the centre [i + 1/2] of the bar. *)
Lemma pixel_index_exact (s : Store) (i : Z) :
  0 < _barSpace s ->
  let x := inject_Z (dataIndexToCoordinate s (inject_Z i)) in
  let index :=
    inject_Z (dataCount s) + _lastBarRightSideDiffBarCount s
    - (_totalBarSpace s - x) / _barSpace s in
  inject_Z i + (1 # 2) - (1 # 2) * / _barSpace s < index
  /\ index <= inject_Z i + (1 # 2) + (1 # 2) * / _barSpace s.
Proof.
  intros Hb. cbv zeta. unfold dataIndexToCoordinate, Math_floor.
  set (n := inject_Z (dataCount s)). set (d := _lastBarRightSideDiffBarCount s).
  set (T := _totalBarSpace s). set (b := _barSpace s) in *.
  set (c := T - (n + d - inject_Z i - 0.5) * b + 0.5).
  pose proof (Qfloor_le c) as H1. pose proof (Qlt_floor c) as H2.
  rewrite inject_Z_plus in H2. change (inject_Z 1) with 1 in H2.
  set (x := inject_Z (Qfloor c)) in *.
  assert (Hu : 0 < / b) by (apply Qinv_lt_0_compat, Hb).
  assert (E : n + d - (T - x) / b == inject_Z i + (1 # 2) + (x - c + (1 # 2)) * / b).
  { unfold c. field. lra. }
  rewrite E.
  assert (Hlo : - (1 # 2) * / b < (x - c + (1 # 2)) * / b).
  { apply Qmult_lt_compat_r; [exact Hu | lra]. }
  assert (Hhi : (x - c + (1 # 2)) * / b <= (1 # 2) * / b).
  { apply Qmult_le_compat_r; [lra | lra]. }
  split; lra.
Qed.

(** C2.  For a bar space of at least 1 (hence for every bar space in
    [1, 50]), any total space, any offset and any data index [i], the pixel
    [x] of [i] maps back to [i] within the rounding tolerance of the bar
    space: the float index of [x] is within [roundTripTolerance barSpace] of
    the centre [i + 1/2] of the bar, the data index of [x] is [i] or [i - 1],
    and it is [i] whenever the tolerance is at most half a bar (that is, for
    every bar space from 1.000002 upwards). *)
Theorem coordinate_round_trip (s : Store) (i : Z) :
  1 <= _barSpace s ->
  let x := inject_Z (dataIndexToCoordinate s (inject_Z i)) in
  Qabs (coordinateToFloatIndex s x - (inject_Z i + (1 # 2)))
  <= roundTripTolerance (_barSpace s)
  /\ (i - 1 <= coordinateToDataIndex s x <= i)%Z
  /\ (roundTripTolerance (_barSpace s) <= 1 # 2 -> coordinateToDataIndex s x = i).
Proof.
  intros Hb1. assert (Hb : 0 < _barSpace s) by lra.
  pose proof (pixel_index_exact s i Hb) as Hidx. cbv zeta in *.
  change (roundTripTolerance (_barSpace s))
    with ((1 # 2) * / _barSpace s + (1 # 2000000)).
  unfold coordinateToDataIndex, coordinateToFloatIndex, Math_ceil.
  set (x := inject_Z (dataIndexToCoordinate s (inject_Z i))) in *.
  set (index := inject_Z (dataCount s) + _lastBarRightSideDiffBarCount s
                - (_totalBarSpace s - x) / _barSpace s) in *.
  destruct Hidx as [Hlo Hhi].
  destruct (Qinv_le_1 _ Hb1) as [Hu0 Hu1].
  set (u := / _barSpace s) in *.
  destruct (Math_round_bounds (index * 1000000)) as [Hr1 Hr2].
  set (k := Math_round (index * 1000000)) in *.
  assert (Hk1 : (i * 1000000 <= k)%Z).
  { unfold k, Math_round. apply Qfloor_lb. rewrite inject_Z_mult.
    change (inject_Z 1000000) with 1000000. lra. }
  assert (Hk2 : (k <= (i + 1) * 1000000)%Z).
  { assert (k < (i + 1) * 1000000 + 1)%Z; [|lia].
    unfold k, Math_round. apply Qfloor_ub.
    rewrite inject_Z_plus, inject_Z_mult, inject_Z_plus.
    change (inject_Z 1000000) with 1000000. change (inject_Z 1) with 1. lra. }
  assert (Hq1 : inject_Z i <= inject_Z k / 1000000).
  { apply Qle_shift_div_l; [reflexivity|].
    change 1000000 with (inject_Z 1000000). rewrite <- inject_Z_mult, <- Zle_Qle. exact Hk1. }
  assert (Hq2 : inject_Z k / 1000000 <= inject_Z (i + 1)).
  { apply Qle_shift_div_r; [reflexivity|].
    change 1000000 with (inject_Z 1000000). rewrite <- inject_Z_mult, <- Zle_Qle. exact Hk2. }
  assert (Hc1 : (i <= Qceiling (inject_Z k / 1000000))%Z).
  { rewrite <- (Qceiling_Z i). apply Qceiling_resp_le, Hq1. }
  assert (Hc2 : (Qceiling (inject_Z k / 1000000) <= i + 1)%Z).
  { apply Qceiling_ub, Hq2. }
  assert (Hk3 : (1 # 2) * u + (1 # 2000000) <= 1 # 2 -> (i * 1000000 + 1 <= k)%Z).
  { intro Htol. unfold k, Math_round. apply Qfloor_lb.
    rewrite inject_Z_plus, inject_Z_mult.
    change (inject_Z 1000000) with 1000000. change (inject_Z 1) with 1. lra. }
  clearbody index u k x.
  split; [|split].
  - apply Qabs_Qle_condition. split.
    + assert (inject_Z k / 1000000 == inject_Z k * (1 # 1000000)) as -> by field. lra.
    + assert (inject_Z k / 1000000 == inject_Z k * (1 # 1000000)) as -> by field. lra.
  - lia.
  - intro Htol. apply Hk3 in Htol.
    assert (i < Qceiling (inject_Z k / 1000000))%Z; [|lia].
    apply Qceiling_lb. apply Qlt_shift_div_l; [reflexivity|].
    change 1000000 with (inject_Z 1000000). rewrite <- inject_Z_mult, <- Zlt_Qlt. lia.
Qed.

Lemma coordinate_round_trip_witness :
  1 <= _barSpace fiveBarStore
  /\ coordinateToDataIndex fiveBarStore
       (inject_Z (dataIndexToCoordinate fiveBarStore (inject_Z 3))) = 3%Z.
Proof.
  assert (H : 1 <= _barSpace fiveBarStore) by (vm_compute; discriminate).
  split; [exact H|].
  apply (coordinate_round_trip fiveBarStore 3 H). vm_compute. discriminate.
Defined.

(** The tolerance cannot be dropped at the lower limit of the bar space: at
    bar space 1 and offset [1e-7] the pixel of bar 1 maps back to bar 0. *)
Example coordinate_round_trip_bar_space_1 :
  let s :=
    set_lastBarRightSideDiffBarCount (1 # 10000000) (set_barSpace 1 twoBarStore) in
  dataIndexToCoordinate s 1 = 199%Z
  /\ coordinateToDataIndex s 199 = 0%Z.
Proof. vm_compute. split; reflexivity. Qed.

(** ** Zoom around a pixel (C7) *)

Lemma Math_round_plus_Z (q : Q) (z : Z) :
  Math_round (q + inject_Z z) = (Math_round q + z)%Z.
Proof.
  unfold Math_round. rewrite <- Qfloor_plus_Z. apply Qfloor_comp. ring.
Qed.

Lemma coordinateToFloatIndex_ext (a b : Store) (x : Q) :
  dataCount a = dataCount b -> _totalBarSpace a = _totalBarSpace b ->
  _barSpace a = _barSpace b ->
  _lastBarRightSideDiffBarCount a == _lastBarRightSideDiffBarCount b ->
  coordinateToFloatIndex a x == coordinateToFloatIndex b x.
Proof.
  intros E1 E2 E3 E4. unfold coordinateToFloatIndex, Math_round.
  rewrite E1, E2, E3.
  match goal with |- inject_Z (Qfloor ?p) / _ == inject_Z (Qfloor ?q) / _ =>
    assert (E : p == q) by (rewrite E4; reflexivity)
  end.
  rewrite (Qfloor_comp _ _ E). reflexivity.
Qed.

(** The callback of [zoom] moves the offset so that the float index under
    the pixel is what it was, whatever the new bar space. *)
Lemma zoomAnchored_floatIndex (scale x : Q) (s : Store) :
  coordinateToFloatIndex (zoomAnchored scale x s) x == coordinateToFloatIndex s x.
Proof.
  unfold zoomAnchored. cbv zeta. unfold coordinateToFloatIndex at 1.
  cbn [_lastBarRightSideDiffBarCount _totalBarSpace _barSpace
       set_lastBarRightSideDiffBarCount set_barSpace].
  change (dataCount (set_lastBarRightSideDiffBarCount _ _)) with (dataCount s).
  set (s1 := set_barSpace (zoomedBarSpace scale s) s).
  unfold coordinateToFloatIndex at 1 2.
  change (dataCount s1) with (dataCount s).
  change (_totalBarSpace s1) with (_totalBarSpace s).
  change (_lastBarRightSideDiffBarCount s1) with (_lastBarRightSideDiffBarCount s).
  change (_barSpace s1) with (zoomedBarSpace scale s).
  set (n := inject_Z (dataCount s)). set (d := _lastBarRightSideDiffBarCount s).
  set (t1 := (_totalBarSpace s - x) / zoomedBarSpace scale s).
  set (kA := Math_round ((n + d - (_totalBarSpace s - x) / _barSpace s) * 1000000)).
  set (kB := Math_round ((n + d - t1) * 1000000)).
  assert (E : (n + (d + (inject_Z kA / 1000000 - inject_Z kB / 1000000)) - t1) * 1000000
              == (n + d - t1) * 1000000 + inject_Z (kA - kB)).
  { unfold Zminus. rewrite inject_Z_plus, inject_Z_opp. field. }
  unfold Math_round at 1. rewrite (Qfloor_comp _ _ (Qplus_comp _ _ E _ _ (Qeq_refl _))).
  fold (Math_round ((n + d - t1) * 1000000 + inject_Z (kA - kB))).
  rewrite Math_round_plus_Z. fold kB.
  replace (kB + (kA - kB))%Z with kA by lia. reflexivity.
Qed.

Lemma view_setBarSpace_accepted (barSpace : Q) (g : Store -> Store) (s : Store) :
  1 <= barSpace -> barSpace <= 50 -> ~ barSpace == _barSpace s ->
  view (setBarSpace barSpace (Some g) s)
  = view (_adjustVisibleRange (g (set_barSpace barSpace s))).
Proof.
  intros H1 H2 H3. unfold setBarSpace, BarSpaceLimitConstants.MIN, BarSpaceLimitConstants.MAX.
  destruct (Qlt_le_dec barSpace 1); [lra|].
  destruct (Qlt_le_dec 50 barSpace); [lra|].
  destruct (Qeq_bool (_barSpace s) barSpace) eqn:E.
  - apply Qeq_bool_eq in E. exfalso. apply H3. symmetry. exact E.
  - cbv zeta. rewrite view_emit, view_setCrosshair. reflexivity.
Qed.

Lemma view_zoom_accepted (scale x : Q) (s : Store) :
  _zoomEnabled s = true ->
  1 <= zoomedBarSpace scale s -> zoomedBarSpace scale s <= 50 ->
  ~ zoomedBarSpace scale s == _barSpace s ->
  view (zoom scale (Some x) s) = view (_adjustVisibleRange (zoomAnchored scale x s)).
Proof.
  intros Hz H1 H2 H3. unfold zoom. rewrite Hz. cbn [negb]. cbv zeta.
  fold (zoomedBarSpace scale s).
  match goal with |- view (if ?c then _ else _) = _ => destruct c end;
    [rewrite view_emit|]; rewrite view_setBarSpace_accepted by assumption; reflexivity.
Qed.

(** The float index under the anchor is exactly what it was when the
    offset is not clamped (in the exact arithmetic of the model). *)
Lemma zoom_anchor_exact (scale x : Q) (s : Store) :
  _zoomEnabled s = true ->
  1 <= zoomedBarSpace scale s -> zoomedBarSpace scale s <= 50 ->
  ~ zoomedBarSpace scale s == _barSpace s ->
  offsetWithinLimits (zoomAnchored scale x s) ->
  _barSpace (zoom scale (Some x) s) = zoomedBarSpace scale s
  /\ coordinateToFloatIndex (zoom scale (Some x) s) x == coordinateToFloatIndex s x.
Proof.
  intros Hz H1 H2 H3 W.
  pose proof (view_zoom_accepted scale x s Hz H1 H2 H3) as V.
  pose proof (view_adjustVisibleRange (zoomAnchored scale x s)) as V'.
  cbv zeta in V'. rewrite V' in V. clear V'.
  pose proof (dataCount_view _ _ V) as En.
  apply view_fields in V. destruct V as (_ & Eb & Et & Ed & _).
  split; [rewrite Eb; reflexivity|].
  rewrite <- (zoomAnchored_floatIndex scale x s).
  apply coordinateToFloatIndex_ext.
  - rewrite En. reflexivity.
  - rewrite Et. reflexivity.
  - rewrite Eb. reflexivity.
  - rewrite Ed. exact W.
Qed.

(** C7 (as amended).  When zooming is enabled, the bar-space change of
    [zoom(scale, {x})] is accepted, and the offset that anchors [x] lies
    within the scroll limits of the store (so that [_adjustVisibleRange]
    does not clamp it), the float index under [x] after the call is the
    float index under [x] before it, within the rounding tolerance of one
    unit of the sixth decimal. *)
Theorem zoom_keeps_anchor (scale x : Q) (s : Store) :
  _zoomEnabled s = true ->
  1 <= zoomedBarSpace scale s -> zoomedBarSpace scale s <= 50 ->
  ~ zoomedBarSpace scale s == _barSpace s ->
  offsetWithinLimits (zoomAnchored scale x s) ->
  _barSpace (zoom scale (Some x) s) = zoomedBarSpace scale s
  /\ Qabs (coordinateToFloatIndex (zoom scale (Some x) s) x - coordinateToFloatIndex s x)
     <= floatIndexTolerance.
Proof.
  intros Hz H1 H2 H3 W.
  destruct (zoom_anchor_exact scale x s Hz H1 H2 H3 W) as [Eb E].
  split; [exact Eb|].
  rewrite E. unfold Qminus. rewrite Qplus_opp_r. discriminate.
Qed.

Lemma zoom_keeps_anchor_witness :
  (_zoomEnabled fiveBarStore = true
   /\ 1 <= zoomedBarSpace 1 fiveBarStore /\ zoomedBarSpace 1 fiveBarStore <= 50
   /\ ~ zoomedBarSpace 1 fiveBarStore == _barSpace fiveBarStore
   /\ offsetWithinLimits (zoomAnchored 1 100 fiveBarStore))
  /\ Qabs (coordinateToFloatIndex (zoom 1 (Some 100) fiveBarStore) 100
           - coordinateToFloatIndex fiveBarStore 100)
     <= floatIndexTolerance.
Proof.
  assert (Hz : _zoomEnabled fiveBarStore = true) by reflexivity.
  assert (H1 : 1 <= zoomedBarSpace 1 fiveBarStore) by (vm_compute; discriminate).
  assert (H2 : zoomedBarSpace 1 fiveBarStore <= 50) by (vm_compute; discriminate).
  assert (H3 : ~ zoomedBarSpace 1 fiveBarStore == _barSpace fiveBarStore)
    by (vm_compute; discriminate).
  assert (W : offsetWithinLimits (zoomAnchored 1 100 fiveBarStore))
    by (vm_compute; reflexivity).
  split; [repeat split; assumption|].
  apply (zoom_keeps_anchor 1 100 fiveBarStore Hz H1 H2 H3 W).
Defined.

(** C7, as stated, fails: five bars in a viewport of 200 pixels, dragged to
    the right up to the scroll limit (offset -3).  The zoom
    [zoom(10, {x: 185})] is accepted (bar space 10 -> 20), the offset -3.75
    that would anchor pixel 185 is below the scroll limit -3 and is clamped,
    and the float index under pixel 185 moves from 0.5 (bar 0) to 1.25
    (bar 1). *)
Lemma zoom_anchor_moved_by_scroll_limit :
  let s' := zoom 10 (Some 185) scrolledStore in
  _barSpace scrolledStore == 10 /\ _barSpace s' == 20
  /\ _lastBarRightSideDiffBarCount scrolledStore == -3
  /\ _lastBarRightSideDiffBarCount (zoomAnchored 10 185 scrolledStore) == -3.75
  /\ _lastBarRightSideDiffBarCount s' == -3
  /\ coordinateToFloatIndex scrolledStore 185 == 0.5
  /\ coordinateToFloatIndex s' 185 == 1.25
  /\ coordinateToDataIndex scrolledStore 185 = 0%Z
  /\ coordinateToDataIndex s' 185 = 1%Z
  /\ ~ Qabs (coordinateToFloatIndex s' 185 - coordinateToFloatIndex scrolledStore 185)
        <= floatIndexTolerance.
Proof. vm_compute. repeat split; try reflexivity. intro H. apply H. reflexivity. Qed.

(** ** Spacing of the tick labels (C6) *)

Section TickSpacing.

Variable n : Z.
Hypothesis n_nonneg : (0 <= n)%Z.

Lemma StronglySorted_app_intro (l1 l2 : list TimeTick) :
  StronglySorted (apartBy n) l1 -> StronglySorted (apartBy n) l2 ->
  (forall a b, In a l1 -> In b l2 -> apartBy n a b) ->
  StronglySorted (apartBy n) (l1 ++ l2).
Proof.
  intros S1 S2 C. induction l1 as [|h t IH]; [exact S2|].
  apply StronglySorted_inv in S1. destruct S1 as [St Ft]. cbn.
  constructor.
  - apply IH; [exact St|]. intros a b Ha Hb. apply C; [right; exact Ha | exact Hb].
  - apply Forall_app. split; [exact Ft|].
    apply Forall_forall. intros b Hb. apply C; [left; reflexivity | exact Hb].
Qed.

Lemma StronglySorted_snoc (l : list TimeTick) (t : TimeTick) :
  StronglySorted (apartBy n) l -> (forall a, In a l -> apartBy n a t) ->
  StronglySorted (apartBy n) (l ++ [t]).
Proof.
  intros S C. apply StronglySorted_app_intro; [exact S | repeat constructor |].
  intros a b Ha [<-|[]]. apply C, Ha.
Qed.

Lemma drainPrevTicks_invariant (prevRest tickList : list TimeTick)
    (leftIndex rightIndex : option Z) (currentIndex : Z) :
  mergeInvariant n prevRest tickList leftIndex ->
  forall prevRest' tickList' leftIndex' rightIndex',
    drainPrevTicks prevRest tickList leftIndex rightIndex currentIndex
    = (prevRest', tickList', leftIndex', rightIndex') ->
    mergeInvariant n prevRest' tickList' leftIndex'
    /\ match prevRest' with
       | [] => True
       | next :: _ => rightIndex' = Some (dataIndex next)
       end.
Proof.
  revert tickList leftIndex rightIndex.
  induction prevRest as [|lastMark rest IH];
    intros tickList leftIndex rightIndex I pr tl li ri E; cbn in E.
  - injection E as <- <- <- <-. split; [exact I | exact Logic.I].
  - destruct (dataIndex lastMark <? currentIndex)%Z.
    + apply (IH _ _ _) in E; [exact E|]. clear E IH.
      destruct I as (S1 & S2 & C & L).
      apply StronglySorted_inv in S2. destruct S2 as [Sr Fr].
      rewrite Forall_forall in Fr.
      repeat split.
      * apply StronglySorted_snoc; [exact S1|].
        intros a Ha. apply C; [exact Ha | left; reflexivity].
      * exact Sr.
      * intros a b Ha Hb. apply in_app_or in Ha. destruct Ha as [Ha|[<-|[]]].
        -- apply C; [exact Ha | right; exact Hb].
        -- apply Fr, Hb.
      * intros a Ha. exists (dataIndex lastMark). split; [reflexivity|].
        apply in_app_or in Ha. destruct Ha as [Ha|[<-|[]]]; [|lia].
        specialize (C a lastMark Ha (or_introl eq_refl)). unfold apartBy in C. lia.
    + injection E as <- <- <- <-. split; [exact I | reflexivity].
Qed.

Lemma mergeCurrentTicks_spaced (currentTicks prevRest tickList : list TimeTick)
    (leftIndex rightIndex : option Z) :
  mergeInvariant n prevRest tickList leftIndex ->
  StronglySorted (apartBy n)
    (mergeCurrentTicks n currentTicks prevRest tickList leftIndex rightIndex).
Proof.
  revert prevRest tickList leftIndex rightIndex.
  induction currentTicks as [|tick more IH];
    intros prevRest tickList leftIndex rightIndex I; cbn.
  - destruct I as (S1 & S2 & C & _). apply StronglySorted_app_intro; assumption.
  - destruct (drainPrevTicks prevRest tickList leftIndex rightIndex (dataIndex tick))
      as [[[pr tl] li] ri] eqn:E.
    destruct (drainPrevTicks_invariant _ _ _ _ _ I _ _ _ _ E) as [I' R].
    destruct (rightFar ri (dataIndex tick) n && leftFar li (dataIndex tick) n) eqn:A;
      [|apply IH; exact I'].
    apply andb_prop in A. destruct A as [Ar Al].
    apply IH. destruct I' as (S1 & S2 & C & L).
    assert (Hleft : forall a, In a tl -> apartBy n a tick).
    { intros a Ha. destruct (L a Ha) as (l & -> & Hl). cbn in Al.
      unfold apartBy. lia. }
    repeat split.
    + apply StronglySorted_snoc; assumption.
    + exact S2.
    + intros a b Ha Hb. apply in_app_or in Ha. destruct Ha as [Ha|[<-|[]]].
      * apply C; assumption.
      * destruct pr as [|next pr']; [destruct Hb|]. subst ri. cbn in Ar.
        apply StronglySorted_inv in S2. destruct S2 as [_ Fn].
        rewrite Forall_forall in Fn. unfold apartBy in *.
        destruct Hb as [<-|Hb]; [lia|]. specialize (Fn b Hb). lia.
    + intros a Ha. exists (dataIndex tick). split; [reflexivity|].
      apply in_app_or in Ha. destruct Ha as [Ha|[<-|[]]]; [|lia].
      specialize (Hleft a Ha). unfold apartBy in Hleft. lia.
Qed.

Lemma mergeInvariant_start (prevTickList : list TimeTick) :
  StronglySorted (apartBy n) prevTickList -> mergeInvariant n prevTickList [] None.
Proof.
  intro S. repeat split; [constructor | exact S | intros a b [] | intros a []].
Qed.

Lemma StronglySorted_filter (f : TimeTick -> bool) (l : list TimeTick) :
  StronglySorted (apartBy n) l -> StronglySorted (apartBy n) (filter f l).
Proof.
  induction 1 as [|a l S IH F]; cbn; [constructor|].
  destruct (f a); [|exact IH]. constructor; [exact IH|].
  rewrite Forall_forall in *. intros b Hb. apply filter_In in Hb. apply F, Hb.
Qed.

Lemma StronglySorted_nth (l : list TimeTick) (i j : nat) (a b : TimeTick) :
  StronglySorted (apartBy n) l -> (i < j)%nat ->
  nth_error l i = Some a -> nth_error l j = Some b -> apartBy n a b.
Proof.
  intro S. revert i j. induction S as [|h t S IH F]; intros i j Hij Ha Hb.
  - destruct i; discriminate Ha.
  - destruct j as [|j]; [lia|]. cbn in Hb. destruct i as [|i].
    + cbn in Ha. injection Ha as <-. rewrite Forall_forall in F.
      apply F. eapply nth_error_In, Hb.
    + cbn in Ha. apply (IH i j); [lia | exact Ha | exact Hb].
Qed.

End TickSpacing.

Lemma mergeAll_spaced (n : Z) (ticks : TimeTickMap) (keys : list Z)
    (prevTickList : list TimeTick) :
  (0 <= n)%Z -> StronglySorted (apartBy n) prevTickList ->
  StronglySorted (apartBy n)
    (fold_left
       (fun prevTickList key =>
          let currentTicks :=
            match Map_get ticks key with Some l => l | None => [] end in
          mergeCurrentTicks n currentTicks prevTickList [] None None)
       keys prevTickList).
Proof.
  intro Hn. revert prevTickList.
  induction keys as [|key keys IH]; intros prev S0; cbn; [exact S0|].
  apply IH. apply mergeCurrentTicks_spaced; [exact Hn|].
  apply mergeInvariant_start, S0.
Qed.

(** The merged list is spaced by the bar count that the code computes. *)
Lemma mergedTickList_spaced (s : Store) :
  (0 <= tickBarCount s)%Z -> StronglySorted (apartBy (tickBarCount s)) (mergedTickList s).
Proof.
  intro Hn. unfold mergedTickList. cbv zeta.
  apply mergeAll_spaced; [exact Hn | constructor].
Qed.

(** The code rounds the tenth of the total space up before it takes the
    maximum: its bar count is at least the spacing of the specification. *)
Lemma minimumTickSpacing_le_tickBarCount (s : Store) :
  0 < _barSpace s -> (minimumTickSpacing s <= tickBarCount s)%Z.
Proof.
  intro Hb. unfold minimumTickSpacing, tickBarCount, Math_ceil.
  apply Qceiling_resp_le. unfold Qdiv at 1 3.
  apply Qmult_le_compat_r; [|apply Qlt_le_weak, Qinv_lt_0_compat, Hb].
  apply Q.max_le_compat_r. apply Qle_ceiling.
Qed.

(** What the code achieves: any two ticks of the list that a run of
    [_adjustVisibleRangeTimeTickList] computes have data indices that differ
    by at least [ceil(max(totalBarSpace / 10, minLabelPixelWidth) / barSpace)],
    for the width and the bar space of the state it runs on. *)
Theorem visible_ticks_spaced (s : Store) (i j : nat) (a b : TimeTick) :
  0 < _barSpace s ->
  (i < j)%nat ->
  nth_error (getVisibleRangeTimeTickList (_adjustVisibleRangeTimeTickList s)) i = Some a ->
  nth_error (getVisibleRangeTimeTickList (_adjustVisibleRangeTimeTickList s)) j = Some b ->
  (minimumTickSpacing s <= Z.abs (dataIndex b - dataIndex a))%Z.
Proof.
  intros Hb Hij Ha Hb'.
  pose proof (minimumTickSpacing_le_tickBarCount s Hb) as Hle.
  destruct (Z.le_gt_cases 0 (tickBarCount s)) as [Hn|Hn]; [|lia].
  unfold getVisibleRangeTimeTickList, _adjustVisibleRangeTimeTickList in Ha, Hb'.
  cbn [_visibleRangeTimeTickList set_visibleRangeTimeTickList] in Ha, Hb'.
  pose proof (StronglySorted_nth _ _ _ _ _ _
                (StronglySorted_filter _ _ _ (mergedTickList_spaced s Hn)) Hij Ha Hb') as R.
  unfold apartBy in R. lia.
Qed.

Lemma visible_ticks_spaced_witness :
  (0 < _barSpace minuteStore
   /\ (0 < 1)%nat
   /\ nth_error (getVisibleRangeTimeTickList (_adjustVisibleRangeTimeTickList minuteStore)) 0
      = Some (mkTimeTick 60 1 (exampleFormat 60000) 60000)
   /\ nth_error (getVisibleRangeTimeTickList (_adjustVisibleRangeTimeTickList minuteStore)) 1
      = Some (mkTimeTick 60 11 (exampleFormat 660000) 660000))
  /\ (minimumTickSpacing minuteStore <= Z.abs (11 - 1))%Z.
Proof.
  assert (H1 : 0 < _barSpace minuteStore) by (vm_compute; reflexivity).
  assert (H2 : (0 < 1)%nat) by lia.
  assert (H3 : nth_error
                 (getVisibleRangeTimeTickList (_adjustVisibleRangeTimeTickList minuteStore)) 0
               = Some (mkTimeTick 60 1 (exampleFormat 60000) 60000))
    by (vm_compute; reflexivity).
  assert (H4 : nth_error
                 (getVisibleRangeTimeTickList (_adjustVisibleRangeTimeTickList minuteStore)) 1
               = Some (mkTimeTick 60 11 (exampleFormat 660000) 660000))
    by (vm_compute; reflexivity).
  split; [repeat split; assumption|].
  exact (visible_ticks_spaced minuteStore 0 1 _ _ H1 H2 H3 H4).
Defined.

(** C6 fails on the list that the store holds.  Sixty one-minute bars in a
    viewport of 600 pixels, label width 100: at bar space 10 the spacing is
    10 bars and the ticks are those of bars 1, 11, ..., 51.
    [setBarSpace(4)] raises the spacing to 25 bars, but all sixty bars stay
    on screen, [from] and [to] do not change, [_adjustVisibleRange] does not
    run [_adjustVisibleRangeTimeTickList], and the store keeps the ticks
    that are 10 bars apart; a run would keep bars 1, 26 and 51. *)
Theorem visible_ticks_stale_after_setBarSpace :
  let s := perform hourStore (SetBarSpace 4) in
  map dataIndex (getVisibleRangeTimeTickList hourStore) = [1; 11; 21; 31; 41; 51]%Z
  /\ minimumTickSpacing hourStore = 10%Z
  /\ _barSpace s == 4
  /\ (from (getVisibleRange hourStore), to (getVisibleRange hourStore)) = (0, 60)%Z
  /\ (from (getVisibleRange s), to (getVisibleRange s)) = (0, 60)%Z
  /\ minimumTickSpacing s = 25%Z
  /\ map dataIndex (getVisibleRangeTimeTickList s) = [1; 11; 21; 31; 41; 51]%Z
  /\ map dataIndex (getVisibleRangeTimeTickList (_adjustVisibleRangeTimeTickList s))
     = [1; 26; 51]%Z
  /\ (exists a b,
        nth_error (getVisibleRangeTimeTickList s) 0 = Some a
        /\ nth_error (getVisibleRangeTimeTickList s) 1 = Some b
        /\ (Z.abs (dataIndex b - dataIndex a) < minimumTickSpacing s)%Z).
Proof.
  cbv zeta. repeat split; try (vm_compute; reflexivity).
  exists (mkTimeTick 60 1 (exampleFormat 60000) 60000),
         (mkTimeTick 60 11 (exampleFormat 660000) 660000).
  repeat split; vm_compute; reflexivity.
Qed.
(** ** Indicator tasks submitted twice (C9) *)

Module IndicatorTasksFacts.
Import IndicatorTasks.

Lemma sameId_eq (a b : string * string) : sameId a b = true <-> a = b.
Proof.
  unfold sameId. destruct a as [a1 a2], b as [b1 b2]. cbn.
  rewrite andb_true_iff, !String.eqb_eq. split.
  - intros [-> ->]. reflexivity.
  - intros [= -> ->]. split; reflexivity.
Qed.

Lemma sameId_refl (a : string * string) : sameId a a = true.
Proof. apply sameId_eq. reflexivity. Qed.

Lemma countFor_app (key : string * string) (l1 l2 : list Task) :
  countFor key (l1 ++ l2) = (countFor key l1 + countFor key l2)%nat.
Proof. unfold countFor. rewrite filter_app, length_app. reflexivity. Qed.

Lemma countFor_replaceOrPush_other (key : string * string) (t : Task) (l : list Task) :
  sameId (generateTaskId t) key = false ->
  countFor key (replaceOrPush t l) = countFor key l.
Proof.
  intro Ht. unfold countFor. induction l as [|h rest IH]; cbn.
  - rewrite Ht. reflexivity.
  - destruct (sameId (generateTaskId h) (generateTaskId t)) eqn:E; cbn.
    + apply sameId_eq in E. rewrite E, Ht. reflexivity.
    + destruct (sameId (generateTaskId h) key); cbn; rewrite IH; reflexivity.
Qed.

Lemma countFor_remove_nth (key : string * string) (n : nat) (l : list Task) (t : Task) :
  nth_error l n = Some t ->
  countFor key l
  = (countFor key (remove_nth n l)
     + if sameId (generateTaskId t) key then 1 else 0)%nat.
Proof.
  unfold countFor. revert n. induction l as [|h rest IH]; intros [|n] E; cbn in *;
    try discriminate.
  - injection E as ->. destruct (sameId (generateTaskId t) key); cbn; lia.
  - specialize (IH n E).
    destruct (sameId (generateTaskId h) key), (sameId (generateTaskId t) key);
      cbn [List.length]; lia.
Qed.

Lemma completions_notify (key : string * string) (sch : Scheduler) (x : Notification)
    (tk inf : list Task) (k : nat) :
  completions key (mkScheduler tk inf (notifications sch ++ [x]) k)
  = (completions key sch + if isCompletion key x then 1 else 0)%nat.
Proof.
  unfold completions. cbn. rewrite filter_app, length_app. cbn.
  destruct (isCompletion key x); reflexivity.
Qed.

Lemma completions_le_load (key : string * string) (sch : Scheduler) :
  (completions key sch <= load key sch)%nat.
Proof. unfold load. lia. Qed.

(** Notifications are only ever added. *)
Lemma completions_step (key : string * string) (sch : Scheduler) (e : Event) :
  (completions key sch <= completions key (step sch e))%nat.
Proof.
  destruct e as [t| |n o]; cbn [step].
  - unfold addTask, completions. cbn. lia.
  - unfold runNext. destruct (tasks sch) as [|t rest]; [lia|].
    unfold handler. cbn [tasks inFlight notifications layouts].
    rewrite completions_notify. unfold completions. cbn. lia.
  - unfold settle. destruct (nth_error (inFlight sch) n) as [t|]; [|lia].
    destruct o as [[|]|]; try rewrite completions_notify;
      unfold completions; cbn; lia.
Qed.

Lemma completions_run (key : string * string) (es : list Event) (sch : Scheduler) :
  (completions key sch <= completions key (run es sch))%nat.
Proof.
  unfold run. revert sch. induction es as [|e es IH]; intro sch; cbn; [lia|].
  etransitivity; [apply completions_step | apply IH].
Qed.

(** A submission for a key that has a pending task replaces that task;
    otherwise the task is queued. *)
Lemma countFor_replaceOrPush_same (key : string * string) (t : Task) (l : list Task) :
  sameId (generateTaskId t) key = true ->
  countFor key (replaceOrPush t l)
  = match countFor key l with O => 1%nat | n => n end.
Proof.
  intro Ht. unfold countFor. induction l as [|h rest IH]; cbn.
  - rewrite Ht. reflexivity.
  - destruct (sameId (generateTaskId h) (generateTaskId t)) eqn:E; cbn.
    + apply sameId_eq in E. rewrite E, Ht. reflexivity.
    + destruct (sameId (generateTaskId h) key) eqn:K; cbn [List.length].
      * apply sameId_eq in K. apply sameId_eq in Ht. rewrite K, <- Ht in E.
        rewrite sameId_refl in E. discriminate E.
      * exact IH.
Qed.

Lemma In_replaceOrPush (t : Task) (l : list Task) : In t (replaceOrPush t l).
Proof.
  induction l as [|h rest IH]; cbn; [left; reflexivity|].
  destruct (sameId _ _); [left; reflexivity | right; exact IH].
Qed.

(** The exact account of a step that is not a submission for the key: the
    load goes down by one when a computation of the key resolves with a
    falsy result, and stays as it is otherwise. *)
Lemma step_load_exact (key : string * string) (sch : Scheduler) (e : Event) :
  addsTaskFor key e = false ->
  (load key (step sch e) + (if settlesFalsy key sch e then 1 else 0))%nat = load key sch.
Proof.
  intro He. destruct e as [t| |n o]; cbn [step addsTaskFor settlesFalsy] in *.
  - unfold load, addTask. cbn [tasks inFlight].
    rewrite (countFor_replaceOrPush_other key t _ He).
    unfold completions. cbn. lia.
  - unfold runNext. destruct (tasks sch) as [|t rest] eqn:E; [lia|].
    unfold load, handler. cbn [tasks inFlight]. rewrite E.
    rewrite completions_notify, countFor_app.
    unfold isCompletion. cbn [state]. rewrite andb_false_r.
    unfold countFor, completions. cbn.
    destruct (sameId (generateTaskId t) key); cbn [List.length]; lia.
  - unfold settle. destruct (nth_error (inFlight sch) n) as [t|] eqn:E.
    + pose proof (countFor_remove_nth key n _ t E) as C.
      unfold load. rewrite C.
      destruct o as [[|]|]; cbn [tasks inFlight].
      * rewrite completions_notify. unfold isCompletion. cbn [state notifiedId].
        rewrite andb_true_r. destruct (sameId (generateTaskId t) key); lia.
      * unfold completions. cbn [notifications].
        destruct (sameId (generateTaskId t) key); lia.
      * rewrite completions_notify. unfold isCompletion. cbn [state notifiedId].
        rewrite andb_true_r. destruct (sameId (generateTaskId t) key); lia.
    + destruct o as [[|]|]; lia.
Qed.

Lemma run_load_exact (key : string * string) (es : list Event) (sch : Scheduler) :
  noSubmission key es = true ->
  (load key (run es sch) + falsyResolutions key es sch)%nat = load key sch.
Proof.
  unfold run, noSubmission. revert sch.
  induction es as [|e es IH]; intros sch H; cbn in *; [lia|].
  apply andb_prop in H. destruct H as [He Hes]. apply negb_true_iff in He.
  pose proof (IH (step sch e) Hes) as A.
  pose proof (step_load_exact key sch e He) as B. lia.
Qed.

Lemma run_app (es1 es2 : list Event) (sch : Scheduler) :
  run (es1 ++ es2) sch = run es2 (run es1 sch).
Proof. unfold run. apply fold_left_app. Qed.

(** The account of two submissions for a key that was idle, the second
    made while the first is pending: after both, whatever else has
    happened in between, the load of the key is one above the completions
    notified before, and its one pending task is the second. *)
Lemma superseded_account (sch : Scheduler) (t1 t2 : Task) (mid : list Event) :
  let key := generateTaskId t2 in
  sameId (generateTaskId t1) key = true ->
  noSubmission key mid = true ->
  countFor key (tasks sch) = 0%nat -> countFor key (inFlight sch) = 0%nat ->
  (1 <= countFor key (tasks (run (AddTask t1 :: mid) sch)))%nat ->
  let sch2 := run (AddTask t1 :: mid ++ [AddTask t2]) sch in
  load key sch2 = S (completions key sch)
  /\ countFor key (tasks sch2) = 1%nat /\ countFor key (inFlight sch2) = 0%nat
  /\ completions key sch2 = completions key sch
  /\ In t2 (tasks sch2).
Proof.
  intros key E Hmid Hp Hf Hpending sch2.
  change (run (AddTask t1 :: mid) sch) with (run mid (addTask t1 sch)) in Hpending.
  assert (E2 : sch2 = addTask t2 (run mid (addTask t1 sch))).
  { unfold sch2. change (AddTask t1 :: mid ++ [AddTask t2])
      with ([AddTask t1] ++ mid ++ [AddTask t2]).
    rewrite !run_app. reflexivity. }
  assert (L1 : load key (addTask t1 sch) = S (completions key sch)).
  { unfold load, addTask. cbn [tasks inFlight].
    rewrite (countFor_replaceOrPush_same key t1 _ E), Hp, Hf.
    unfold completions. cbn. lia. }
  pose proof (run_load_exact key mid (addTask t1 sch) Hmid) as L2.
  pose proof (completions_run key mid (addTask t1 sch)) as C2.
  change (completions key (addTask t1 sch)) with (completions key sch) in C2.
  set (s1 := run mid (addTask t1 sch)) in *.
  unfold load in L2 at 1.
  assert (Hc : countFor key (tasks s1) = 1%nat /\ countFor key (inFlight s1) = 0%nat
               /\ completions key s1 = completions key sch) by lia.
  destruct Hc as (Hc1 & Hc2 & Hc3).
  assert (Hc1' : countFor key (tasks sch2) = 1%nat).
  { rewrite E2. unfold addTask. cbn [tasks].
    rewrite (countFor_replaceOrPush_same key t2 _ (sameId_refl key)), Hc1. reflexivity. }
  assert (Hc2' : countFor key (inFlight sch2) = 0%nat) by (rewrite E2; exact Hc2).
  assert (Hc3' : completions key sch2 = completions key sch) by (rewrite E2; exact Hc3).
  repeat split; try assumption.
  - unfold load. lia.
  - rewrite E2. unfold addTask. cbn [tasks]. apply In_replaceOrPush.
Qed.

(** C9 (as amended).  Two tasks are submitted for a key that had no task
    pending or in flight, the second while the first is still pending
    (its handler has not been run), with any events for other keys
    before, between and after them and no further submission for the
    key.  Then the first task is superseded (the one pending task of the
    key is the second), at most one completion is notified for the key,
    whatever the scheduler and the computations do next, and exactly one
    is once the task of the key has been run and its computation has
    settled other than with a falsy result. *)
Theorem superseded_task_completes_once (sch : Scheduler) (t1 t2 : Task)
    (mid post : list Event) :
  let key := generateTaskId t2 in
  sameId (generateTaskId t1) key = true ->
  noSubmission key mid = true -> noSubmission key post = true ->
  countFor key (tasks sch) = 0%nat -> countFor key (inFlight sch) = 0%nat ->
  (1 <= countFor key (tasks (run (AddTask t1 :: mid) sch)))%nat ->
  let submitted := run (AddTask t1 :: mid ++ [AddTask t2]) sch in
  let final := run post submitted in
  (countFor key (tasks submitted) = 1%nat /\ In t2 (tasks submitted))
  /\ (completions key final <= completions key sch + 1)%nat
  /\ (falsyResolutions key post submitted = 0%nat ->
      countFor key (tasks final) = 0%nat -> countFor key (inFlight final) = 0%nat ->
      completions key final = (completions key sch + 1)%nat).
Proof.
  intros key E Hmid Hpost Hp Hf Hpending submitted final.
  pose proof (superseded_account sch t1 t2 mid E Hmid Hp Hf Hpending) as Acc.
  cbv zeta in Acc. fold key submitted in Acc. destruct Acc as (L & C1 & _ & _ & Hin).
  pose proof (run_load_exact key post submitted Hpost) as A.
  fold final in A. split; [split; assumption|]. split.
  - pose proof (completions_le_load key final). lia.
  - intros F P I. unfold load in A at 1. lia.
Qed.

Lemma superseded_task_completes_once_witness :
  (sameId (generateTaskId maOnInit) (generateTaskId maOnBackward) = true
   /\ noSubmission (generateTaskId maOnBackward) [AddTask volOnInit] = true
   /\ noSubmission (generateTaskId maOnBackward)
        [AddTask volOnBackward; RunNext; RunNext; Settle 0 (Resolved true);
         Settle 0 Rejected] = true
   /\ (1 <= countFor (generateTaskId maOnBackward)
              (tasks (run [AddTask maOnInit; AddTask volOnInit] emptyScheduler)))%nat)
  /\ completions (generateTaskId maOnBackward)
       (run
          [AddTask volOnBackward; RunNext; RunNext; Settle 0 (Resolved true);
           Settle 0 Rejected]
          (run ([AddTask maOnInit; AddTask volOnInit] ++ [AddTask maOnBackward])
             emptyScheduler))
     = 1%nat.
Proof.
  assert (H1 : sameId (generateTaskId maOnInit) (generateTaskId maOnBackward) = true)
    by reflexivity.
  assert (H2 : noSubmission (generateTaskId maOnBackward) [AddTask volOnInit] = true)
    by reflexivity.
  assert (H3 : noSubmission (generateTaskId maOnBackward)
                 [AddTask volOnBackward; RunNext; RunNext; Settle 0 (Resolved true);
                  Settle 0 Rejected] = true) by reflexivity.
  assert (H4 : (1 <= countFor (generateTaskId maOnBackward)
                       (tasks (run [AddTask maOnInit; AddTask volOnInit]
                                 emptyScheduler)))%nat)
    by (vm_compute; lia).
  split; [repeat split; assumption|].
  exact (proj2 (proj2
           (superseded_task_completes_once emptyScheduler maOnInit maOnBackward
              [AddTask volOnInit]
              [AddTask volOnBackward; RunNext; RunNext; Settle 0 (Resolved true);
               Settle 0 Rejected]
              H1 H2 H3 eq_refl eq_refl H4))
           eq_refl eq_refl eq_refl).
Defined.

(** C9, as stated, fails: the second task is submitted after the first
    has been run and before its computation resolves; both computations
    resolve, and [Ready] is notified twice for the key. *)
Lemma second_task_in_flight_completes_twice :
  let sch :=
    run [AddTask maOnInit; RunNext; AddTask maOnInit; RunNext;
         Settle 0 (Resolved true); Settle 0 (Resolved true)] emptyScheduler in
  completions (generateTaskId maOnInit) sch = 2%nat
  /\ map state (notifications sch) = [Loading; Loading; Ready; Ready].
Proof. vm_compute. split; reflexivity. Qed.

End IndicatorTasksFacts.

(** * Further properties of the store *)

(** ** Scroll limits *)

Lemma clamped_unfold (s : Store) :
  clampedLastBarRightSideDiffBarCount s
  = let diff :=
      if Qlt_le_dec (maxRightOffsetBarCount s) (_lastBarRightSideDiffBarCount s)
      then maxRightOffsetBarCount s else _lastBarRightSideDiffBarCount s in
    if Qlt_le_dec diff (minRightOffsetBarCount s) then minRightOffsetBarCount s else diff.
Proof. reflexivity. Qed.

Lemma limits_ext (a b : Store) :
  dataCount a = dataCount b -> _totalBarSpace a = _totalBarSpace b ->
  _barSpace a = _barSpace b -> _scrollLimitRole a = _scrollLimitRole b ->
  _minVisibleBarCount a = _minVisibleBarCount b ->
  _maxOffsetDistance a = _maxOffsetDistance b ->
  maxRightOffsetBarCount a = maxRightOffsetBarCount b
  /\ minRightOffsetBarCount a = minRightOffsetBarCount b.
Proof.
  intros E1 E2 E3 E4 E5 E6.
  unfold maxRightOffsetBarCount, minRightOffsetBarCount, leftMinVisibleBarCount,
    rightMinVisibleBarCount.
  rewrite E1, E2, E3, E4, E5, E6. split; reflexivity.
Qed.

Lemma dataCount_set_offset (v : Q) (s : Store) :
  dataCount (set_lastBarRightSideDiffBarCount v s) = dataCount s.
Proof. reflexivity. Qed.

Lemma totalBarSpace_set_offset (v : Q) (s : Store) :
  _totalBarSpace (set_lastBarRightSideDiffBarCount v s) = _totalBarSpace s.
Proof. reflexivity. Qed.

Lemma barSpace_set_offset (v : Q) (s : Store) :
  _barSpace (set_lastBarRightSideDiffBarCount v s) = _barSpace s.
Proof. reflexivity. Qed.

Lemma derivedVisibleRange_ext (a b : Store) :
  dataCount a = dataCount b -> _totalBarSpace a = _totalBarSpace b ->
  _barSpace a = _barSpace b ->
  _lastBarRightSideDiffBarCount a = _lastBarRightSideDiffBarCount b ->
  derivedVisibleRange a = derivedVisibleRange b.
Proof.
  intros E1 E2 E3 E4. unfold derivedVisibleRange. rewrite E1, E2, E3, E4. reflexivity.
Qed.

(** Clamping a clamped offset returns it. *)
Lemma clamped_idempotent (s : Store) :
  clampedLastBarRightSideDiffBarCount
    (set_lastBarRightSideDiffBarCount (clampedLastBarRightSideDiffBarCount s) s)
  = clampedLastBarRightSideDiffBarCount s.
Proof.
  rewrite (clamped_unfold (set_lastBarRightSideDiffBarCount _ s)).
  change (maxRightOffsetBarCount (set_lastBarRightSideDiffBarCount _ s))
    with (maxRightOffsetBarCount s).
  change (minRightOffsetBarCount (set_lastBarRightSideDiffBarCount _ s))
    with (minRightOffsetBarCount s).
  cbn [_lastBarRightSideDiffBarCount set_lastBarRightSideDiffBarCount].
  rewrite clamped_unfold. cbv zeta.
  set (M := maxRightOffsetBarCount s). set (m := minRightOffsetBarCount s).
  set (d := _lastBarRightSideDiffBarCount s).
  destruct (Qlt_le_dec M d) as [H1|H1].
  - destruct (Qlt_le_dec M m) as [H2|H2].
    + destruct (Qlt_le_dec M m) as [H3|H3]; [|lra].
      destruct (Qlt_le_dec M m); [reflexivity | lra].
    + destruct (Qlt_le_dec M M) as [H3|H3]; [lra|].
      destruct (Qlt_le_dec M m); [lra | reflexivity].
  - destruct (Qlt_le_dec d m) as [H2|H2].
    + destruct (Qlt_le_dec M m) as [H3|H3].
      * destruct (Qlt_le_dec M m); [reflexivity | lra].
      * destruct (Qlt_le_dec m m); [lra | reflexivity].
    + destruct (Qlt_le_dec M d) as [H3|H3]; [lra|].
      destruct (Qlt_le_dec d m); [lra | reflexivity].
Qed.

(** X2.  [_adjustVisibleRange] leaves the right offset at or above the lower
    scroll limit, at or below the upper scroll limit unless the two limits
    are inverted (the lower one then wins), and where a further clamping
    would leave it. *)
Theorem adjustVisibleRange_offset_within_limits (s : Store) :
  let s' := _adjustVisibleRange s in
  minRightOffsetBarCount s' <= _lastBarRightSideDiffBarCount s'
  /\ (minRightOffsetBarCount s' <= maxRightOffsetBarCount s' ->
      _lastBarRightSideDiffBarCount s' <= maxRightOffsetBarCount s')
  /\ offsetWithinLimits s'.
Proof.
  cbv zeta. pose proof (view_adjustVisibleRange s) as V. cbv zeta in V.
  pose proof (dataCount_view _ _ V) as En.
  apply view_fields in V. destruct V as (_ & Eb & Et & Ed & _ & _ & Er & Em & Ex).
  destruct (limits_ext (_adjustVisibleRange s) s) as [EM Emn]; try assumption.
  unfold offsetWithinLimits.
  rewrite (clamped_ext (_adjustVisibleRange s)
             (set_lastBarRightSideDiffBarCount (clampedLastBarRightSideDiffBarCount s) s));
    try assumption.
  rewrite clamped_idempotent, EM, Emn, Ed.
  cbn [_lastBarRightSideDiffBarCount set_visibleRange set_lastBarRightSideDiffBarCount].
  rewrite clamped_unfold. cbv zeta.
  destruct (Qlt_le_dec _ _) as [H1|H1]; destruct (Qlt_le_dec _ _) as [H2|H2];
    repeat split; try reflexivity; intros; lra.
Qed.

(** X3.  Running [_adjustVisibleRange] a second time changes neither the
    right offset nor the visible range. *)
Theorem adjustVisibleRange_idempotent (s : Store) :
  let s' := _adjustVisibleRange s in
  _lastBarRightSideDiffBarCount (_adjustVisibleRange s') = _lastBarRightSideDiffBarCount s'
  /\ _visibleRange (_adjustVisibleRange s') = _visibleRange s'.
Proof.
  cbv zeta. pose proof (view_adjustVisibleRange s) as V. cbv zeta in V.
  pose proof (view_adjustVisibleRange (_adjustVisibleRange s)) as V2. cbv zeta in V2.
  pose proof (dataCount_view _ _ V) as En.
  apply view_fields in V. destruct V as (_ & Eb & Et & Ed & Ev & _ & Er & Em & Ex).
  apply view_fields in V2. destruct V2 as (_ & _ & _ & Ed2 & Ev2 & _).
  assert (Ec : clampedLastBarRightSideDiffBarCount (_adjustVisibleRange s)
               = clampedLastBarRightSideDiffBarCount s).
  { rewrite (clamped_ext (_adjustVisibleRange s)
               (set_lastBarRightSideDiffBarCount (clampedLastBarRightSideDiffBarCount s) s));
      try assumption.
    apply clamped_idempotent. }
  split.
  - rewrite Ed2, Ec, Ed. reflexivity.
  - rewrite Ev2, Ev, Ec. cbn [_visibleRange set_visibleRange].
    apply derivedVisibleRange_ext.
    + rewrite !dataCount_set_offset. exact En.
    + rewrite !totalBarSpace_set_offset. exact Et.
    + rewrite !barSpace_set_offset. exact Eb.
    + reflexivity.
Qed.

(** ** Load-more requests *)

Lemma requestLedger_emit (e : Effect) (s : Store) :
  isLoadMoreData e = false -> requestLedger (emit e s) = requestLedger s.
Proof.
  intro H. unfold requestLedger, loadRequests, emit. cbn.
  rewrite filter_app, length_app. cbn. rewrite H. cbn. lia.
Qed.

Lemma requestLedger_requestMoreData (s : Store) :
  requestLedger (requestMoreData s) = requestLedger s.
Proof.
  unfold requestMoreData.
  destruct (_loading s) eqn:L; cbn [negb andb]; [reflexivity|].
  destruct (_loadMoreDataCallback s); [|reflexivity].
  repeat (break_if; try reflexivity);
    unfold requestLedger, loadRequests, emit; cbn; rewrite L, filter_app, length_app;
    cbn; lia.
Qed.

(** [_adjustVisibleRange] is: the offset and the range, the range-change
    action, the derived lists, then the request for more data. *)
Lemma adjustVisibleRange_decompose (s : Store) :
  exists mid,
    _adjustVisibleRange s = requestMoreData mid
    /\ view mid = view (_adjustVisibleRange s)
    /\ _loading mid = _loading s
    /\ _loadMoreDataCallback mid = _loadMoreDataCallback s
    /\ _effects mid = _effects s ++ [ExecuteOnVisibleRangeChange (_visibleRange mid)].
Proof.
  unfold _adjustVisibleRange.
  match goal with |- context [fold_left ?f ?l ?a] => destruct (fold_left f l a) as [dl hl] end.
  cbv zeta.
  match goal with |- exists mid, requestMoreData ?m = _ /\ _ =>
    exists m; split; [reflexivity|]; rewrite view_requestMoreData
  end.
  break_if; repeat split; reflexivity.
Qed.

Lemma requestLedger_adjustVisibleRange (s : Store) :
  requestLedger (_adjustVisibleRange s) = requestLedger s.
Proof.
  destruct (adjustVisibleRange_decompose s) as (mid & -> & _ & L & _ & E).
  rewrite requestLedger_requestMoreData.
  unfold requestLedger, loadRequests. rewrite L, E, filter_app, length_app. cbn. lia.
Qed.

Lemma requestLedger_setCrosshair (c : option Crosshair) (b : bool) (s : Store) :
  requestLedger (setCrosshair c b s) = requestLedger s.
Proof.
  unfold setCrosshair.
  match goal with |- context [match ?p with (a, b) => _ end] => destruct p as [rdi di] end.
  repeat (break_if; cbn [negb]); rewrite ?requestLedger_emit by reflexivity; reflexivity.
Qed.

Lemma requestLedger_submitIndicators (type : LoadDataType)
    (l : list (string * list string)) (s : Store) :
  requestLedger
    (fold_left
       (fun s '(pane, indicators) =>
          fold_left (fun s name => emit (AddIndicatorCalcTask pane name type) s)
            indicators s) l s)
  = requestLedger s.
Proof.
  revert s. induction l as [|[pane names] l IH]; intro s; cbn; [reflexivity|].
  rewrite IH. clear IH. revert s.
  induction names as [|n names IH]; intro s; cbn; [reflexivity|].
  rewrite IH. apply requestLedger_emit. reflexivity.
Qed.

Lemma requestLedger_refresh (s : Store) :
  requestLedger
    (emit ChartLayout (setCrosshair (Some (_crosshair (_adjustVisibleRange s))) true
                         (_adjustVisibleRange s)))
  = requestLedger s.
Proof.
  rewrite requestLedger_emit by reflexivity.
  rewrite requestLedger_setCrosshair. apply requestLedger_adjustVisibleRange.
Qed.

Lemma requestLedger_afterDataChange (type : LoadDataType) (s : Store) :
  requestLedger (afterDataChange type s) = requestLedger s.
Proof.
  unfold afterDataChange. rewrite requestLedger_emit by reflexivity.
  rewrite requestLedger_submitIndicators, requestLedger_setCrosshair.
  apply requestLedger_adjustVisibleRange.
Qed.

Lemma requestLedger_setBarSpace (barSpace : Q) (f : option (Store -> Store)) (s : Store) :
  (forall g t, f = Some g -> requestLedger (g t) = requestLedger t) ->
  requestLedger (setBarSpace barSpace f s) = requestLedger s.
Proof.
  intro Hf. unfold setBarSpace. repeat (break_if; try reflexivity).
  - cbv zeta. rewrite requestLedger_refresh, (Hf _ _ eq_refl). reflexivity.
  - cbv zeta. rewrite requestLedger_refresh. reflexivity.
Qed.

Lemma requestLedger_same (a b : Store) :
  _effects a = _effects b /\ _loading a = _loading b -> requestLedger a = requestLedger b.
Proof. intros [E L]. unfold requestLedger, loadRequests. rewrite E, L. reflexivity. Qed.

Ltac same_ledger :=
  match goal with
  | |- (requestLedger ?a <= requestLedger ?b + _)%nat =>
      change (requestLedger a) with (requestLedger b); lia
  end.

(** A mutation adds at most the page it delivers to the ledger. *)
Lemma requestLedger_perform (s : Store) (m : Mutation) :
  (requestLedger (perform s m) <= requestLedger s + if isArrayLoad m then 1 else 0)%nat.
Proof.
  destruct m; cbn [perform isArrayLoad].
  - unfold addData. destruct data as [bar|data].
    + cbv zeta. destruct (_ >? _)%Z; [destruct (Qlt_le_dec _ _) | destruct (_ =? _)%Z];
        rewrite ?requestLedger_afterDataChange;
        rewrite ?(requestLedger_same _ _ (effects_assignLastData bar s)); same_ledger.
    + destruct type; cbv zeta; try destruct (_ >? _)%Z;
        rewrite ?requestLedger_afterDataChange;
        unfold requestLedger, loadRequests; cbn [_effects _loading set_loading];
        match goal with |- context [_effects ?a] => change (_effects a) with (_effects s) end;
        destruct (_loading s); lia.
  - rewrite requestLedger_setBarSpace; [lia | discriminate].
  - unfold setTotalBarSpace. destruct (negb _); [|lia]. cbv zeta.
    rewrite requestLedger_setCrosshair, requestLedger_adjustVisibleRange. same_ledger.
  - unfold setOffsetRightDistance. destruct isUpdate; cbv zeta.
    + rewrite requestLedger_refresh. same_ledger.
    + same_ledger.
  - same_ledger.
  - same_ledger.
  - same_ledger.
  - same_ledger.
  - same_ledger.
  - same_ledger.
  - unfold scroll. destruct (negb _); [lia|]. cbv zeta.
    match goal with |- (requestLedger (if ?c then _ else _) <= _)%nat => destruct c end;
      rewrite ?requestLedger_emit by reflexivity;
      rewrite requestLedger_setCrosshair, requestLedger_adjustVisibleRange; same_ledger.
  - unfold zoom. destruct (negb _); [lia|]. cbv zeta.
    match goal with |- (requestLedger (if ?c then _ else _) <= _)%nat => destruct c end;
      rewrite ?requestLedger_emit by reflexivity;
      (rewrite requestLedger_setBarSpace; [lia|]); intros g t [= <-]; reflexivity.
  - rewrite requestLedger_setCrosshair. lia.
  - same_ledger.
  - same_ledger.
  - same_ledger.
  - rewrite (requestLedger_same _ _ (effects_setOptions options created s)). lia.
  - unfold requestLedger, loadRequests. cbn. destruct (_loading s); lia.
Qed.


(** *** The trace only grows *)

Lemma extends_refl (s : Store) : extends s s.
Proof. exists []. rewrite app_nil_r. reflexivity. Qed.

Lemma extends_trans (a b c : Store) : extends a b -> extends b c -> extends a c.
Proof.
  intros [n1 E1] [n2 E2]. exists (n1 ++ n2). rewrite E2, E1, app_assoc. reflexivity.
Qed.

Lemma extends_emit (e : Effect) (s : Store) : extends s (emit e s).
Proof. exists [e]. reflexivity. Qed.

Lemma extends_same (a b : Store) : _effects b = _effects a -> extends a b.
Proof. intro E. exists []. rewrite app_nil_r. exact E. Qed.

Lemma extends_requestMoreData (s : Store) : extends s (requestMoreData s).
Proof.
  unfold requestMoreData.
  repeat (break_if; try apply extends_refl); eexists; reflexivity.
Qed.

Lemma extends_adjustVisibleRange (s : Store) : extends s (_adjustVisibleRange s).
Proof.
  destruct (adjustVisibleRange_decompose s) as (mid & -> & _ & _ & _ & E).
  eapply extends_trans; [|apply extends_requestMoreData]. eexists. exact E.
Qed.

Lemma extends_setCrosshair (c : option Crosshair) (b : bool) (s : Store) :
  extends s (setCrosshair c b s).
Proof.
  unfold setCrosshair.
  match goal with |- context [match ?p with (a, b) => _ end] => destruct p as [rdi di] end.
  repeat (break_if; cbn [negb]);
    repeat (eapply extends_trans; [|apply extends_emit]);
    apply extends_same; reflexivity.
Qed.

Lemma extends_submitIndicators (type : LoadDataType) (l : list (string * list string))
    (s : Store) :
  extends s
    (fold_left
       (fun s '(pane, indicators) =>
          fold_left (fun s name => emit (AddIndicatorCalcTask pane name type) s)
            indicators s) l s).
Proof.
  revert s. induction l as [|[pane names] l IH]; intro s; cbn; [apply extends_refl|].
  eapply extends_trans; [|apply IH]. clear IH. revert s.
  induction names as [|n names IH]; intro s; cbn; [apply extends_refl|].
  eapply extends_trans; [apply extends_emit | apply IH].
Qed.

Lemma extends_refresh (s : Store) :
  extends s
    (emit ChartLayout (setCrosshair (Some (_crosshair (_adjustVisibleRange s))) true
                         (_adjustVisibleRange s))).
Proof.
  eapply extends_trans; [apply extends_adjustVisibleRange|].
  eapply extends_trans; [apply extends_setCrosshair | apply extends_emit].
Qed.

Lemma extends_afterDataChange (type : LoadDataType) (s : Store) :
  extends s (afterDataChange type s).
Proof.
  unfold afterDataChange.
  eapply extends_trans; [apply extends_adjustVisibleRange|].
  eapply extends_trans; [apply extends_setCrosshair|].
  eapply extends_trans; [apply extends_submitIndicators | apply extends_emit].
Qed.

Lemma extends_setBarSpace (barSpace : Q) (f : option (Store -> Store)) (s : Store) :
  (forall g t, f = Some g -> _effects (g t) = _effects t) ->
  extends s (setBarSpace barSpace f s).
Proof.
  intro Hf. unfold setBarSpace. repeat (break_if; try apply extends_refl); cbv zeta.
  - eapply extends_trans; [|apply extends_refresh].
    apply extends_same. rewrite (Hf _ _ eq_refl). reflexivity.
  - eapply extends_trans; [|apply extends_refresh]. apply extends_same. reflexivity.
Qed.

Ltac extends_via t :=
  eapply extends_trans; [|apply t]; apply extends_same;
  first [reflexivity | apply effects_assignLastData].

(** No mutation rewrites the trace: it appends to it. *)
Lemma extends_perform (s : Store) (m : Mutation) : extends s (perform s m).
Proof.
  destruct m; cbn [perform]; try (apply extends_same; reflexivity).
  - unfold addData. destruct data as [bar|data].
    + cbv zeta. destruct (_ >? _)%Z; [destruct (Qlt_le_dec _ _) | destruct (_ =? _)%Z];
        try apply extends_refl; extends_via extends_afterDataChange.
    + destruct type; cbv zeta; try destruct (_ >? _)%Z;
        try (apply extends_same; reflexivity); extends_via extends_afterDataChange.
  - apply extends_setBarSpace. discriminate.
  - unfold setTotalBarSpace. destruct (negb _); [|apply extends_refl]. cbv zeta.
    eapply extends_trans; [|apply extends_setCrosshair].
    extends_via extends_adjustVisibleRange.
  - unfold setOffsetRightDistance. destruct isUpdate; cbv zeta.
    + extends_via extends_refresh.
    + apply extends_same. reflexivity.
  - unfold scroll. destruct (negb _); [apply extends_refl|]. cbv zeta.
    match goal with |- extends _ (if ?c then _ else _) => destruct c end;
      [eapply extends_trans; [|apply extends_emit]|]; extends_via extends_refresh.
  - unfold zoom. destruct (negb _); [apply extends_refl|]. cbv zeta.
    match goal with |- extends _ (if ?c then _ else _) => destruct c end;
      [eapply extends_trans; [|apply extends_emit]|];
      apply extends_setBarSpace; intros g t [= <-]; reflexivity.
  - apply extends_setCrosshair.
  - apply extends_same, effects_setOptions.
Qed.

Lemma loadRequests_extends (a b : Store) :
  extends a b -> (loadRequests a <= loadRequests b)%nat.
Proof.
  intros [n E]. unfold loadRequests. rewrite E, filter_app, length_app. lia.
Qed.

(** X5.  While a request is in flight ([_loading] is on), a mutation that
    delivers no page makes no request and leaves [_loading] on. *)
Theorem no_request_while_loading (s : Store) (m : Mutation) :
  _loading s = true -> isArrayLoad m = false ->
  loadRequests (perform s m) = loadRequests s /\ _loading (perform s m) = true.
Proof.
  intros L A.
  pose proof (requestLedger_perform s m) as H. rewrite A in H.
  pose proof (loadRequests_extends _ _ (extends_perform s m)) as G.
  unfold requestLedger in H. rewrite L in H.
  destruct (_loading (perform s m)); split; try reflexivity; lia.
Qed.

Lemma no_request_while_loading_witness :
  (_loading (newStore exampleFormat 100) = true
   /\ isArrayLoad (SetTotalBarSpace 200) = false)
  /\ loadRequests (perform (newStore exampleFormat 100) (SetTotalBarSpace 200))
     = loadRequests (newStore exampleFormat 100).
Proof.
  assert (H1 : _loading (newStore exampleFormat 100) = true) by reflexivity.
  assert (H2 : isArrayLoad (SetTotalBarSpace 200) = false) by reflexivity.
  split; [split; assumption|].
  exact (proj1 (no_request_while_loading _ _ H1 H2)).
Defined.

(** ** Where the bars are drawn *)

(** The centre of bar [i], before rounding to a pixel. *)
Lemma pixel_bounds (s : Store) (i : Z) :
  inject_Z (dataIndexToCoordinate s (inject_Z i)) <= barCentre s i + (1 # 2)
  /\ barCentre s i - (1 # 2) < inject_Z (dataIndexToCoordinate s (inject_Z i)).
Proof.
  unfold dataIndexToCoordinate, barCentre, Math_floor. cbv zeta.
  match goal with |- context [Qfloor ?c] =>
    pose proof (Qfloor_le c) as H1; pose proof (Qlt_floor c) as H2;
    rewrite inject_Z_plus in H2; change (inject_Z 1) with 1 in H2;
    set (x := inject_Z (Qfloor c)) in *
  end.
  split; lra.
Qed.

Lemma barCentre_step (s : Store) (i j : Z) :
  barCentre s j - barCentre s i == (inject_Z j - inject_Z i) * _barSpace s.
Proof. unfold barCentre. ring. Qed.

(** In exact arithmetic each pixel is within half a pixel of the centre of
    its bar, and the centres are evenly spaced. *)
Lemma bar_pixels_spacing_exact (s : Store) (i j : Z) :
  let x k := inject_Z (dataIndexToCoordinate s (inject_Z k)) in
  inject_Z (j - i) * _barSpace s - 1 < x j - x i
  /\ x j - x i < inject_Z (j - i) * _barSpace s + 1.
Proof.
  cbv zeta. pose proof (pixel_bounds s i) as [A1 A2].
  pose proof (pixel_bounds s j) as [B1 B2].
  pose proof (barCentre_step s i j) as E.
  unfold Zminus. rewrite inject_Z_plus, inject_Z_opp.
  split; lra.
Qed.

(** X6.  The pixels of two bars differ by their distance in bars times the
    bar space, to less than two pixels: each of the two pixels is the floor
    of a centre, less than one pixel in all when the centres are exact, and
    the second pixel is the room for a floor that lands on the neighbouring
    integer. *)
Theorem bar_pixels_evenly_spaced (s : Store) (i j : Z) :
  let x k := inject_Z (dataIndexToCoordinate s (inject_Z k)) in
  Qabs (x j - x i - inject_Z (j - i) * _barSpace s) < 2.
Proof.
  cbv zeta. destruct (bar_pixels_spacing_exact s i j) as [A B]. cbv zeta in A, B.
  apply Qabs_Qlt_condition. split; lra.
Qed.

(** X7.  With a bar space of at least one pixel (as [setBarSpace] keeps it),
    later bars are drawn strictly further right: no two bars share a
    pixel. *)
Theorem bar_pixels_increase (s : Store) (i j : Z) :
  1 <= _barSpace s -> (i < j)%Z ->
  (dataIndexToCoordinate s (inject_Z i) < dataIndexToCoordinate s (inject_Z j))%Z.
Proof.
  intros Hb Hij.
  pose proof (barCentre_step s i j) as E.
  assert (Hd : 1 <= inject_Z j - inject_Z i).
  { assert (i + 1 <= j)%Z as H by lia. rewrite Zle_Qle, inject_Z_plus in H.
    change (inject_Z 1) with 1 in H. lra. }
  assert (Hc : 1 <= (inject_Z j - inject_Z i) * _barSpace s) by nra.
  unfold dataIndexToCoordinate, Math_floor, barCentre in *. cbv zeta.
  match goal with |- (Qfloor ?a < Qfloor ?b)%Z =>
    assert (Hs : a + inject_Z 1 <= b) by (change (inject_Z 1) with 1; lra);
    pose proof (Qfloor_resp_le _ _ Hs) as Hm
  end.
  rewrite Qfloor_plus_Z in Hm. lia.
Qed.

Lemma bar_pixels_increase_witness :
  (dataIndexToCoordinate twoBarStore (inject_Z 0)
   < dataIndexToCoordinate twoBarStore (inject_Z 1))%Z.
Proof.
  apply bar_pixels_increase; [vm_compute; discriminate | lia].
Defined.

(** ** The crosshair *)

Lemma at_index_in_range {A : Type} (l : list A) (i : Z) :
  (0 <= i < Z.of_nat (List.length l))%Z -> exists a, at_index l i = Some a.
Proof.
  intros H. unfold at_index. destruct (Z.ltb_spec i 0); [lia|].
  destruct (nth_error l (Z.to_nat i)) eqn:E; [eexists; reflexivity|].
  apply nth_error_None in E. lia.
Qed.

Lemma at_index_out_of_range {A : Type} (l : list A) (i : Z) :
  (i < 0 \/ Z.of_nat (List.length l) <= i)%Z -> at_index l i = None.
Proof.
  intros H. unfold at_index. destruct (Z.ltb_spec i 0); [reflexivity|].
  apply nth_error_None. lia.
Qed.

(** The crosshair that [setCrosshair] stores, whatever it notifies. *)
Lemma crosshair_setCrosshair (c : option Crosshair) (b : bool) (s : Store) :
  _crosshair (setCrosshair c b s)
  = mkCrosshair (x (crosshairOrEmpty c)) (y (crosshairOrEmpty c))
      (paneId (crosshairOrEmpty c))
      (Some (dataIndexToCoordinate s (inject_Z (fst (crosshairIndices s (crosshairOrEmpty c))))))
      (dataAt s (snd (crosshairIndices s (crosshairOrEmpty c))))
      (Some (fst (crosshairIndices s (crosshairOrEmpty c))))
      (Some (snd (crosshairIndices s (crosshairOrEmpty c)))).
Proof.
  unfold setCrosshair. fold (crosshairOrEmpty c).
  change (match x (crosshairOrEmpty c) with
          | Some crx => _
          | None => _
          end) with (crosshairIndices s (crosshairOrEmpty c)).
  destruct (crosshairIndices s (crosshairOrEmpty c)) as [rdi di]. cbn [fst snd].
  repeat (break_if; cbn [negb]); reflexivity.
Qed.

(** X8.  With data loaded, the crosshair is always on a bar of the list: its
    data index is within [0, dataCount - 1] and its [kLineData] is the bar
    at that index, wherever the pointer is. *)
Theorem crosshair_on_existing_bar (c : option Crosshair) (notInvalidate : bool)
    (s : Store) :
  (0 < dataCount s)%Z ->
  exists i bar,
    cr_dataIndex (_crosshair (setCrosshair c notInvalidate s)) = Some i
    /\ (0 <= i < dataCount s)%Z
    /\ kLineData (_crosshair (setCrosshair c notInvalidate s)) = Some bar
    /\ at_index (_dataList s) i = Some bar.
Proof.
  intro Hn. rewrite crosshair_setCrosshair. cbn [cr_dataIndex kLineData].
  set (i := snd (crosshairIndices s (crosshairOrEmpty c))).
  assert (Hi : (0 <= i < dataCount s)%Z).
  { unfold i, crosshairIndices. destruct (x (crosshairOrEmpty c)) as [crx|]; cbv zeta.
    - destruct (Z.ltb_spec (coordinateToDataIndex s crx) 0); cbn [snd]; [lia|].
      destruct (Z.gtb_spec (coordinateToDataIndex s crx) (dataCount s - 1));
        cbn [snd]; lia.
    - cbn [snd]. lia. }
  destruct (at_index_in_range (_dataList s) i Hi) as [bar E].
  exists i, bar. rewrite dataAt_nonneg, E by lia. repeat split; try reflexivity; lia.
Qed.

Lemma crosshair_on_existing_bar_witness :
  exists i bar,
    cr_dataIndex (_crosshair (setCrosshair None false twoBarStore)) = Some i
    /\ (0 <= i < dataCount twoBarStore)%Z
    /\ kLineData (_crosshair (setCrosshair None false twoBarStore)) = Some bar
    /\ at_index (_dataList twoBarStore) i = Some bar.
Proof.
  apply crosshair_on_existing_bar. vm_compute. reflexivity.
Defined.

Lemma newEffects_app (a b : Store) (new : list Effect) :
  _effects b = _effects a ++ new -> newEffects a b = new.
Proof.
  intro E. unfold newEffects. rewrite E, skipn_app, skipn_all, Nat.sub_diag.
  reflexivity.
Qed.

(** X9.  Without data, and with no bar stored under the key [-1] of the
    list, the crosshair carries no bar and the chart is not told of a
    crosshair change. *)
Theorem crosshair_without_data (c : option Crosshair) (notInvalidate : bool)
    (s : Store) :
  dataCount s = 0%Z -> _dataListMinus1 s = None ->
  kLineData (_crosshair (setCrosshair c notInvalidate s)) = None
  /\ forall cr,
       ~ In (ChartCrosshairChange cr) (newEffects s (setCrosshair c notInvalidate s)).
Proof.
  intros Hn Hm.
  assert (Hk : dataAt s (snd (crosshairIndices s (crosshairOrEmpty c))) = None).
  { rewrite (dataAt_without_property s _ Hm).
    unfold dataCount in Hn. destruct (_dataList s); [|discriminate].
    unfold at_index. destruct (_ <? _)%Z; [reflexivity|]. apply nth_error_None. cbn. lia. }
  split.
  - rewrite crosshair_setCrosshair. exact Hk.
  - unfold setCrosshair. fold (crosshairOrEmpty c).
    change (match x (crosshairOrEmpty c) with
            | Some crx => _
            | None => _
            end) with (crosshairIndices s (crosshairOrEmpty c)).
    destruct (crosshairIndices s (crosshairOrEmpty c)) as [rdi di]. cbn [fst snd] in Hk.
    cbv zeta. rewrite Hk.
    intros cr. repeat (break_if; cbn [negb]).
    all: try (erewrite newEffects_app by reflexivity; cbn; intuition discriminate).
    all: erewrite newEffects_app by (symmetry; apply app_nil_r); cbn; tauto.
Qed.

Lemma crosshair_without_data_witness :
  (dataCount (newStore exampleFormat 100) = 0%Z
   /\ _dataListMinus1 (newStore exampleFormat 100) = None)
  /\ kLineData (_crosshair (setCrosshair None false (newStore exampleFormat 100))) = None.
Proof.
  split; [split; reflexivity|].
  apply (crosshair_without_data None false (newStore exampleFormat 100)); reflexivity.
Defined.

(** A bar with time stamp 0 that is added to an empty list is stored under
    the key [-1]: the list stays empty, and the crosshair of a pointer
    without [x] carries that bar. *)
Example crosshair_on_bar_under_minus_one :
  let s := addData (inl (exampleBar 0 1 2)) Backward None (newStore exampleFormat 100) in
  dataCount s = 0%Z
  /\ _dataListMinus1 s = Some (exampleBar 0 1 2)
  /\ kLineData (_crosshair (setCrosshair None false s)) = Some (exampleBar 0 1 2).
Proof. vm_compute. repeat split; reflexivity. Qed.

(** The pixel of the bar under a coordinate is within half a bar (and the
    two roundings) of the coordinate. *)
Lemma pixel_of_index_of_coordinate (s : Store) (crx : Q) :
  0 < _barSpace s ->
  Qabs (inject_Z (dataIndexToCoordinate s (inject_Z (coordinateToDataIndex s crx))) - crx)
  <= _barSpace s * ((1 # 2) + (1 # 2000000)) + (1 # 2).
Proof.
  intros Hb.
  pose proof (pixel_bounds s (coordinateToDataIndex s crx)) as [P1 P2].
  set (px := inject_Z (dataIndexToCoordinate s (inject_Z (coordinateToDataIndex s crx)))) in *.
  unfold barCentre in P1, P2.
  unfold coordinateToDataIndex, coordinateToFloatIndex, Math_ceil in *. cbv zeta in *.
  set (n := inject_Z (dataCount s)) in *. set (d := _lastBarRightSideDiffBarCount s) in *.
  set (T := _totalBarSpace s) in *. set (b := _barSpace s) in *.
  set (e := n + d - (T - crx) / b) in *.
  destruct (Math_round_bounds (e * 1000000)) as [Hr1 Hr2].
  set (k := Math_round (e * 1000000)) in *.
  assert (Ek : inject_Z k / 1000000 == inject_Z k * (1 # 1000000)) by field.
  pose proof (Qle_ceiling (inject_Z k / 1000000)) as C1.
  pose proof (Qceiling_lt (inject_Z k / 1000000)) as C2.
  set (c := Qceiling (inject_Z k / 1000000)) in *.
  rewrite Ek in C1, C2.
  unfold Zminus in *. rewrite ?inject_Z_plus in *.
  change (inject_Z (Z.opp 1)) with (-1) in *.
  set (r := inject_Z c) in *.
  assert (Ex : crx == T - (n + d - e) * b) by (unfold e; field; lra).
  set (w := r + -1 + 0.5 - e).
  assert (Hw1 : - ((1 # 2) + (1 # 2000000)) <= w) by (unfold w; lra).
  assert (Hw2 : w <= (1 # 2) + (1 # 2000000)) by (unfold w; lra).
  assert (Ec : T - (n + d - (r + -1) - 0.5) * b - crx == w * b).
  { unfold w. lra. }
  assert (Hm1 : - ((1 # 2) + (1 # 2000000)) * b <= w * b).
  { apply Qmult_le_compat_r; [exact Hw1 | lra]. }
  assert (Hm2 : w * b <= ((1 # 2) + (1 # 2000000)) * b).
  { apply Qmult_le_compat_r; [exact Hw2 | lra]. }
  clearbody px w r k e. apply Qabs_Qle_condition. split; lra.
Qed.

(** X10.  The vertical line of the crosshair ([realX]) is drawn within half a
    bar, half a pixel and the rounding of the float index of the pointer. *)
Theorem crosshair_line_near_pointer (c : Crosshair) (notInvalidate : bool)
    (s : Store) (crx : Q) :
  x c = Some crx -> 0 < _barSpace s ->
  exists rx,
    realX (_crosshair (setCrosshair (Some c) notInvalidate s)) = Some rx
    /\ Qabs (inject_Z rx - crx) <= _barSpace s * ((1 # 2) + (1 # 2000000)) + (1 # 2).
Proof.
  intros Hx Hb. rewrite crosshair_setCrosshair. cbn [realX crosshairOrEmpty].
  eexists. split; [reflexivity|].
  assert (E : fst (crosshairIndices s c) = coordinateToDataIndex s crx).
  { unfold crosshairIndices. rewrite Hx. cbv zeta.
    repeat (break_if; cbn [fst]); reflexivity. }
  rewrite E. apply pixel_of_index_of_coordinate, Hb.
Qed.

Lemma crosshair_line_near_pointer_witness :
  exists rx,
    realX (_crosshair (setCrosshair (Some (mkCrosshair (Some 117) None None None None None None))
                         false twoBarStore)) = Some rx
    /\ Qabs (inject_Z rx - 117) <= _barSpace twoBarStore * ((1 # 2) + (1 # 2000000)) + (1 # 2).
Proof.
  apply crosshair_line_near_pointer; [reflexivity | vm_compute; reflexivity].
Defined.

(** ** What one recomputation of the viewport notifies *)

Lemma adjustVisibleRange_view_fields (s : Store) :
  let s1 :=
    set_lastBarRightSideDiffBarCount (clampedLastBarRightSideDiffBarCount s) s in
  _dataList (_adjustVisibleRange s) = _dataList s
  /\ _barSpace (_adjustVisibleRange s) = _barSpace s
  /\ _totalBarSpace (_adjustVisibleRange s) = _totalBarSpace s
  /\ _lastBarRightSideDiffBarCount (_adjustVisibleRange s)
     = clampedLastBarRightSideDiffBarCount s
  /\ _visibleRange (_adjustVisibleRange s) = derivedVisibleRange s1
  /\ _loadDataMore (_adjustVisibleRange s) = _loadDataMore s.
Proof.
  pose proof (view_adjustVisibleRange s) as V. cbv zeta in *.
  apply view_fields in V.
  destruct V as (-> & -> & -> & -> & -> & -> & _). repeat split; reflexivity.
Qed.

(** X11.  One recomputation of the viewport calls [onVisibleRangeChange] once,
    with the new range, and then asks for at most one page: older bars when
    the range starts at the first bar and more are announced, newer bars
    when it ends at the last bar and more are announced; it asks only when
    a callback is registered and no request is in flight, and marks the
    request as in flight. *)
Theorem adjustVisibleRange_notifications (s : Store) :
  let s' := _adjustVisibleRange s in
  exists request,
    newEffects s s' = ExecuteOnVisibleRangeChange (_visibleRange s') :: request
    /\ (request = [] /\ _loading s' = _loading s
        \/ (request = [LoadMoreData Forward (dataAt s 0)]
            \/ request = [LoadMoreData Backward (dataAt s (dataCount s - 1))])
           /\ _loading s = false /\ _loadMoreDataCallback s = true
           /\ _loading s' = true)
    /\ (In (LoadMoreData Forward (dataAt s 0)) request ->
        from (_visibleRange s') = 0%Z /\ forward (_loadDataMore s) = true)
    /\ (In (LoadMoreData Backward (dataAt s (dataCount s - 1))) request ->
        to (_visibleRange s') = dataCount s /\ backward (_loadDataMore s) = true).
Proof.
  cbv zeta.
  destruct (adjustVisibleRange_decompose s) as (mid & E & V & L & C & T).
  pose proof (adjustVisibleRange_view_fields s) as F. cbv zeta in F.
  destruct F as (Fd & _ & _ & _ & _ & Fm).
  pose proof V as V0. apply view_fields in V. destruct V as (Vd & _ & _ & _ & Vr & Vm & _).
  assert (A : forall i, dataAt s i = dataAt mid i).
  { intro i. rewrite (dataAt_view mid _ i V0).
    pose proof (view_adjustVisibleRange s) as V1. cbv zeta in V1.
    rewrite (dataAt_view _ _ i V1). reflexivity. }
  rewrite <- Vr, <- Fm, <- Vm, E, <- L, <- C.
  assert (N : dataCount s = dataCount mid).
  { unfold dataCount. rewrite <- Fd, <- Vd. reflexivity. }
  rewrite N, !A. clear - T.
  unfold requestMoreData.
  destruct (_loading mid) eqn:L, (_loadMoreDataCallback mid) eqn:C; cbn [negb andb].
  all: try (exists []; split; [apply newEffects_app; exact T|];
            split; [left; split; [reflexivity | exact L]|]; split; intros []).
  destruct (Z.eqb_spec (from (_visibleRange mid)) 0) as [Hf|Hf].
  - destruct (forward (_loadDataMore mid)) eqn:Fw.
    + eexists. split.
      * apply newEffects_app. cbn. rewrite T, <- app_assoc. reflexivity.
      * split; [right; repeat split; left; reflexivity|].
        split; [intros _; split; [assumption | reflexivity]|].
        intros [H|[]]. discriminate H.
    + exists []. split; [apply newEffects_app; exact T|].
      split; [left; split; [reflexivity | exact L]|]. split; intros [].
  - destruct (Z.eqb_spec (to (_visibleRange mid)) (dataCount mid)) as [Ht|Ht].
    + destruct (backward (_loadDataMore mid)) eqn:Bw.
      * eexists. split.
        -- apply newEffects_app. cbn. rewrite T, <- app_assoc. reflexivity.
        -- split; [right; repeat split; right; reflexivity|].
           split; [intros [H|[]]; discriminate H|].
           intros _. split; [assumption | reflexivity].
      * exists []. split; [apply newEffects_app; exact T|].
        split; [left; split; [reflexivity | exact L]|]. split; intros [].
    + exists []. split; [apply newEffects_app; exact T|].
      split; [left; split; [reflexivity | exact L]|]. split; intros [].
Qed.

(** ** The visible bars and their extremes *)

Lemma dataIndexToCoordinate_ext (a b : Store) (i : Q) :
  view a = view b -> dataIndexToCoordinate a i = dataIndexToCoordinate b i.
Proof.
  intro V. pose proof (dataCount_view _ _ V) as N. apply view_fields in V.
  destruct V as (_ & B & T & D & _). unfold dataIndexToCoordinate.
  rewrite N, B, T, D. reflexivity.
Qed.

Lemma visitVisibleBar_ext (a b : Store) acc (i : Z) :
  view a = view b -> visitVisibleBar a acc i = visitVisibleBar b acc i.
Proof.
  intro V. unfold visitVisibleBar.
  rewrite (dataIndexToCoordinate_ext a b _ V), (dataAt_view a b i V). reflexivity.
Qed.

Lemma fold_visitVisibleBar_ext (a b : Store) (l : list Z) acc :
  view a = view b ->
  fold_left (visitVisibleBar a) l acc = fold_left (visitVisibleBar b) l acc.
Proof.
  intro V. revert acc. induction l as [|i l IH]; intro acc; cbn; [reflexivity|].
  rewrite (visitVisibleBar_ext a b acc i V). apply IH.
Qed.

Lemma lists_requestMoreData (s : Store) :
  _visibleRangeDataList (requestMoreData s) = _visibleRangeDataList s
  /\ _visibleRangeHighLowPrice (requestMoreData s) = _visibleRangeHighLowPrice s.
Proof. unfold requestMoreData. repeat (break_if; cbn); split; reflexivity. Qed.

(** The two derived lists are the loop over [realFrom <= i < realTo], run
    on the new viewport. *)
Lemma adjustVisibleRange_lists (s : Store) :
  let s' := _adjustVisibleRange s in
  (_visibleRangeDataList s', _visibleRangeHighLowPrice s')
  = fold_left (visitVisibleBar s')
      (index_range (realFrom (_visibleRange s')) (realTo (_visibleRange s')))
      ([], defaultHighLowPrice).
Proof.
  cbv zeta.
  pose proof (view_adjustVisibleRange s) as V. cbv zeta in V.
  pose proof (adjustVisibleRange_view_fields s) as F. cbv zeta in F.
  destruct F as (_ & _ & _ & _ & -> & _).
  rewrite (fold_visitVisibleBar_ext _ _ _ _ V). clear V.
  unfold _adjustVisibleRange.
  match goal with |- context [fold_left ?f ?l ?a] =>
    destruct (fold_left f l a) as [dl hl] eqn:E
  end.
  cbv zeta.
  match goal with |- context [requestMoreData ?m] =>
    destruct (lists_requestMoreData m) as [-> ->]
  end.
  break_if; (transitivity (dl, hl); [reflexivity|]); rewrite <- E;
    apply fold_visitVisibleBar_ext; reflexivity.
Qed.

Lemma In_index_range (lo hi i : Z) : In i (index_range lo hi) <-> (lo <= i < hi)%Z.
Proof.
  unfold index_range. rewrite in_map_iff. split.
  - intros (k & <- & H). apply in_seq in H. lia.
  - intros H. exists (Z.to_nat (i - lo)). split; [lia|]. apply in_seq. lia.
Qed.

(** The entry of the visible data list for bar [i]. *)
Lemma fold_visit_dataList (s : Store) (l : list Z) acc :
  fst (fold_left (visitVisibleBar s) l acc)
  = fst acc ++ map (visibleEntry s) l.
Proof.
  revert acc. induction l as [|i l IH]; intros [dl [hi lo]]; cbn [fold_left map].
  - rewrite app_nil_r. reflexivity.
  - rewrite IH. unfold visitVisibleBar, visibleEntry.
    destruct (dataAt s i); cbn [fst]; rewrite <- app_assoc; reflexivity.
Qed.

Lemma fold_visit_monotone (s : Store) (l : list Z) acc :
  price (fst (snd acc)) <= price (fst (snd (fold_left (visitVisibleBar s) l acc)))
  /\ price (snd (snd (fold_left (visitVisibleBar s) l acc))) <= price (snd (snd acc)).
Proof.
  revert acc. induction l as [|i l IH]; intros [dl [hi lo]]; cbn [fold_left].
  - split; apply Qle_refl.
  - match goal with |- context [fold_left _ l ?a] => destruct (IH a) as [H1 H2] end.
    split; [eapply Qle_trans; [|exact H1] | eapply Qle_trans; [exact H2|]];
      unfold visitVisibleBar; destruct (dataAt s i);
      cbn [fst snd]; try apply Qle_refl;
      destruct (Qlt_le_dec _ _); cbn [price]; try apply Qle_refl;
      apply Qlt_le_weak; assumption.
Qed.

Lemma fold_visit_bounds (s : Store) (l : list Z) acc (i : Z) (k : KLineData) :
  In i l -> dataAt s i = Some k ->
  high k <= price (fst (snd (fold_left (visitVisibleBar s) l acc)))
  /\ price (snd (snd (fold_left (visitVisibleBar s) l acc))) <= low k.
Proof.
  revert acc. induction l as [|j l IH]; intros acc [].
  - subst j. intro K. cbn [fold_left].
    match goal with |- context [fold_left _ l ?a] =>
      destruct (fold_visit_monotone s l a) as [H1 H2]
    end.
    split; [eapply Qle_trans; [|exact H1] | eapply Qle_trans; [exact H2|]];
      destruct acc as [dl [hi lo]]; unfold visitVisibleBar; rewrite K;
      cbn [fst snd]; destruct (Qlt_le_dec _ _); cbn [price];
      try apply Qle_refl; assumption.
  - intro K. cbn [fold_left]. apply IH; assumption.
Qed.

Lemma fold_visit_attained (s : Store) (l : list Z) acc :
  (fst (snd (fold_left (visitVisibleBar s) l acc)) = fst (snd acc)
   \/ exists i k, In i l /\ dataAt s i = Some k
        /\ fst (snd (fold_left (visitVisibleBar s) l acc))
           = mkHighLowPrice (dataIndexToCoordinate s (inject_Z i)) (high k))
  /\ (snd (snd (fold_left (visitVisibleBar s) l acc)) = snd (snd acc)
      \/ exists i k, In i l /\ dataAt s i = Some k
           /\ snd (snd (fold_left (visitVisibleBar s) l acc))
              = mkHighLowPrice (dataIndexToCoordinate s (inject_Z i)) (low k)).
Proof.
  revert acc. induction l as [|j l IH]; intros acc; cbn [fold_left].
  - split; left; reflexivity.
  - destruct (IH (visitVisibleBar s acc j)) as [[H1|(i & k & I & K & H1)]
                                                  [H2|(i' & k' & I' & K' & H2)]];
      split.
    all: try (right; exists i, k; split; [right; exact I | split; [exact K | exact H1]]).
    all: try (right; exists i', k'; split; [right; exact I' | split; [exact K' | exact H2]]).
    all: try rewrite H1; try rewrite H2; destruct acc as [dl [hi lo]];
      unfold visitVisibleBar; destruct (dataAt s j) as [kj|] eqn:Kj;
      cbn [fst snd]; try (left; reflexivity);
      destruct (Qlt_le_dec _ _); try (left; reflexivity);
      right; exists j, kj; (split; [left; reflexivity | split; [exact Kj | reflexivity]]).
Qed.

Lemma lists_of_fold (s' : Store) :
  (_visibleRangeDataList s', _visibleRangeHighLowPrice s')
  = fold_left (visitVisibleBar s')
      (index_range (realFrom (_visibleRange s')) (realTo (_visibleRange s')))
      ([], defaultHighLowPrice) ->
  _visibleRangeDataList s'
  = map (visibleEntry s')
      (index_range (realFrom (_visibleRange s')) (realTo (_visibleRange s')))
  /\ (forall i k,
        (realFrom (_visibleRange s') <= i < realTo (_visibleRange s'))%Z ->
        dataAt s' i = Some k ->
        high k <= price (fst (_visibleRangeHighLowPrice s'))
        /\ price (snd (_visibleRangeHighLowPrice s')) <= low k)
  /\ (fst (_visibleRangeHighLowPrice s') = fst defaultHighLowPrice
      \/ exists i k,
           (realFrom (_visibleRange s') <= i < realTo (_visibleRange s'))%Z
           /\ dataAt s' i = Some k
           /\ fst (_visibleRangeHighLowPrice s')
              = mkHighLowPrice (dataIndexToCoordinate s' (inject_Z i)) (high k))
  /\ (snd (_visibleRangeHighLowPrice s') = snd defaultHighLowPrice
      \/ exists i k,
           (realFrom (_visibleRange s') <= i < realTo (_visibleRange s'))%Z
           /\ dataAt s' i = Some k
           /\ snd (_visibleRangeHighLowPrice s')
              = mkHighLowPrice (dataIndexToCoordinate s' (inject_Z i)) (low k)).
Proof.
  intro L.
  set (l := index_range _ _) in *.
  assert (Hl : forall i, In i l <-> (realFrom (_visibleRange s') <= i < realTo (_visibleRange s'))%Z)
    by (intro i; apply In_index_range).
  clearbody l.
  assert (E1 : _visibleRangeDataList s'
               = fst (fold_left (visitVisibleBar s') l ([], defaultHighLowPrice)))
    by (rewrite <- L; reflexivity).
  assert (E2 : _visibleRangeHighLowPrice s'
               = snd (fold_left (visitVisibleBar s') l ([], defaultHighLowPrice)))
    by (rewrite <- L; reflexivity).
  rewrite E1, E2. clear L E1 E2. split; [|split].
  - rewrite fold_visit_dataList. reflexivity.
  - intros i k Hi K. apply (fold_visit_bounds s' l _ i k); [apply Hl, Hi | exact K].
  - destruct (fold_visit_attained s' l ([], defaultHighLowPrice))
      as [[H1|(i & k & I & K & H1)] [H2|(i' & k' & I' & K' & H2)]]; split.
    all: try (left; assumption).
    all: try (right; exists i, k; split; [apply Hl, I | split; assumption]).
    all: right; exists i', k'; split; [apply Hl, I' | split; assumption].
Qed.

(** X12.  After a recomputation the visible data list has one entry for each
    index [i] of [realFrom, realTo), in order, with the pixel of the bar and
    what [this._dataList[i]] holds (a bar of the list, the bar stored under
    [-1], or nothing); the highest and the lowest price bound the highs and
    lows of every bar so read, and each of them is the initial sentinel or
    is attained at such a bar, at that bar's pixel. *)
Theorem visible_bars_and_extremes (s : Store) :
  let s' := _adjustVisibleRange s in
  let r := _visibleRange s' in
  let highest := fst (_visibleRangeHighLowPrice s') in
  let lowest := snd (_visibleRangeHighLowPrice s') in
  _visibleRangeDataList s' = map (visibleEntry s') (index_range (realFrom r) (realTo r))
  /\ (forall i k,
        (realFrom r <= i < realTo r)%Z -> dataAt s' i = Some k ->
        high k <= price highest /\ price lowest <= low k)
  /\ (highest = fst defaultHighLowPrice
      \/ exists i k,
           (realFrom r <= i < realTo r)%Z /\ dataAt s' i = Some k
           /\ highest = mkHighLowPrice (dataIndexToCoordinate s' (inject_Z i)) (high k))
  /\ (lowest = snd defaultHighLowPrice
      \/ exists i k,
           (realFrom r <= i < realTo r)%Z /\ dataAt s' i = Some k
           /\ lowest = mkHighLowPrice (dataIndexToCoordinate s' (inject_Z i)) (low k)).
Proof.
  exact (lists_of_fold (_adjustVisibleRange s) (adjustVisibleRange_lists s)).
Qed.

(** A bar stored under the key [-1] of an empty list is read by the loop
    when the index [-1] is in [realFrom, realTo): it has an entry, and the
    extremes are taken from it. *)
Example visible_bar_under_minus_one :
  let s :=
    performAll [SetTotalBarSpace 200; AddData (inl (exampleBar 0 1 2)) Backward None]
      (newStore exampleFormat 100) in
  dataCount s = 0%Z
  /\ (realFrom (_visibleRange s) <= -1 < realTo (_visibleRange s))%Z
  /\ vrd_data (visibleEntry s (-1)) = Some (exampleBar 0 1 2)
  /\ price (fst (_visibleRangeHighLowPrice s)) == 2
  /\ price (snd (_visibleRangeHighLowPrice s)) == 1.
Proof. vm_compute. repeat split; try reflexivity; discriminate. Qed.

(** ** The visible range covers the screen *)

Lemma derivedVisibleRange_covers (t : Store) (i : Z) :
  1 <= _barSpace t -> (0 <= i < dataCount t)%Z ->
  (1 <= dataIndexToCoordinate t (inject_Z i))%Z ->
  inject_Z (dataIndexToCoordinate t (inject_Z i)) < _totalBarSpace t ->
  (from (derivedVisibleRange t) <= i < to (derivedVisibleRange t))%Z.
Proof.
  intros Hb Hi Hp1 Hp2.
  pose proof (pixel_bounds t i) as [P1 P2]. unfold barCentre in P1, P2.
  rewrite Zle_Qle in Hp1. change (inject_Z 1) with 1 in Hp1.
  set (px := inject_Z (dataIndexToCoordinate t (inject_Z i))) in *. clearbody px.
  unfold derivedVisibleRange. cbv zeta. cbn [from to].
  set (n := dataCount t) in *. set (d := _lastBarRightSideDiffBarCount t) in *.
  set (T := _totalBarSpace t) in *. set (b := _barSpace t) in *.
  assert (Ev : T / b * b == T) by (field; lra).
  set (v := T / b) in *.
  set (g := inject_Z n + d - inject_Z i - 0.5) in *.
  assert (Hg1 : - (1 # 2) <= g).
  { destruct (Qlt_le_dec g (- (1 # 2))) as [H|H]; [|exact H].
    assert ((- g) * 1 <= (- g) * b) by (apply Qmult_le_l; lra).
    lra. }
  assert (Hg2 : g < v).
  { destruct (Qlt_le_dec g v) as [H|H]; [exact H|].
    assert (v * b <= g * b) by (apply Qmult_le_compat_r; lra). lra. }
  unfold g in Hg1, Hg2. clear P1 P2 Hp1 Hp2 Ev.
  pose proof (Math_round_bounds (d + inject_Z n + 0.5)) as [R1 R2].
  set (to0 := Math_round (d + inject_Z n + 0.5)) in *.
  assert (Hto0 : (i < to0)%Z).
  { unfold to0, Math_round. assert (i + 1 <= Qfloor (d + inject_Z n + 0.5 + (1 # 2)))%Z; [|lia].
    apply Qfloor_lb. rewrite inject_Z_plus. change (inject_Z 1) with 1. lra. }
  set (to1 := if (to0 >? n)%Z then n else to0).
  assert (Hto1 : (i < to1 /\ to1 <= to0)%Z).
  { unfold to1. destruct (Z.gtb_spec to0 n); lia. }
  destruct Hto1 as [Hlt Hle]. split; [|exact Hlt].
  assert (Hf : (Math_round (inject_Z to1 - v) - 1 <= i)%Z).
  { assert (Math_round (inject_Z to1 - v) < i + 2)%Z; [|lia].
    unfold Math_round. apply Qfloor_ub. rewrite inject_Z_plus.
    change (inject_Z 2) with 2. rewrite Zle_Qle in Hle. lra. }
  destruct (Z.ltb_spec (Math_round (inject_Z to1 - v) - 1) 0); lia.
Qed.

(** X13.  After a recomputation, every loaded bar that is drawn at a pixel
    from 1 up to the width of the axis is inside the visible range
    [from, to): the range leaves out no bar whose centre is on screen. *)
Theorem visible_range_covers_screen (s : Store) (i : Z) :
  1 <= _barSpace s ->
  let s' := _adjustVisibleRange s in
  (0 <= i < dataCount s')%Z ->
  (1 <= dataIndexToCoordinate s' (inject_Z i))%Z ->
  inject_Z (dataIndexToCoordinate s' (inject_Z i)) < _totalBarSpace s' ->
  (from (_visibleRange s') <= i < to (_visibleRange s'))%Z.
Proof.
  intros Hb. cbv zeta.
  pose proof (view_adjustVisibleRange s) as V. cbv zeta in V.
  pose proof (adjustVisibleRange_view_fields s) as F. cbv zeta in F.
  destruct F as (_ & _ & FT & _ & FR & _).
  rewrite (dataCount_view _ _ V), (dataIndexToCoordinate_ext _ _ _ V), FT, FR.
  set (s1 := set_lastBarRightSideDiffBarCount (clampedLastBarRightSideDiffBarCount s) s).
  assert (Hb1 : 1 <= _barSpace (set_visibleRange (derivedVisibleRange s1) s1)) by exact Hb.
  change (_totalBarSpace s)
    with (_totalBarSpace (set_visibleRange (derivedVisibleRange s1) s1)).
  clearbody s1. clear V FT FR. intros Hi Hp1 Hp2.
  rewrite <- (derivedVisibleRange_ext (set_visibleRange (derivedVisibleRange s1) s1) s1)
    by reflexivity.
  apply derivedVisibleRange_covers; assumption.
Qed.

Lemma visible_range_covers_screen_witness :
  (from (_visibleRange (_adjustVisibleRange fiveBarStore)) <= 2
   < to (_visibleRange (_adjustVisibleRange fiveBarStore)))%Z.
Proof.
  apply (visible_range_covers_screen fiveBarStore 2);
    vm_compute; try split; try reflexivity; discriminate.
Defined.

(** ** Scrolling is measured from where the drag started *)

(** The viewport after a recomputation is decided by the data, the
    geometry, the limits and the offset before it. *)
Lemma view_adjustVisibleRange_ext (a b : Store) :
  _dataList a = _dataList b -> _barSpace a = _barSpace b ->
  _totalBarSpace a = _totalBarSpace b ->
  _lastBarRightSideDiffBarCount a = _lastBarRightSideDiffBarCount b ->
  _loadDataMore a = _loadDataMore b ->
  (_scrollLimitRole a, _minVisibleBarCount a, _maxOffsetDistance a)
  = (_scrollLimitRole b, _minVisibleBarCount b, _maxOffsetDistance b) ->
  (_zoomEnabled a, _scrollEnabled a, _startLastBarRightSideDiffBarCount a)
  = (_zoomEnabled b, _scrollEnabled b, _startLastBarRightSideDiffBarCount b) ->
  _dataListMinus1 a = _dataListMinus1 b ->
  view (_adjustVisibleRange a) = view (_adjustVisibleRange b).
Proof.
  intros E1 E2 E3 E4 E5 E6 E7 E8.
  pose proof (view_adjustVisibleRange a) as Va. pose proof (view_adjustVisibleRange b) as Vb.
  cbv zeta in Va, Vb. rewrite Va, Vb. clear Va Vb.
  assert (N : dataCount a = dataCount b) by (unfold dataCount; rewrite E1; reflexivity).
  assert (C : clampedLastBarRightSideDiffBarCount a = clampedLastBarRightSideDiffBarCount b).
  { injection E6 as R1 R2 R3. apply clamped_ext; assumption. }
  assert (D : derivedVisibleRange
                (set_lastBarRightSideDiffBarCount (clampedLastBarRightSideDiffBarCount a) a)
              = derivedVisibleRange
                  (set_lastBarRightSideDiffBarCount (clampedLastBarRightSideDiffBarCount b) b)).
  { apply derivedVisibleRange_ext; assumption. }
  unfold view.
  cbn [_dataList _barSpace _totalBarSpace _lastBarRightSideDiffBarCount _visibleRange
       _loadDataMore _scrollLimitRole _minVisibleBarCount _maxOffsetDistance
       _zoomEnabled _scrollEnabled _startLastBarRightSideDiffBarCount _dataListMinus1
       set_visibleRange set_lastBarRightSideDiffBarCount].
  rewrite D, C, E1, E2, E3, E5, E6, E7, E8. reflexivity.
Qed.

Lemma view_scroll (distance : Q) (s : Store) :
  _scrollEnabled s = true ->
  view (scroll distance s)
  = view (_adjustVisibleRange
            (set_lastBarRightSideDiffBarCount
               (_startLastBarRightSideDiffBarCount s - distance / _barSpace s) s)).
Proof.
  intro En. unfold scroll. rewrite En. cbn [negb]. cbv zeta.
  match goal with |- view (if ?c then _ else _) = _ => destruct c end;
    rewrite ?view_emit, view_setCrosshair; reflexivity.
Qed.

(** X14.  During a drag, each [scroll] call places the viewport by its
    distance from the position saved by [startScroll]; the distances of
    earlier calls of the same drag do not add up. *)
Theorem scroll_measured_from_start (first second : Q) (s : Store) :
  view (scroll second (scroll first s)) = view (scroll second s).
Proof.
  destruct (_scrollEnabled s) eqn:En.
  - assert (V : view (scroll first s)
                = view (_adjustVisibleRange
                    (set_lastBarRightSideDiffBarCount
                       (_startLastBarRightSideDiffBarCount s - first / _barSpace s) s)))
      by (apply view_scroll, En).
    pose proof (view_adjustVisibleRange
      (set_lastBarRightSideDiffBarCount
         (_startLastBarRightSideDiffBarCount s - first / _barSpace s) s)) as V'.
    cbv zeta in V'. rewrite V' in V. clear V'.
    unfold view in V. injection V as V1 V2 V3 V4 V5 V6 V7 V8 V9.
    cbn [_dataList _barSpace _totalBarSpace _lastBarRightSideDiffBarCount _visibleRange
         _loadDataMore _scrollLimitRole _minVisibleBarCount _maxOffsetDistance
         _zoomEnabled _scrollEnabled _startLastBarRightSideDiffBarCount _dataListMinus1
         set_visibleRange set_lastBarRightSideDiffBarCount] in *.
    assert (En' : _scrollEnabled (scroll first s) = true) by congruence.
    rewrite (view_scroll second _ En'), (view_scroll second _ En).
    apply view_adjustVisibleRange_ext;
      cbn [_dataList _barSpace _totalBarSpace _lastBarRightSideDiffBarCount _visibleRange
           _loadDataMore _scrollLimitRole _minVisibleBarCount _maxOffsetDistance
           _zoomEnabled _scrollEnabled _startLastBarRightSideDiffBarCount _dataListMinus1
           set_lastBarRightSideDiffBarCount]; congruence.
  - unfold scroll at 2. rewrite En. cbn [negb]. reflexivity.
Qed.

(** ** What a page or a new bar does to the bars on screen *)

Lemma pixel_shift (a b : Store) (k j : Z) :
  dataCount b = (dataCount a + k)%Z -> _totalBarSpace b = _totalBarSpace a ->
  _barSpace b = _barSpace a ->
  _lastBarRightSideDiffBarCount b == _lastBarRightSideDiffBarCount a ->
  dataIndexToCoordinate b (inject_Z (j + k)) = dataIndexToCoordinate a (inject_Z j).
Proof.
  intros N T B D. unfold dataIndexToCoordinate, Math_floor. cbv zeta.
  rewrite N, T, B. apply Qfloor_comp. rewrite D, !inject_Z_plus. ring.
Qed.

Lemma pixel_afterDataChange (type : LoadDataType) (s : Store) (j : Q) :
  dataIndexToCoordinate (afterDataChange type s) j
  = dataIndexToCoordinate
      (set_lastBarRightSideDiffBarCount (clampedLastBarRightSideDiffBarCount s) s) j.
Proof.
  rewrite (dataIndexToCoordinate_ext _ _ j (view_afterDataChange type s)).
  pose proof (view_adjustVisibleRange s) as V. cbv zeta in V.
  rewrite (dataIndexToCoordinate_ext _ _ j V). reflexivity.
Qed.

(** With more bars, an offset within the limits stays within them, as long
    as the bars already filled the minimum on the left. *)
Lemma clamped_with_more_bars (a b : Store) (k : Z) :
  (0 <= k)%Z -> dataCount b = (dataCount a + k)%Z ->
  _totalBarSpace b = _totalBarSpace a -> _barSpace b = _barSpace a ->
  _scrollLimitRole b = _scrollLimitRole a ->
  _minVisibleBarCount b = _minVisibleBarCount a ->
  _maxOffsetDistance b = _maxOffsetDistance a ->
  _lastBarRightSideDiffBarCount b = _lastBarRightSideDiffBarCount a ->
  minRightOffsetBarCount a <= _lastBarRightSideDiffBarCount a ->
  _lastBarRightSideDiffBarCount a <= maxRightOffsetBarCount a ->
  leftMinVisibleBarCount a <= inject_Z (dataCount a) ->
  clampedLastBarRightSideDiffBarCount b == _lastBarRightSideDiffBarCount a.
Proof.
  intros Hk N T B R M O D Hmin Hmax Hleft.
  rewrite clamped_unfold. cbv zeta.
  unfold maxRightOffsetBarCount, minRightOffsetBarCount, leftMinVisibleBarCount,
    rightMinVisibleBarCount in *.
  rewrite N, T, B, R, M, O, D. rewrite inject_Z_plus.
  assert (Hk' : 0 <= inject_Z k) by (change 0 with (inject_Z 0); rewrite <- Zle_Qle; exact Hk).
  pose proof (dataCount_nonneg a) as Hn.
  set (n := inject_Z (dataCount a)) in *. set (d := _lastBarRightSideDiffBarCount a) in *.
  set (v := _totalBarSpace a / _barSpace a) in *.
  repeat match goal with
         | H : context [Qmax 0 ?e] |- _ => progress (set (Qmax 0 e) in * )
         end.
  repeat match goal with
         | |- context [Qmin ?e ?m] =>
             let H := fresh in
             pose proof (Q.min_spec e m) as H; set (Qmin e m) in *
         end.
  repeat match goal with
         | Hx : context [Qmin ?e ?m] |- _ =>
             let H := fresh in
             pose proof (Q.min_spec e m) as H; set (Qmin e m) in *
         end.
  destruct (Qlt_le_dec _ _) as [C1|C1]; destruct (Qlt_le_dec _ _) as [C2|C2];
    repeat match goal with
           | H : _ /\ _ \/ _ /\ _ |- _ => destruct H as [[? ?]|[? ?]]
           end; lra.
Qed.

Lemma page_pixels (type : LoadDataType) (s s2 : Store) (k i : Z) :
  (0 <= k)%Z -> dataCount s2 = (dataCount s + k)%Z ->
  _totalBarSpace s2 = _totalBarSpace s -> _barSpace s2 = _barSpace s ->
  _scrollLimitRole s2 = _scrollLimitRole s ->
  _minVisibleBarCount s2 = _minVisibleBarCount s ->
  _maxOffsetDistance s2 = _maxOffsetDistance s ->
  _lastBarRightSideDiffBarCount s2 = _lastBarRightSideDiffBarCount s ->
  minRightOffsetBarCount s <= _lastBarRightSideDiffBarCount s ->
  _lastBarRightSideDiffBarCount s <= maxRightOffsetBarCount s ->
  leftMinVisibleBarCount s <= inject_Z (dataCount s) ->
  dataIndexToCoordinate (afterDataChange type s2) (inject_Z (i + k))
  = dataIndexToCoordinate s (inject_Z i).
Proof.
  intros Hk N T B R M O D Hmin Hmax Hleft.
  rewrite pixel_afterDataChange.
  apply pixel_shift; try assumption.
  cbn [_lastBarRightSideDiffBarCount set_lastBarRightSideDiffBarCount].
  apply (clamped_with_more_bars s s2 k); assumption.
Qed.

(** In exact arithmetic a page of older bars leaves every bar already
    loaded at its very pixel. *)
Lemma forward_page_exact (data : list KLineData)
    (more : option LoadDataMore) (s : Store) (i : Z) :
  minRightOffsetBarCount s <= _lastBarRightSideDiffBarCount s ->
  _lastBarRightSideDiffBarCount s <= maxRightOffsetBarCount s ->
  leftMinVisibleBarCount s <= inject_Z (dataCount s) ->
  let s' := addData (inr data) Forward more s in
  _dataList s' = data ++ _dataList s
  /\ dataIndexToCoordinate s' (inject_Z (i + Z.of_nat (List.length data)))
     = dataIndexToCoordinate s (inject_Z i).
Proof.
  intros Hmin Hmax Hleft. cbv zeta. unfold addData. cbv zeta.
  assert (N : forall t, _dataList t = data ++ _dataList s ->
                        dataCount t = (dataCount s + Z.of_nat (List.length data))%Z).
  { intros t E. unfold dataCount. rewrite E, length_app. lia. }
  destruct (Z.gtb_spec (Z.of_nat (List.length data)) 0) as [Hk|Hk].
  - split.
    + rewrite (proj1 (afterDataChange_fields _ _)). reflexivity.
    + apply page_pixels; try assumption; try reflexivity; [lia|].
      apply N. reflexivity.
  - split; [reflexivity|].
    apply pixel_shift; try reflexivity. apply N. reflexivity.
Qed.

Lemma within_one_pixel (a b : Z) : a = b -> (Z.abs (a - b) <= 1)%Z.
Proof. intros ->. lia. Qed.

(** X15.  A page of older bars, loaded while the offset is within the scroll
    limits and the bars fill the minimum on the left, is put in front of the
    list and leaves every bar already loaded where it was drawn, to one
    pixel (its index grows by the length of the page).  The centre of the
    bar is the same; the pixel is its floor, recomputed from the new bar
    count. *)
Theorem forward_page_keeps_bars_in_place (data : list KLineData)
    (more : option LoadDataMore) (s : Store) (i : Z) :
  minRightOffsetBarCount s <= _lastBarRightSideDiffBarCount s ->
  _lastBarRightSideDiffBarCount s <= maxRightOffsetBarCount s ->
  leftMinVisibleBarCount s <= inject_Z (dataCount s) ->
  let s' := addData (inr data) Forward more s in
  _dataList s' = data ++ _dataList s
  /\ (Z.abs (dataIndexToCoordinate s' (inject_Z (i + Z.of_nat (List.length data)))
             - dataIndexToCoordinate s (inject_Z i)) <= 1)%Z.
Proof.
  intros Hmin Hmax Hleft.
  destruct (forward_page_exact data more s i Hmin Hmax Hleft) as [E P].
  split; [exact E | apply within_one_pixel, P].
Qed.

Lemma forward_page_keeps_bars_in_place_witness :
  (minRightOffsetBarCount fiveBarStore <= _lastBarRightSideDiffBarCount fiveBarStore
   /\ _lastBarRightSideDiffBarCount fiveBarStore <= maxRightOffsetBarCount fiveBarStore
   /\ leftMinVisibleBarCount fiveBarStore <= inject_Z (dataCount fiveBarStore))
  /\ (Z.abs (dataIndexToCoordinate (addData (inr twoBars) Forward None fiveBarStore)
               (inject_Z (4 + Z.of_nat (List.length twoBars)))
             - dataIndexToCoordinate fiveBarStore (inject_Z 4)) <= 1)%Z.
Proof.
  assert (H1 : minRightOffsetBarCount fiveBarStore
               <= _lastBarRightSideDiffBarCount fiveBarStore) by (vm_compute; discriminate).
  assert (H2 : _lastBarRightSideDiffBarCount fiveBarStore
               <= maxRightOffsetBarCount fiveBarStore) by (vm_compute; discriminate).
  assert (H3 : leftMinVisibleBarCount fiveBarStore <= inject_Z (dataCount fiveBarStore))
    by (vm_compute; discriminate).
  split; [repeat split; assumption|].
  exact (proj2 (forward_page_keeps_bars_in_place twoBars None fiveBarStore 4 H1 H2 H3)).
Defined.

(** In exact arithmetic a page of newer bars moves the picture left by its
    length, pixel for pixel. *)
Lemma backward_page_exact (data : list KLineData)
    (more : option LoadDataMore) (s : Store) (i : Z) :
  minRightOffsetBarCount s <= _lastBarRightSideDiffBarCount s ->
  _lastBarRightSideDiffBarCount s <= maxRightOffsetBarCount s ->
  leftMinVisibleBarCount s <= inject_Z (dataCount s) ->
  let s' := addData (inr data) Backward more s in
  _dataList s' = _dataList s ++ data
  /\ dataIndexToCoordinate s' (inject_Z (i + Z.of_nat (List.length data)))
     = dataIndexToCoordinate s (inject_Z i).
Proof.
  intros Hmin Hmax Hleft. cbv zeta. unfold addData. cbv zeta.
  assert (N : forall t, _dataList t = _dataList s ++ data ->
                        dataCount t = (dataCount s + Z.of_nat (List.length data))%Z).
  { intros t E. unfold dataCount. rewrite E, length_app. lia. }
  destruct (Z.gtb_spec (Z.of_nat (List.length data)) 0) as [Hk|Hk].
  - split.
    + rewrite (proj1 (afterDataChange_fields _ _)). reflexivity.
    + apply page_pixels; try assumption; try reflexivity; [lia|].
      apply N. reflexivity.
  - split; [reflexivity|].
    apply pixel_shift; try reflexivity. apply N. reflexivity.
Qed.

(** X16.  A page of newer bars is put behind the list; the offset of the last
    bar from the right edge is kept, so the whole picture moves left by the
    length of the page: index [i + k] is drawn where index [i] was, to one
    pixel. *)
Theorem backward_page_shifts_bars (data : list KLineData)
    (more : option LoadDataMore) (s : Store) (i : Z) :
  minRightOffsetBarCount s <= _lastBarRightSideDiffBarCount s ->
  _lastBarRightSideDiffBarCount s <= maxRightOffsetBarCount s ->
  leftMinVisibleBarCount s <= inject_Z (dataCount s) ->
  let s' := addData (inr data) Backward more s in
  _dataList s' = _dataList s ++ data
  /\ (Z.abs (dataIndexToCoordinate s' (inject_Z (i + Z.of_nat (List.length data)))
             - dataIndexToCoordinate s (inject_Z i)) <= 1)%Z.
Proof.
  intros Hmin Hmax Hleft.
  destruct (backward_page_exact data more s i Hmin Hmax Hleft) as [E P].
  split; [exact E | apply within_one_pixel, P].
Qed.

Lemma backward_page_shifts_bars_witness :
  (minRightOffsetBarCount fiveBarStore <= _lastBarRightSideDiffBarCount fiveBarStore
   /\ _lastBarRightSideDiffBarCount fiveBarStore <= maxRightOffsetBarCount fiveBarStore
   /\ leftMinVisibleBarCount fiveBarStore <= inject_Z (dataCount fiveBarStore))
  /\ (Z.abs (dataIndexToCoordinate (addData (inr twoBars) Backward None fiveBarStore)
               (inject_Z (4 + Z.of_nat (List.length twoBars)))
             - dataIndexToCoordinate fiveBarStore (inject_Z 4)) <= 1)%Z.
Proof.
  assert (H1 : minRightOffsetBarCount fiveBarStore
               <= _lastBarRightSideDiffBarCount fiveBarStore) by (vm_compute; discriminate).
  assert (H2 : _lastBarRightSideDiffBarCount fiveBarStore
               <= maxRightOffsetBarCount fiveBarStore) by (vm_compute; discriminate).
  assert (H3 : leftMinVisibleBarCount fiveBarStore <= inject_Z (dataCount fiveBarStore))
    by (vm_compute; discriminate).
  split; [repeat split; assumption|].
  exact (proj2 (backward_page_shifts_bars twoBars None fiveBarStore 4 H1 H2 H3)).
Defined.

Lemma pixel_same_sum (a b : Store) (j : Q) :
  _totalBarSpace b = _totalBarSpace a -> _barSpace b = _barSpace a ->
  inject_Z (dataCount b) + _lastBarRightSideDiffBarCount b
  == inject_Z (dataCount a) + _lastBarRightSideDiffBarCount a ->
  dataIndexToCoordinate b j = dataIndexToCoordinate a j.
Proof.
  intros T B D. unfold dataIndexToCoordinate, Math_floor. cbv zeta.
  rewrite T, B. apply Qfloor_comp. rewrite D. reflexivity.
Qed.

(** In exact arithmetic a bar appended while the chart is scrolled back
    moves no pixel. *)
Lemma append_scrolled_back_exact (bar lastBar : KLineData)
    (type : LoadDataType) (more : option LoadDataMore) (s : Store) (i : Z) :
  at_index (_dataList s) (dataCount s - 1) = Some lastBar ->
  (timestamp bar > timestamp lastBar)%Z ->
  _lastBarRightSideDiffBarCount s < 0 -> offsetWithinLimits s ->
  let s' := addData (inl bar) type more s in
  _dataList s' = _dataList s ++ [bar]
  /\ dataIndexToCoordinate s' (inject_Z i) = dataIndexToCoordinate s (inject_Z i).
Proof.
  intros Hlast Hgt Hneg W. cbv zeta. unfold addData.
  rewrite (dataAt_last s (at_index_last_nonempty _ _ Hlast)), Hlast.
  cbn [formatValue_timestamp]. cbv zeta.
  destruct (Z.gtb_spec (timestamp bar) (timestamp lastBar)) as [_|]; [|lia].
  unfold getLastBarRightSideDiffBarCount, setLastBarRightSideDiffBarCount.
  cbn [_lastBarRightSideDiffBarCount set_dataList _classifyTimeTicks set_timeTicks].
  destruct (Qlt_le_dec _ _); [|lra].
  split.
  - rewrite (proj1 (afterDataChange_fields _ _)). reflexivity.
  - rewrite pixel_afterDataChange.
    match goal with |- dataIndexToCoordinate (set_lastBarRightSideDiffBarCount _ ?t) _ = _ =>
      set (s1 := t)
    end.
    assert (N : dataCount s1 = (dataCount s + 1)%Z).
    { unfold dataCount, s1. cbn [_dataList set_lastBarRightSideDiffBarCount set_dataList].
      rewrite length_app. cbn. lia. }
    assert (C : clampedLastBarRightSideDiffBarCount s1 == _lastBarRightSideDiffBarCount s - 1).
    { apply clamped_after_append; try assumption; reflexivity. }
    apply pixel_same_sum; try reflexivity.
    change (dataCount (set_lastBarRightSideDiffBarCount
                         (clampedLastBarRightSideDiffBarCount s1) s1))
      with (dataCount s1).
    cbn [_lastBarRightSideDiffBarCount set_lastBarRightSideDiffBarCount].
    rewrite C, N, inject_Z_plus. change (inject_Z 1) with 1. ring.
Qed.

(** X17.  A new bar that arrives while the chart is scrolled back (negative
    right offset, within the scroll limits) is appended and every bar stays
    where it was drawn, to one pixel: the offset is decremented as the bar
    count is incremented, and the pixel is the floor of the same centre. *)
Theorem append_scrolled_back_keeps_bars_in_place (bar lastBar : KLineData)
    (type : LoadDataType) (more : option LoadDataMore) (s : Store) (i : Z) :
  at_index (_dataList s) (dataCount s - 1) = Some lastBar ->
  (timestamp bar > timestamp lastBar)%Z ->
  _lastBarRightSideDiffBarCount s < 0 -> offsetWithinLimits s ->
  let s' := addData (inl bar) type more s in
  _dataList s' = _dataList s ++ [bar]
  /\ (Z.abs (dataIndexToCoordinate s' (inject_Z i) - dataIndexToCoordinate s (inject_Z i))
      <= 1)%Z.
Proof.
  intros Hlast Hgt Hneg W.
  destruct (append_scrolled_back_exact bar lastBar type more s i Hlast Hgt Hneg W) as [E P].
  split; [exact E | apply within_one_pixel, P].
Qed.

Lemma append_scrolled_back_keeps_bars_in_place_witness :
  (at_index (_dataList fiveBarStore) (dataCount fiveBarStore - 1) = Some (exampleBar 5 11 13)
   /\ (timestamp (exampleBar 6 13 14) > timestamp (exampleBar 5 11 13))%Z
   /\ _lastBarRightSideDiffBarCount fiveBarStore < 0
   /\ offsetWithinLimits fiveBarStore)
  /\ (Z.abs (dataIndexToCoordinate
               (addData (inl (exampleBar 6 13 14)) Backward None fiveBarStore) (inject_Z 2)
             - dataIndexToCoordinate fiveBarStore (inject_Z 2)) <= 1)%Z.
Proof.
  assert (H1 : at_index (_dataList fiveBarStore) (dataCount fiveBarStore - 1)
               = Some (exampleBar 5 11 13)) by (vm_compute; reflexivity).
  assert (H2 : (timestamp (exampleBar 6 13 14) > timestamp (exampleBar 5 11 13))%Z)
    by reflexivity.
  assert (H3 : _lastBarRightSideDiffBarCount fiveBarStore < 0) by (vm_compute; reflexivity).
  assert (H4 : offsetWithinLimits fiveBarStore) by (vm_compute; reflexivity).
  split; [repeat split; assumption|].
  exact (proj2 (append_scrolled_back_keeps_bars_in_place (exampleBar 6 13 14)
                  (exampleBar 5 11 13) Backward None fiveBarStore 2 H1 H2 H3 H4)).
Defined.

(** In exact arithmetic a bar appended while the last bar is in view moves
    the picture one bar to the left, pixel for pixel. *)
Lemma append_in_view_exact (bar lastBar : KLineData)
    (type : LoadDataType) (more : option LoadDataMore) (s : Store) (i : Z) :
  at_index (_dataList s) (dataCount s - 1) = Some lastBar ->
  (timestamp bar > timestamp lastBar)%Z ->
  0 <= _lastBarRightSideDiffBarCount s ->
  _lastBarRightSideDiffBarCount s <= maxRightOffsetBarCount s ->
  leftMinVisibleBarCount s <= inject_Z (dataCount s) ->
  let s' := addData (inl bar) type more s in
  _dataList s' = _dataList s ++ [bar]
  /\ dataIndexToCoordinate s' (inject_Z (i + 1)) = dataIndexToCoordinate s (inject_Z i).
Proof.
  intros Hlast Hgt Hpos Hmax Hleft. cbv zeta. unfold addData.
  rewrite (dataAt_last s (at_index_last_nonempty _ _ Hlast)), Hlast.
  cbn [formatValue_timestamp]. cbv zeta.
  destruct (Z.gtb_spec (timestamp bar) (timestamp lastBar)) as [_|]; [|lia].
  unfold getLastBarRightSideDiffBarCount, setLastBarRightSideDiffBarCount.
  cbn [_lastBarRightSideDiffBarCount set_dataList _classifyTimeTicks set_timeTicks].
  destruct (Qlt_le_dec _ _); [lra|].
  split.
  - rewrite (proj1 (afterDataChange_fields _ _)). reflexivity.
  - apply page_pixels; try assumption; try reflexivity; [lia| |].
    + unfold dataCount. cbn [_dataList set_dataList]. rewrite length_app. cbn. lia.
    + unfold minRightOffsetBarCount.
      pose proof (Q.le_min_r (rightMinVisibleBarCount s) (inject_Z (dataCount s))). lra.
Qed.

(** X18.  A new bar that arrives while the last bar is in view (right offset of
    zero or more, within the limits, the bars filling the minimum on the
    left) pushes the picture one bar to the left: index [i + 1] is drawn
    where index [i] was, to one pixel. *)
Theorem append_in_view_shifts_bars (bar lastBar : KLineData)
    (type : LoadDataType) (more : option LoadDataMore) (s : Store) (i : Z) :
  at_index (_dataList s) (dataCount s - 1) = Some lastBar ->
  (timestamp bar > timestamp lastBar)%Z ->
  0 <= _lastBarRightSideDiffBarCount s ->
  _lastBarRightSideDiffBarCount s <= maxRightOffsetBarCount s ->
  leftMinVisibleBarCount s <= inject_Z (dataCount s) ->
  let s' := addData (inl bar) type more s in
  _dataList s' = _dataList s ++ [bar]
  /\ (Z.abs (dataIndexToCoordinate s' (inject_Z (i + 1))
             - dataIndexToCoordinate s (inject_Z i)) <= 1)%Z.
Proof.
  intros Hlast Hgt Hpos Hmax Hleft.
  destruct (append_in_view_exact bar lastBar type more s i Hlast Hgt Hpos Hmax Hleft)
    as [E P].
  split; [exact E | apply within_one_pixel, P].
Qed.

Lemma append_in_view_shifts_bars_witness :
  (at_index (_dataList twoBarStore) (dataCount twoBarStore - 1) = Some (exampleBar 2 10 11)
   /\ (timestamp (exampleBar 3 11 12) > timestamp (exampleBar 2 10 11))%Z
   /\ 0 <= _lastBarRightSideDiffBarCount twoBarStore
   /\ _lastBarRightSideDiffBarCount twoBarStore <= maxRightOffsetBarCount twoBarStore
   /\ leftMinVisibleBarCount twoBarStore <= inject_Z (dataCount twoBarStore))
  /\ (Z.abs (dataIndexToCoordinate
               (addData (inl (exampleBar 3 11 12)) Backward None twoBarStore)
               (inject_Z (1 + 1))
             - dataIndexToCoordinate twoBarStore (inject_Z 1)) <= 1)%Z.
Proof.
  assert (H1 : at_index (_dataList twoBarStore) (dataCount twoBarStore - 1)
               = Some (exampleBar 2 10 11)) by (vm_compute; reflexivity).
  assert (H2 : (timestamp (exampleBar 3 11 12) > timestamp (exampleBar 2 10 11))%Z)
    by reflexivity.
  assert (H3 : 0 <= _lastBarRightSideDiffBarCount twoBarStore) by (vm_compute; discriminate).
  assert (H4 : _lastBarRightSideDiffBarCount twoBarStore
               <= maxRightOffsetBarCount twoBarStore) by (vm_compute; discriminate).
  assert (H5 : leftMinVisibleBarCount twoBarStore <= inject_Z (dataCount twoBarStore))
    by (vm_compute; discriminate).
  split; [repeat split; assumption|].
  exact (proj2 (append_in_view_shifts_bars (exampleBar 3 11 12) (exampleBar 2 10 11)
                  Backward None twoBarStore 1 H1 H2 H3 H4 H5)).
Defined.

(** ** Time ticks: incremental classification *)

Lemma classifyLoop_shift (format : Z -> DateTime) (l : list KLineData)
    (i base i' base' : Z) prev ticks :
  (i + base = i' + base')%Z ->
  classifyLoop format l i base prev ticks = classifyLoop format l i' base' prev ticks.
Proof.
  revert i i' prev ticks. induction l as [|k l IH]; intros i i' prev ticks E; cbn.
  - reflexivity.
  - rewrite E. apply IH. lia.
Qed.

Lemma classifyLoop_app (format : Z -> DateTime) (l1 l2 : list KLineData)
    (i base : Z) prev ticks :
  classifyLoop format (l1 ++ l2) i base prev ticks
  = classifyLoop format l2 (i + Z.of_nat (List.length l1)) base
      (match l1 with [] => prev | _ => Some (last l1 (mkKLineData 0 0 0 0 0 0)) end)
      (classifyLoop format l1 i base prev ticks).
Proof.
  revert i prev ticks. induction l1 as [|k l1 IH]; intros i prev ticks.
  - cbn. rewrite Z.add_0_r. reflexivity.
  - cbn [app classifyLoop]. cbv zeta. rewrite IH.
    replace (i + 1 + Z.of_nat (List.length l1))%Z
      with (i + Z.of_nat (List.length (k :: l1)))%Z by (cbn [List.length]; lia).
    destruct l1; reflexivity.
Qed.

Lemma at_index_last {A : Type} (l : list A) (d : A) :
  at_index l (Z.of_nat (List.length l) - 1)
  = match l with [] => None | _ => Some (last l d) end.
Proof.
  destruct l as [|a l]; [reflexivity|].
  unfold at_index. destruct (Z.ltb_spec (Z.of_nat (List.length (a :: l)) - 1) 0) as [H|H].
  - cbn [List.length] in H. lia.
  - replace (Z.to_nat (Z.of_nat (List.length (a :: l)) - 1)) with (List.length l)
      by (cbn [List.length]; lia).
    destruct (exists_last (l := a :: l)) as (l' & z & E); [discriminate|].
    rewrite E, last_last.
    assert (List.length l = List.length l') as ->.
    { apply (f_equal (@List.length A)) in E. rewrite length_app in E. cbn in E. lia. }
    rewrite nth_error_app2, Nat.sub_diag by lia. reflexivity.
Qed.

(** The classification reads the time stamps only. *)
Lemma classifyLoop_timestamps (format : Z -> DateTime) (l l' : list KLineData)
    (i base : Z) prev prev' ticks :
  map timestamp l = map timestamp l' ->
  option_map timestamp prev = option_map timestamp prev' ->
  classifyLoop format l i base prev ticks = classifyLoop format l' i base prev' ticks.
Proof.
  revert l' i prev prev' ticks.
  induction l as [|k l IH]; intros [|k' l'] i prev prev' ticks E P; try discriminate E.
  - reflexivity.
  - cbn in E. injection E as Ek El. cbn [classifyLoop]. cbv zeta. rewrite Ek.
    assert (W : option_map (fun p => format (timestamp p)) prev
                = option_map (fun p => format (timestamp p)) prev').
    { destruct prev, prev'; cbn in *; congruence. }
    rewrite W. apply IH; [exact El | cbn; congruence].
Qed.

Lemma map_replace_at {A B : Type} (f : A -> B) (l : list A) (i : nat) (v a : A) :
  nth_error l i = Some a -> f v = f a -> map f (replace_at l i v) = map f l.
Proof.
  revert i. induction l as [|h t IH]; intros [|i] N E; cbn in *; try discriminate.
  - injection N as ->. rewrite E. reflexivity.
  - rewrite (IH i N E). reflexivity.
Qed.

Lemma ticksRebuilt_inputs (a b : Store) :
  tickInputs a = tickInputs b -> ticksKept b -> ticksKept a.
Proof.
  unfold tickInputs, ticksKept, ticksRebuilt. intros E. injection E as -> -> -> ->. tauto.
Qed.

Lemma tickInputs_emit (e : Effect) (s : Store) : tickInputs (emit e s) = tickInputs s.
Proof. reflexivity. Qed.

Lemma tickInputs_requestMoreData (s : Store) :
  tickInputs (requestMoreData s) = tickInputs s.
Proof. unfold requestMoreData. repeat (break_if; cbn); reflexivity. Qed.

Lemma tickInputs_adjustVisibleRange (s : Store) :
  tickInputs (_adjustVisibleRange s) = tickInputs s.
Proof.
  unfold _adjustVisibleRange.
  match goal with |- context [fold_left ?f ?l ?a] => destruct (fold_left f l a) as [dl hl] end.
  cbv zeta. rewrite tickInputs_requestMoreData. break_if; reflexivity.
Qed.

Lemma tickInputs_setCrosshair (c : option Crosshair) (b : bool) (s : Store) :
  tickInputs (setCrosshair c b s) = tickInputs s.
Proof.
  unfold setCrosshair.
  match goal with |- context [match ?p with (a, b) => _ end] => destruct p as [rdi di] end.
  repeat (break_if; cbn); reflexivity.
Qed.

Lemma tickInputs_submitIndicators (type : LoadDataType) (l : list (string * list string))
    (s : Store) :
  tickInputs
    (fold_left
       (fun s '(pane, indicators) =>
          fold_left (fun s name => emit (AddIndicatorCalcTask pane name type) s)
            indicators s) l s)
  = tickInputs s.
Proof.
  revert s. induction l as [|[pane names] l IH]; intro s; cbn; [reflexivity|].
  rewrite IH. clear IH. revert s.
  induction names as [|n names IH]; intro s; cbn; [reflexivity|].
  rewrite IH. reflexivity.
Qed.

Lemma tickInputs_refresh (s : Store) :
  tickInputs
    (emit ChartLayout (setCrosshair (Some (_crosshair (_adjustVisibleRange s))) true
                         (_adjustVisibleRange s)))
  = tickInputs s.
Proof.
  rewrite tickInputs_emit, tickInputs_setCrosshair. apply tickInputs_adjustVisibleRange.
Qed.

Lemma tickInputs_afterDataChange (type : LoadDataType) (s : Store) :
  tickInputs (afterDataChange type s) = tickInputs s.
Proof.
  unfold afterDataChange.
  rewrite tickInputs_emit, tickInputs_submitIndicators, tickInputs_setCrosshair.
  apply tickInputs_adjustVisibleRange.
Qed.

Lemma tickInputs_setBarSpace (barSpace : Q) (f : option (Store -> Store)) (s : Store) :
  (forall g t, f = Some g -> tickInputs (g t) = tickInputs t) ->
  tickInputs (setBarSpace barSpace f s) = tickInputs s.
Proof.
  intro Hf. unfold setBarSpace. repeat (break_if; try reflexivity); cbv zeta.
  - rewrite tickInputs_refresh, (Hf _ _ eq_refl). reflexivity.
  - rewrite tickInputs_refresh. reflexivity.
Qed.

(** Appending a page to a classified list: the incremental run continues
    the run from scratch. *)
Lemma classifyLoop_continue (format : Z -> DateTime) (old data : list KLineData) :
  classifyLoop format data 0 (Z.of_nat (List.length old))
    (at_index old (Z.of_nat (List.length old) - 1))
    (classifyLoop format old 0 0 None [])
  = classifyLoop format (old ++ data) 0 0 None [].
Proof.
  rewrite classifyLoop_app, (at_index_last old (mkKLineData 0 0 0 0 0 0)).
  apply classifyLoop_shift. lia.
Qed.

Ltac ticks_via t :=
  eapply ticksRebuilt_inputs; [apply t|].

Lemma classifyTimeTicks_update (data : list KLineData) (s : Store) :
  ticksKept s ->
  _timeTicks (_classifyTimeTicks data true s)
  = classifyLoop (_dateTimeFormat s) (_dataList s ++ data) 0 0 None [].
Proof.
  intros [M W]. unfold _classifyTimeTicks. cbn [_timeTicks set_timeTicks].
  rewrite (dataAt_without_property s _ M), W. unfold dataCount.
  apply classifyLoop_continue.
Qed.

Lemma ticksRebuilt_addData data (type : LoadDataType) (more : option LoadDataMore)
    (s : Store) :
  keepsTickInputs (AddData data type more) ->
  ticksKept s -> ticksKept (addData data type more s).
Proof.
  intros K W. pose proof W as [M W']. unfold addData. destruct data as [bar|data].
  - cbv zeta. cbn [keepsTickInputs] in K.
    rewrite (dataAt_without_property s _ M).
    destruct (Z.gtb_spec (timestamp bar)
                (formatValue_timestamp (at_index (_dataList s) (dataCount s - 1)))) as [Hgt|Hle].
    + ticks_via tickInputs_afterDataChange.
      assert (R : forall t, tickInputs t
                            = tickInputs (set_dataList (_dataList s ++ [bar])
                                            (_classifyTimeTicks [bar] true s)) ->
                            ticksKept t).
      { intros t E. apply (ticksRebuilt_inputs _ _ E). split; [exact M|].
        unfold ticksRebuilt.
        change (_timeTicks (set_dataList (_dataList s ++ [bar])
                              (_classifyTimeTicks [bar] true s)))
          with (_timeTicks (_classifyTimeTicks [bar] true s)).
        rewrite (classifyTimeTicks_update [bar] s W). reflexivity. }
      destruct (Qlt_le_dec _ _); apply R; reflexivity.
    + destruct (Z.eqb_spec (timestamp bar)
                  (formatValue_timestamp (at_index (_dataList s) (dataCount s - 1))))
        as [Heq|_]; [|exact W].
      ticks_via tickInputs_afterDataChange.
      destruct (assignLastData_cases bar s) as [[E _]|[E ->]].
      * exfalso. apply K. rewrite Heq. unfold dataCount. rewrite E. reflexivity.
      * split; [exact M|]. unfold ticksRebuilt.
        cbn [_timeTicks _dateTimeFormat _dataList set_dataList]. rewrite W'.
        apply classifyLoop_timestamps; [|reflexivity]. symmetry.
        destruct (exists_last E) as (l & lastBar & El).
        assert (N : nth_error (_dataList s) (List.length (_dataList s) - 1) = Some lastBar).
        { rewrite El, length_app. cbn [List.length].
          rewrite nth_error_app2 by lia.
          replace (List.length l + 1 - 1 - List.length l)%nat with 0%nat by lia.
          reflexivity. }
        apply (map_replace_at timestamp _ _ _ _ N).
        rewrite Heq. unfold at_index, dataCount.
        destruct (Z.ltb_spec (Z.of_nat (List.length (_dataList s)) - 1) 0) as [H|H].
        -- rewrite El, length_app in H. cbn [List.length] in H. lia.
        -- replace (Z.to_nat (Z.of_nat (List.length (_dataList s)) - 1))
             with (List.length (_dataList s) - 1)%nat by lia.
           rewrite N. reflexivity.
  - assert (R : forall t u, tickInputs t = tickInputs u -> ticksKept u ->
                  ticksKept (if (Z.of_nat (List.length data) >? 0)%Z
                             then afterDataChange type (set_loading false t)
                             else set_loading false t)).
    { intros t u E H. destruct (_ >? _)%Z.
      - ticks_via tickInputs_afterDataChange. exact (ticksRebuilt_inputs _ _ E H).
      - exact (ticksRebuilt_inputs _ _ E H). }
    destruct type; cbv zeta.
    + ticks_via tickInputs_afterDataChange. split; reflexivity.
    + eapply R; [reflexivity|]. split; [reflexivity|]. unfold ticksRebuilt.
      cbn [_timeTicks _dateTimeFormat _dataList set_dataList _classifyTimeTicks
           set_timeTicks set_loadDataMore assignDataList set_dataListMinus1]. reflexivity.
    + eapply R; [reflexivity|]. split; [reflexivity|]. unfold ticksRebuilt.
      change (_timeTicks _) with (_timeTicks (_classifyTimeTicks data true s)).
      rewrite (classifyTimeTicks_update data s W). reflexivity.
Qed.

Lemma tickInputs_setOptions (options : option OverrideOptions)
    (created : option (Z -> DateTime)) (s : Store) :
  keepsTickInputs (SetOptions options created) ->
  tickInputs (setOptions options created s) = tickInputs s.
Proof.
  unfold setOptions. destruct options as [o|]; cbn [keepsTickInputs].
  - intros ->. destruct (tickTextWidth o); reflexivity.
  - reflexivity.
Qed.

Lemma ticksRebuilt_perform (s : Store) (m : Mutation) :
  keepsTickInputs m -> ticksKept s -> ticksKept (perform s m).
Proof.
  intros K W. destruct m; cbn [perform]; try exact W.
  - apply ticksRebuilt_addData; assumption.
  - (eapply ticksRebuilt_inputs; [apply tickInputs_setBarSpace; discriminate | exact W]).
  - unfold setTotalBarSpace. destruct (negb _); [|exact W]. cbv zeta.
    ticks_via tickInputs_setCrosshair.
    ticks_via tickInputs_adjustVisibleRange. exact W.
  - unfold setOffsetRightDistance. destruct isUpdate; cbv zeta; [|exact W].
    ticks_via tickInputs_refresh. exact W.
  - unfold scroll. destruct (negb _); [exact W|]. cbv zeta.
    match goal with |- ticksKept (if ?c then _ else _) => destruct c end;
      [ticks_via tickInputs_emit|]; ticks_via tickInputs_refresh; exact W.
  - unfold zoom. destruct (negb _); [exact W|]. cbv zeta.
    match goal with |- ticksKept (if ?c then _ else _) => destruct c end;
      [ticks_via tickInputs_emit|];
      (eapply ticksRebuilt_inputs;
       [apply tickInputs_setBarSpace; intros g t [= <-]; reflexivity | exact W]).
  - ticks_via tickInputs_setCrosshair. exact W.
  - eapply ticksRebuilt_inputs; [apply tickInputs_setOptions, K | exact W].
  - split; reflexivity.
Qed.

(** X19.  The tick map that [addData] maintains incrementally (a rebuild on
    an initial list and on a page of older bars, a continuation on a page of
    newer bars and on a new bar, nothing on a replaced last bar) is the map
    that one classification of the whole data list builds, after any
    sequence of calls in which [setOptions] names no time zone and no
    single bar has the time stamp 0. *)
Theorem timeTicks_incremental_is_rebuild (format : Z -> DateTime) (w : Q)
    (ms : list Mutation) :
  Forall keepsTickInputs ms ->
  let s := performAll ms (newStore format w) in
  _timeTicks s = classifyLoop (_dateTimeFormat s) (_dataList s) 0 0 None [].
Proof.
  intro K. cbv zeta.
  assert (G : ticksKept (performAll ms (newStore format w))); [|exact (proj2 G)].
  unfold performAll.
  assert (W : ticksKept (newStore format w)) by (split; reflexivity).
  revert W. generalize (newStore format w).
  induction K as [|m ms Km K IH]; intros s W; cbn; [exact W|].
  apply IH, ticksRebuilt_perform; assumption.
Qed.

Lemma timeTicks_incremental_is_rebuild_witness :
  Forall keepsTickInputs
    [SetTotalBarSpace 300; AddData (inr minuteBars) Init None;
     AddData (inl (exampleBar 1800000 1 2)) Backward None;
     SetOptions (Some (mkOverrideOptions None (Some 80))) None;
     AddData (inr twoBars) Forward None]
  /\ (let s :=
        performAll
          [SetTotalBarSpace 300; AddData (inr minuteBars) Init None;
           AddData (inl (exampleBar 1800000 1 2)) Backward None;
           SetOptions (Some (mkOverrideOptions None (Some 80))) None;
           AddData (inr twoBars) Forward None]
          (newStore exampleFormat 100) in
      _timeTicks s = classifyLoop (_dateTimeFormat s) (_dataList s) 0 0 None []).
Proof.
  assert (K : Forall keepsTickInputs
    [SetTotalBarSpace 300; AddData (inr minuteBars) Init None;
     AddData (inl (exampleBar 1800000 1 2)) Backward None;
     SetOptions (Some (mkOverrideOptions None (Some 80))) None;
     AddData (inr twoBars) Forward None]).
  { repeat constructor. cbn. discriminate. }
  split; [exact K | exact (timeTicks_incremental_is_rebuild exampleFormat 100 _ K)].
Defined.

(** What the two conditions exclude.  A time-zone change classifies the
    data list with the formatter in force and stores the new formatter
    afterwards: the tick of the second bar has the weight [Minute] of the
    old formatter where the new one gives [Hour]. *)
Example timeTicks_after_timezone_change :
  let s :=
    performAll
      [AddData (inr [exampleBar 0 1 1; exampleBar 2700000 1 1]) Init None;
       SetOptions (Some (mkOverrideOptions (Some "Asia/Kolkata"%string) None))
         (Some halfHourAhead)]
      (newStore exampleFormat 100) in
  map fst (_timeTicks s) = [1; 60]%Z
  /\ map fst (classifyLoop (_dateTimeFormat s) (_dataList s) 0 0 None []) = [1; 3600]%Z.
Proof. vm_compute. split; reflexivity. Qed.

(** A bar with time stamp 0 upserted into an empty list is stored under
    the key [-1]; the next bar is classified against it (a day later:
    weight [Day]) where a classification of the list, which holds that one
    bar, gives the weight [Second]. *)
Example timeTicks_after_bar_under_minus_one :
  let s :=
    performAll
      [AddData (inl (exampleBar 0 1 1)) Backward None;
       AddData (inl (exampleBar 86400000 1 1)) Backward None]
      (newStore exampleFormat 100) in
  _dataList s = [exampleBar 86400000 1 1]
  /\ map fst (_timeTicks s) = [86400]%Z
  /\ map fst (classifyLoop (_dateTimeFormat s) (_dataList s) 0 0 None []) = [1]%Z.
Proof. vm_compute. repeat split; reflexivity. Qed.

(** ** Time ticks: one tick for each bar *)

Lemma Map_get_set_same (m : TimeTickMap) (k : Z) (v : list TimeTick) :
  Map_get (Map_set m k v) k = Some v.
Proof.
  induction m as [|[k' v'] m IH]; cbn.
  - rewrite Z.eqb_refl. reflexivity.
  - destruct (Z.eqb_spec k' k) as [->|N]; cbn.
    + rewrite Z.eqb_refl. reflexivity.
    + destruct (Z.eqb_spec k' k); [contradiction | exact IH].
Qed.

Lemma Map_get_set_other (m : TimeTickMap) (k k' : Z) (v : list TimeTick) :
  k <> k' -> Map_get (Map_set m k v) k' = Map_get m k'.
Proof.
  intro N. induction m as [|[k0 v0] m IH]; cbn.
  - destruct (Z.eqb_spec k k'); [contradiction | reflexivity].
  - destruct (Z.eqb_spec k0 k) as [->|N0]; cbn.
    + destruct (Z.eqb_spec k k'); [contradiction | reflexivity].
    + destruct (Z.eqb_spec k0 k'); [reflexivity | exact IH].
Qed.

Lemma at_index_app1 {A : Type} (l l' : list A) (i : Z) :
  (i < Z.of_nat (List.length l))%Z -> at_index (l ++ l') i = at_index l i.
Proof.
  intro H. unfold at_index. destruct (i <? 0)%Z eqn:E; [reflexivity|].
  apply nth_error_app1. apply Z.ltb_ge in E. lia.
Qed.

Lemma at_index_snoc {A : Type} (l : list A) (a : A) :
  at_index (l ++ [a]) (Z.of_nat (List.length l)) = Some a.
Proof.
  unfold at_index. destruct (Z.ltb_spec (Z.of_nat (List.length l)) 0); [lia|].
  rewrite Nat2Z.id, nth_error_app2, Nat.sub_diag by lia. reflexivity.
Qed.

Lemma at_index_Some_range {A : Type} (l : list A) (i : Z) (a : A) :
  at_index l i = Some a -> (0 <= i < Z.of_nat (List.length l))%Z.
Proof.
  unfold at_index. destruct (Z.ltb_spec i 0); [discriminate|]. intro Hn.
  assert (Z.to_nat i < List.length l)%nat by (apply nth_error_Some; congruence). lia.
Qed.

Lemma tickOfBar_app (format : Z -> DateTime) (l l' : list KLineData) (i : Z)
    (bar : KLineData) :
  (i <= Z.of_nat (List.length l))%Z ->
  tickOfBar format (l ++ l') i bar = tickOfBar format l i bar.
Proof.
  intro H. unfold tickOfBar. rewrite at_index_app1 by lia. reflexivity.
Qed.

Lemma StronglySorted_snoc_gen {A : Type} (R : A -> A -> Prop) (l : list A) (a : A) :
  StronglySorted R l -> (forall x, In x l -> R x a) -> StronglySorted R (l ++ [a]).
Proof.
  intro S. induction S as [|h t S IH F]; intro Hall; cbn.
  - constructor; constructor.
  - constructor.
    + apply IH. intros x Hx. apply Hall. right. exact Hx.
    + apply Forall_app. split; [exact F|]. constructor; [|constructor].
      apply Hall. left. reflexivity.
Qed.

Lemma classified_lift (format : Z -> DateTime) (l : list KLineData) (bar : KLineData)
    (t : TimeTick) :
  (exists b, at_index l (dataIndex t) = Some b /\ t = tickOfBar format l (dataIndex t) b) ->
  (dataIndex t < Z.of_nat (List.length l))%Z
  /\ exists b, at_index (l ++ [bar]) (dataIndex t) = Some b
               /\ t = tickOfBar format (l ++ [bar]) (dataIndex t) b.
Proof.
  intros (b & Hb & Et). pose proof (at_index_Some_range _ _ _ Hb) as R.
  split; [lia|]. exists b. rewrite at_index_app1, tickOfBar_app by lia.
  split; assumption.
Qed.

Lemma classified_snoc (format : Z -> DateTime) (l : list KLineData) (bar : KLineData)
    (ticks : TimeTickMap) :
  classified format l ticks ->
  classified format (l ++ [bar])
    (classifyLoop format [bar] 0 (Z.of_nat (List.length l))
       (at_index l (Z.of_nat (List.length l) - 1)) ticks).
Proof.
  intros (C1 & C2 & C3). cbn [classifyLoop]. cbv zeta. rewrite Z.add_0_l.
  set (n := Z.of_nat (List.length l)).
  assert (Et : mkTimeTick
                 (tickWeight (format (timestamp bar))
                    (option_map (fun p => format (timestamp p)) (at_index l (n - 1))))
                 n (format (timestamp bar)) (timestamp bar)
               = tickOfBar format (l ++ [bar]) n bar).
  { unfold tickOfBar. rewrite at_index_app1 by (unfold n; lia). reflexivity. }
  rewrite Et.
  change (tickWeight (format (timestamp bar))
            (option_map (fun p => format (timestamp p)) (at_index l (n - 1))))
    with (weight (mkTimeTick
                    (tickWeight (format (timestamp bar))
                       (option_map (fun p => format (timestamp p)) (at_index l (n - 1))))
                    n (format (timestamp bar)) (timestamp bar))).
  rewrite Et.
  assert (Di : dataIndex (tickOfBar format (l ++ [bar]) n bar) = n) by reflexivity.
  set (tick := tickOfBar format (l ++ [bar]) n bar) in *.
  set (w := weight tick).
  set (old := match Map_get ticks w with Some tl => tl | None => [] end).
  assert (Hold : forall t, In t old ->
                   weight t = w
                   /\ exists b, at_index l (dataIndex t) = Some b
                                /\ t = tickOfBar format l (dataIndex t) b).
  { unfold old. destruct (Map_get ticks w) as [tl|] eqn:G; [|intros t []].
    intros t Ht. exact (C2 w tl t G Ht). }
  assert (Sold : StronglySorted indexBefore old).
  { unfold old. destruct (Map_get ticks w) as [tl|] eqn:G; [|constructor].
    exact (C3 w tl G). }
  split; [|split].
  - intros i b Hb. pose proof (at_index_Some_range _ _ _ Hb) as R.
    rewrite length_app in R. cbn [List.length] in R.
    destruct (Z.eq_dec i n) as [->|Ni].
    + unfold n in Hb. rewrite at_index_snoc in Hb. injection Hb as <-.
      fold n tick w. exists (old ++ [tick]). split; [apply Map_get_set_same|].
      apply in_or_app. right. left. reflexivity.
    + assert (Hi : (i < Z.of_nat (List.length l))%Z) by (unfold n in Ni; lia).
      rewrite at_index_app1 in Hb by exact Hi. rewrite tickOfBar_app by lia.
      destruct (C1 i b Hb) as (bucket & G & I).
      destruct (Z.eq_dec w (weight (tickOfBar format l i b))) as [Ew|Nw].
      * rewrite <- Ew. exists (old ++ [tick]). split; [apply Map_get_set_same|].
        apply in_or_app. left. unfold old. rewrite Ew, G. exact I.
      * exists bucket. rewrite Map_get_set_other by exact Nw. split; assumption.
  - intros w' bucket t G I.
    destruct (Z.eq_dec w w') as [<-|Nw].
    + rewrite Map_get_set_same in G. injection G as <-.
      apply in_app_or in I. destruct I as [I|[<-|[]]].
      * destruct (Hold t I) as [Hw Hb]. split; [exact Hw|].
        apply (classified_lift format l bar t Hb).
      * split; [reflexivity|]. exists bar. rewrite Di. unfold n.
        rewrite at_index_snoc. split; reflexivity.
    + rewrite Map_get_set_other in G by exact Nw.
      destruct (C2 w' bucket t G I) as [Hw Hb]. split; [exact Hw|].
      apply (classified_lift format l bar t Hb).
  - intros w' bucket G.
    destruct (Z.eq_dec w w') as [<-|Nw].
    + rewrite Map_get_set_same in G. injection G as <-.
      apply StronglySorted_snoc_gen; [exact Sold|].
      intros t I. destruct (Hold t I) as [_ Hb].
      unfold indexBefore. rewrite Di.
      apply (classified_lift format l bar t Hb).
    + rewrite Map_get_set_other in G by exact Nw. exact (C3 w' bucket G).
Qed.

Lemma classified_from_scratch (format : Z -> DateTime) (l : list KLineData) :
  classified format l (classifyLoop format l 0 0 None []).
Proof.
  induction l as [|bar l IH] using rev_ind.
  - cbn. split; [|split].
    + intros i b H. unfold at_index in H. destruct (i <? 0)%Z; [discriminate|].
      destruct (Z.to_nat i); discriminate H.
    + intros w bucket t H. discriminate H.
    + intros w bucket H. discriminate H.
  - rewrite <- classifyLoop_continue. apply classified_snoc, IH.
Qed.

(** X20.  [_classifyTimeTicks], run on a whole list, files exactly one tick
    for each bar: the tick of bar [i] (its index, time stamp and formatted
    date, weighted by the first date field that differs from the bar
    before) is in the bucket of its weight; every tick of every bucket is
    the tick of a bar of the list, in the bucket of its own weight; and
    every bucket lists its ticks by strictly increasing index. *)
Theorem classifyTimeTicks_one_tick_per_bar (data : list KLineData) (s : Store) :
  let ticks := _timeTicks (_classifyTimeTicks data false s) in
  (forall i bar, at_index data i = Some bar ->
     exists bucket,
       Map_get ticks (weight (tickOfBar (_dateTimeFormat s) data i bar)) = Some bucket
       /\ In (tickOfBar (_dateTimeFormat s) data i bar) bucket)
  /\ (forall w bucket tick, Map_get ticks w = Some bucket -> In tick bucket ->
        weight tick = w
        /\ exists bar, at_index data (dataIndex tick) = Some bar
                       /\ tick = tickOfBar (_dateTimeFormat s) data (dataIndex tick) bar)
  /\ (forall w bucket, Map_get ticks w = Some bucket -> StronglySorted indexBefore bucket).
Proof.
  exact (classified_from_scratch (_dateTimeFormat s) data).
Qed.

(** ** Time ticks: what the merge keeps and what it drops *)

Lemma drainPrevTicks_spec (prevRest tickList : list TimeTick)
    (leftIndex rightIndex : option Z) (currentIndex : Z) :
  forall prevRest' tickList' leftIndex' rightIndex',
    drainPrevTicks prevRest tickList leftIndex rightIndex currentIndex
    = (prevRest', tickList', leftIndex', rightIndex') ->
    exists moved,
      prevRest = moved ++ prevRest' /\ tickList' = tickList ++ moved
      /\ (forall m, In m moved -> (dataIndex m < currentIndex)%Z)
      /\ (leftIndex' = leftIndex
          \/ exists m, In m moved /\ leftIndex' = Some (dataIndex m))
      /\ match prevRest' with
         | [] => moved = [] /\ rightIndex' = rightIndex \/ rightIndex' = None
         | next :: _ =>
             rightIndex' = Some (dataIndex next) /\ (currentIndex <= dataIndex next)%Z
         end.
Proof.
  revert tickList leftIndex rightIndex.
  induction prevRest as [|lastMark rest IH];
    intros tickList leftIndex rightIndex pr tl li ri E; cbn in E.
  - injection E as <- <- <- <-. exists []. rewrite (app_nil_r tickList). cbn [app].
    split; [reflexivity|]. split; [reflexivity|]. split; [intros m []|].
    split; [left; reflexivity | left; split; reflexivity].
  - destruct (Z.ltb_spec (dataIndex lastMark) currentIndex) as [Hlt|Hge].
    + destruct (IH _ _ _ _ _ _ _ E) as (moved & E1 & E2 & Hm & Hl & Hr).
      exists (lastMark :: moved). split; [cbn; rewrite <- E1; reflexivity|].
      split; [rewrite E2, <- app_assoc; reflexivity|].
      split; [intros m [<-|Hin]; [exact Hlt | apply Hm, Hin]|].
      split.
      * right. destruct Hl as [->|(m & Hin & ->)].
        -- exists lastMark. split; [left; reflexivity | reflexivity].
        -- exists m. split; [right; exact Hin | reflexivity].
      * destruct pr as [|next pr']; [|exact Hr].
        right. destruct Hr as [[_ Hr] | Hr]; exact Hr.
    + injection E as <- <- <- <-. exists []. rewrite (app_nil_r tickList). cbn [app].
      split; [reflexivity|]. split; [reflexivity|]. split; [intros m []|].
      split; [left; reflexivity | split; [reflexivity | exact Hge]].
Qed.

Lemma mergeCurrentTicks_membership (barCount : Z)
    (currentTicks prevRest tickList : list TimeTick) (leftIndex rightIndex : option Z)
    (t : TimeTick) :
  (In t prevRest \/ In t tickList ->
   In t (mergeCurrentTicks barCount currentTicks prevRest tickList leftIndex rightIndex))
  /\ (In t (mergeCurrentTicks barCount currentTicks prevRest tickList leftIndex rightIndex) ->
      In t currentTicks \/ In t prevRest \/ In t tickList).
Proof.
  revert prevRest tickList leftIndex rightIndex.
  induction currentTicks as [|tick more IH];
    intros prevRest tickList leftIndex rightIndex; cbn [mergeCurrentTicks].
  - split.
    + intros [H|H]; apply in_or_app; [right | left]; exact H.
    + intro H. apply in_app_or in H. right. tauto.
  - destruct (drainPrevTicks prevRest tickList leftIndex rightIndex (dataIndex tick))
      as [[[pr tl] li] ri] eqn:E.
    destruct (drainPrevTicks_spec _ _ _ _ _ _ _ _ _ E) as (moved & E1 & E2 & _).
    assert (M : In t prevRest \/ In t tickList <-> In t pr \/ In t tl).
    { rewrite E1, E2, !in_app_iff. tauto. }
    destruct (rightFar ri (dataIndex tick) barCount && leftFar li (dataIndex tick) barCount).
    + destruct (IH pr (tl ++ [tick]) (Some (dataIndex tick)) ri) as [I1 I2]. split.
      * intro H. apply I1. apply M in H. rewrite in_app_iff. tauto.
      * intro H. apply I2 in H. rewrite in_app_iff in H. cbn [In] in *.
        tauto.
    + destruct (IH pr tl li ri) as [I1 I2]. split.
      * intro H. apply I1, M, H.
      * intro H. apply I2 in H. cbn [In].
        destruct H as [H|H]; [tauto|]. apply M in H. tauto.
Qed.

(** X21.  Merging the ticks of a finer weight into the list built from the
    coarser weights keeps every tick of that list, and adds ticks of the
    finer weight only. *)
Theorem merge_keeps_coarser_ticks (barCount : Z) (currentTicks prevTickList : list TimeTick)
    (t : TimeTick) :
  let tickList := mergeCurrentTicks barCount currentTicks prevTickList [] None None in
  (In t prevTickList -> In t tickList)
  /\ (In t tickList -> In t prevTickList \/ In t currentTicks).
Proof.
  cbv zeta.
  destruct (mergeCurrentTicks_membership barCount currentTicks prevTickList [] None None t)
    as [I1 I2].
  split; [intro H; apply I1; left; exact H|].
  intro H. apply I2 in H. cbn [In] in H. tauto.
Qed.

Lemma mergeCurrentTicks_maximal (barCount : Z)
    (currentTicks prevRest tickList : list TimeTick) (leftIndex rightIndex : option Z) :
  StronglySorted indexBefore currentTicks ->
  (forall l, leftIndex = Some l ->
     (exists u, In u tickList /\ dataIndex u = l)
     /\ forall c, In c currentTicks -> (l < dataIndex c)%Z) ->
  (forall r, rightIndex = Some r ->
     exists u rest, prevRest = u :: rest /\ dataIndex u = r) ->
  forall c, In c currentTicks ->
    In c (mergeCurrentTicks barCount currentTicks prevRest tickList leftIndex rightIndex)
    \/ exists u,
         In u (mergeCurrentTicks barCount currentTicks prevRest tickList leftIndex rightIndex)
         /\ (dataIndex c - dataIndex u < barCount)%Z
         /\ (dataIndex u - dataIndex c < barCount)%Z.
Proof.
  revert prevRest tickList leftIndex rightIndex.
  induction currentTicks as [|c0 more IH];
    intros prevRest tickList leftIndex rightIndex S IL IR c Hc; [destruct Hc|].
  cbn [mergeCurrentTicks].
  destruct (drainPrevTicks prevRest tickList leftIndex rightIndex (dataIndex c0))
    as [[[pr tl] li] ri] eqn:E.
  destruct (drainPrevTicks_spec _ _ _ _ _ _ _ _ _ E) as (moved & E1 & E2 & Hm & Hl & Hr).
  apply StronglySorted_inv in S. destruct S as [Smore Fmore].
  rewrite Forall_forall in Fmore. unfold indexBefore in Fmore.
  assert (L' : forall l, li = Some l ->
                 (exists u, In u tl /\ dataIndex u = l) /\ (l < dataIndex c0)%Z).
  { intros l El. destruct Hl as [->|(m & Hin & Em)].
    - destruct (IL l El) as [(u & Hu & Eu) Hlt]. split.
      + exists u. split; [rewrite E2; apply in_or_app; left; exact Hu | exact Eu].
      + apply Hlt. left. reflexivity.
    - rewrite Em in El. injection El as <-. split.
      + exists m. split; [rewrite E2; apply in_or_app; right; exact Hin | reflexivity].
      + apply Hm, Hin. }
  assert (R' : forall r, ri = Some r ->
                 exists u rest, pr = u :: rest /\ dataIndex u = r
                                /\ (dataIndex c0 <= r)%Z).
  { intros r Er. destruct pr as [|next pr'].
    - destruct Hr as [[-> Hri]|Hri]; [|congruence].
      rewrite Hri in Er. destruct (IR r Er) as (u & rest & Ep & _).
      rewrite Ep in E1. discriminate E1.
    - destruct Hr as [Hri Hge]. rewrite Hri in Er. injection Er as <-.
      exists next, pr'. repeat split. exact Hge. }
  destruct (rightFar ri (dataIndex c0) barCount && leftFar li (dataIndex c0) barCount) eqn:A.
  - destruct Hc as [<-|Hc].
    + left. apply mergeCurrentTicks_membership. right. apply in_or_app. right.
      left. reflexivity.
    + apply IH; try assumption.
      * intros l [= <-]. split.
        -- exists c0. split; [apply in_or_app; right; left; reflexivity | reflexivity].
        -- intros c' Hc'. apply Fmore, Hc'.
      * intros r Er. destruct (R' r Er) as (u & rest & Ep & Eu & _).
        exists u, rest. split; assumption.
  - destruct Hc as [<-|Hc].
    + right. apply andb_false_iff in A. destruct A as [A|A].
      * unfold rightFar in A. destruct ri as [r|]; [|discriminate A].
        destruct (R' r eq_refl) as (u & rest & Ep & Eu & Hge).
        exists u. split.
        -- apply mergeCurrentTicks_membership. left. rewrite Ep. left. reflexivity.
        -- rewrite Z.geb_leb in A. apply Z.leb_gt in A. lia.
      * unfold leftFar in A. destruct li as [l|]; [|discriminate A].
        destruct (L' l eq_refl) as [(u & Hu & Eu) Hlt].
        exists u. split.
        -- apply mergeCurrentTicks_membership. right. exact Hu.
        -- rewrite Z.geb_leb in A. apply Z.leb_gt in A. lia.
    + apply IH; try assumption.
      * intros l El. destruct (L' l El) as [Hu Hlt]. split; [exact Hu|].
        intros c' Hc'. specialize (Fmore c' Hc'). lia.
      * intros r Er. destruct (R' r Er) as (u & rest & Ep & Eu & _).
        exists u, rest. split; assumption.
Qed.

(** X22.  The merge drops a tick of the finer weight only when it would be
    closer than [barCount] bars to a tick that is kept: every tick of a
    bucket (the ticks of a bucket are in the order of the bars) is in the
    merged list or within less than [barCount] bars of a tick of the merged
    list. *)
Theorem merge_drops_only_crowded_ticks (barCount : Z)
    (currentTicks prevTickList : list TimeTick) (c : TimeTick) :
  StronglySorted indexBefore currentTicks -> In c currentTicks ->
  let tickList := mergeCurrentTicks barCount currentTicks prevTickList [] None None in
  In c tickList
  \/ exists u, In u tickList
               /\ (dataIndex c - dataIndex u < barCount)%Z
               /\ (dataIndex u - dataIndex c < barCount)%Z.
Proof.
  intros S Hc. cbv zeta.
  apply mergeCurrentTicks_maximal; try assumption; intros ? [=].
Qed.

Lemma merge_drops_only_crowded_ticks_witness :
  let a := mkTimeTick 60 1 (exampleFormat 60000) 60000 in
  let b := mkTimeTick 60 2 (exampleFormat 120000) 120000 in
  In b (mergeCurrentTicks 5 [a; b] [] [] None None)
  \/ exists u, In u (mergeCurrentTicks 5 [a; b] [] [] None None)
               /\ (dataIndex b - dataIndex u < 5)%Z
               /\ (dataIndex u - dataIndex b < 5)%Z.
Proof.
  cbv zeta.
  apply (merge_drops_only_crowded_ticks 5
           [mkTimeTick 60 1 (exampleFormat 60000) 60000;
            mkTimeTick 60 2 (exampleFormat 120000) 120000] []).
  - repeat constructor.
  - right. left. reflexivity.
Defined.

Lemma mergedTickList_from_buckets (barCount : Z) (ticks : TimeTickMap) (keys : list Z)
    (acc : list TimeTick) (t : TimeTick) :
  In t (fold_left
          (fun prevTickList key =>
             mergeCurrentTicks barCount
               match Map_get ticks key with Some l => l | None => [] end
               prevTickList [] None None)
          keys acc) ->
  In t acc \/ exists key bucket, Map_get ticks key = Some bucket /\ In t bucket.
Proof.
  revert acc. induction keys as [|key keys IH]; intros acc H; cbn [fold_left] in H.
  - left. exact H.
  - apply IH in H. destruct H as [H|H]; [|right; exact H].
    apply mergeCurrentTicks_membership in H. cbn [In] in H.
    destruct H as [H|[H|[]]]; [|left; exact H].
    destruct (Map_get ticks key) as [bucket|] eqn:G; [|destruct H].
    right. exists key, bucket. split; assumption.
Qed.

(** X23.  The tick list of the axis holds classified ticks only: each of its
    ticks is in a bucket of the tick map, and its index is within the
    visible range, both ends included. *)
Theorem visible_ticks_are_classified (s : Store) (t : TimeTick) :
  In t (_visibleRangeTimeTickList (_adjustVisibleRangeTimeTickList s)) ->
  (from (_visibleRange s) <= dataIndex t <= to (_visibleRange s))%Z
  /\ exists key bucket, Map_get (_timeTicks s) key = Some bucket /\ In t bucket.
Proof.
  unfold _adjustVisibleRangeTimeTickList. cbv zeta.
  cbn [_visibleRangeTimeTickList set_visibleRangeTimeTickList].
  intro H. apply filter_In in H. destruct H as [H R]. split.
  - apply andb_prop in R. destruct R as [R1 R2].
    rewrite Z.geb_leb in R1. apply Z.leb_le in R1. apply Z.leb_le in R2. lia.
  - unfold mergedTickList in H. cbv zeta in H.
    apply mergedTickList_from_buckets in H. destruct H as [[]|H]. exact H.
Qed.

Lemma visible_ticks_are_classified_witness :
  (from (_visibleRange minuteStore) <= 11 <= to (_visibleRange minuteStore))%Z.
Proof.
  apply (visible_ticks_are_classified minuteStore
           (mkTimeTick 60 11 (exampleFormat 660000) 660000)).
  vm_compute. right. left. reflexivity.
Defined.

(** ** The crosshair is refreshed in silence *)

Lemma optQ_eqb_refl (a : option Q) : optQ_eqb a a = true.
Proof. destruct a as [q|]; cbn; [apply Qeq_bool_iff; reflexivity | reflexivity]. Qed.

Lemma optString_eqb_refl (a : option string) : optString_eqb a a = true.
Proof. destruct a as [q|]; cbn; [apply String.eqb_refl | reflexivity]. Qed.

Lemma crosshairCalls_emit (e : Effect) (s : Store) :
  isCrosshairCall e = false -> crosshairCalls (emit e s) = crosshairCalls s.
Proof.
  intro H. unfold crosshairCalls, emit. cbn [_effects set_effects].
  rewrite filter_app, length_app. cbn. rewrite H. cbn. lia.
Qed.

Lemma crosshairCalls_same (a b : Store) :
  _effects a = _effects b -> crosshairCalls a = crosshairCalls b.
Proof. unfold crosshairCalls. intros ->. reflexivity. Qed.

(** [setCrosshair(this._crosshair, true)]: the coordinates and the pane are
    the stored ones, so nothing is notified. *)
Lemma effects_refreshCrosshair (b : bool) (s : Store) :
  _effects (setCrosshair (Some (_crosshair s)) b s) = _effects s.
Proof.
  unfold setCrosshair.
  match goal with |- context [match ?p with (a, b) => _ end] => destruct p as [rdi di] end.
  cbv zeta. rewrite !optQ_eqb_refl, optString_eqb_refl. reflexivity.
Qed.

Lemma crosshairCalls_requestMoreData (s : Store) :
  crosshairCalls (requestMoreData s) = crosshairCalls s.
Proof.
  unfold requestMoreData.
  repeat (break_if; try reflexivity); rewrite crosshairCalls_emit by reflexivity;
    reflexivity.
Qed.

Lemma crosshairCalls_adjustVisibleRange (s : Store) :
  crosshairCalls (_adjustVisibleRange s) = crosshairCalls s.
Proof.
  destruct (adjustVisibleRange_decompose s) as (mid & -> & _ & _ & _ & E).
  rewrite crosshairCalls_requestMoreData.
  unfold crosshairCalls. rewrite E, filter_app, length_app. cbn. lia.
Qed.

Lemma crosshairCalls_refresh (s : Store) :
  crosshairCalls
    (emit ChartLayout (setCrosshair (Some (_crosshair (_adjustVisibleRange s))) true
                         (_adjustVisibleRange s)))
  = crosshairCalls s.
Proof.
  rewrite crosshairCalls_emit by reflexivity.
  rewrite (crosshairCalls_same _ _ (effects_refreshCrosshair true _)).
  apply crosshairCalls_adjustVisibleRange.
Qed.

Lemma crosshairCalls_submitIndicators (type : LoadDataType)
    (l : list (string * list string)) (s : Store) :
  crosshairCalls
    (fold_left
       (fun s '(pane, indicators) =>
          fold_left (fun s name => emit (AddIndicatorCalcTask pane name type) s)
            indicators s) l s)
  = crosshairCalls s.
Proof.
  revert s. induction l as [|[pane names] l IH]; intro s; cbn; [reflexivity|].
  rewrite IH. clear IH. revert s.
  induction names as [|n names IH]; intro s; cbn; [reflexivity|].
  rewrite IH. apply crosshairCalls_emit. reflexivity.
Qed.

Lemma crosshairCalls_afterDataChange (type : LoadDataType) (s : Store) :
  crosshairCalls (afterDataChange type s) = crosshairCalls s.
Proof.
  unfold afterDataChange. rewrite crosshairCalls_emit by reflexivity.
  rewrite crosshairCalls_submitIndicators.
  rewrite (crosshairCalls_same _ _ (effects_refreshCrosshair true _)).
  apply crosshairCalls_adjustVisibleRange.
Qed.

Lemma crosshairCalls_setBarSpace (barSpace : Q) (f : option (Store -> Store)) (s : Store) :
  (forall g t, f = Some g -> _effects (g t) = _effects t) ->
  crosshairCalls (setBarSpace barSpace f s) = crosshairCalls s.
Proof.
  intro Hf. unfold setBarSpace. repeat (break_if; try reflexivity); cbv zeta.
  - rewrite crosshairCalls_refresh. apply crosshairCalls_same.
    rewrite (Hf _ _ eq_refl). reflexivity.
  - rewrite crosshairCalls_refresh. reflexivity.
Qed.

Ltac same_calls :=
  match goal with
  | |- crosshairCalls ?a = crosshairCalls ?b =>
      apply crosshairCalls_same;
      first [reflexivity | apply (proj1 (effects_assignLastData _ _))]
  end.

(** X24.  Only a call of [setCrosshair] by the client reports a crosshair
    change.  Every other mutation that refreshes the crosshair (a load, a
    change of the bar space or of the width, a scroll, a zoom) does it in
    silence: it calls neither [chart.crosshairChange] nor
    [chart.updatePane]. *)
Theorem crosshair_refreshed_in_silence (s : Store) (m : Mutation) :
  isSetCrosshair m = false -> crosshairCalls (perform s m) = crosshairCalls s.
Proof.
  intro Hm. destruct m; cbn [perform]; try reflexivity; try discriminate Hm.
  - unfold addData. destruct data as [bar|data].
    + cbv zeta. destruct (_ >? _)%Z; [destruct (Qlt_le_dec _ _) | destruct (_ =? _)%Z];
        try reflexivity; rewrite crosshairCalls_afterDataChange; same_calls.
    + destruct type; cbv zeta; try destruct (_ >? _)%Z;
        try rewrite crosshairCalls_afterDataChange; same_calls.
  - apply crosshairCalls_setBarSpace. discriminate.
  - unfold setTotalBarSpace. destruct (negb _); [|reflexivity]. cbv zeta.
    rewrite (crosshairCalls_same _ _ (effects_refreshCrosshair true _)).
    rewrite crosshairCalls_adjustVisibleRange. same_calls.
  - unfold setOffsetRightDistance. destruct isUpdate; cbv zeta.
    + rewrite crosshairCalls_refresh. same_calls.
    + same_calls.
  - unfold scroll. destruct (negb _); [reflexivity|]. cbv zeta.
    match goal with |- crosshairCalls (if ?c then _ else _) = _ => destruct c end;
      rewrite ?crosshairCalls_emit by reflexivity;
      rewrite (crosshairCalls_same _ _ (effects_refreshCrosshair true _));
      rewrite crosshairCalls_adjustVisibleRange; same_calls.
  - unfold zoom. destruct (negb _); [reflexivity|]. cbv zeta.
    match goal with |- crosshairCalls (if ?c then _ else _) = _ => destruct c end;
      [rewrite crosshairCalls_emit by reflexivity|];
      apply crosshairCalls_setBarSpace; intros g t [= <-]; reflexivity.
  - apply crosshairCalls_same, (proj1 (effects_setOptions _ _ _)).
Qed.

Lemma crosshair_refreshed_in_silence_witness :
  crosshairCalls (perform fiveBarStore (Scroll 30)) = crosshairCalls fiveBarStore.
Proof.
  apply crosshair_refreshed_in_silence. reflexivity.
Defined.

(** ** Zooming past the limits *)

(** X25.  A [zoom] that asks for a bar space below 1 or above 50 changes
    nothing: the store is returned as it is, and the [OnZoom] action is not
    executed (the real scale is 1). *)
Theorem zoom_out_of_limits (scale : Q) (coordinate : option Q) (s : Store) :
  0 < _barSpace s ->
  zoomedBarSpace scale s < 1 \/ 50 < zoomedBarSpace scale s ->
  zoom scale coordinate s = s.
Proof.
  intros Hb H. unfold zoom. destruct (negb (_zoomEnabled s)); [reflexivity|].
  cbv zeta. fold (zoomedBarSpace scale s).
  assert (E : forall f, setBarSpace (zoomedBarSpace scale s) f s = s).
  { intro f. unfold setBarSpace, BarSpaceLimitConstants.MIN, BarSpaceLimitConstants.MAX.
    destruct (Qlt_le_dec (zoomedBarSpace scale s) 1) as [|H1]; [reflexivity|].
    destruct (Qlt_le_dec 50 (zoomedBarSpace scale s)) as [|H2]; [reflexivity|].
    exfalso. destruct H; lra. }
  rewrite E.
  assert (R : Qeq_bool (_barSpace s / _barSpace s) 1 = true).
  { apply Qeq_bool_iff. field. lra. }
  rewrite R. reflexivity.
Qed.

Lemma zoom_out_of_limits_witness :
  zoom 50 (Some 100) twoBarStore = twoBarStore.
Proof.
  apply zoom_out_of_limits; [reflexivity | right; reflexivity].
Defined.

(** ** The indicators of the panes *)

Module IndicatorRegistryFacts.
Import IndicatorRegistry.

Lemma Map_get_In (m : IndicatorMap) (k : string) (v : list Indicator) :
  NoDup (map fst m) -> (Map_get m k = Some v <-> In (k, v) m).
Proof.
  induction m as [|[k0 v0] m IH]; cbn; intro N.
  - split; [discriminate | intros []].
  - inversion N as [|? ? Hnot N']; subst.
    destruct (String.eqb_spec k0 k) as [->|Ne].
    + split.
      * intros [= ->]. left. reflexivity.
      * intros [[= ->]|H]; [reflexivity|].
        exfalso. apply Hnot. apply (in_map fst) in H. exact H.
    + rewrite (IH N'). split.
      * intro H. right. exact H.
      * intros [[= -> ->]|H]; [contradiction | exact H].
Qed.

Lemma Map_get_set (m : IndicatorMap) (k k' : string) (v : list Indicator) :
  Map_get (Map_set m k v) k' = if String.eqb k k' then Some v else Map_get m k'.
Proof.
  induction m as [|[k0 v0] m IH]; cbn.
  - reflexivity.
  - destruct (String.eqb_spec k0 k) as [->|Ne]; cbn.
    + destruct (String.eqb_spec k k'); reflexivity.
    + rewrite IH. destruct (String.eqb_spec k0 k') as [->|Ne'].
      * destruct (String.eqb_spec k k'); [congruence | reflexivity].
      * reflexivity.
Qed.

Lemma In_Map_delete (m : IndicatorMap) (k : string) x :
  In x (Map_delete m k) -> In x m.
Proof.
  induction m as [|[k0 v0] m IH]; cbn; [tauto|].
  destruct (String.eqb k0 k); cbn; [tauto|]. intros [H|H]; [left; exact H|].
  right. apply IH, H.
Qed.

Lemma NoDup_keys_delete (m : IndicatorMap) (k : string) :
  NoDup (map fst m) -> NoDup (map fst (Map_delete m k)).
Proof.
  induction m as [|[k0 v0] m IH]; cbn; intro N; [constructor|].
  inversion N as [|? ? Hnot N']; subst.
  destruct (String.eqb k0 k); cbn; [exact N'|].
  constructor; [|apply IH, N'].
  intro H. apply Hnot. apply in_map_iff in H. destruct H as (x & E & H).
  apply In_Map_delete in H. apply in_map_iff. exists x. split; assumption.
Qed.

Lemma Map_get_delete (m : IndicatorMap) (k k' : string) :
  NoDup (map fst m) ->
  Map_get (Map_delete m k) k' = if String.eqb k k' then None else Map_get m k'.
Proof.
  induction m as [|[k0 v0] m IH]; cbn; intro N.
  - destruct (String.eqb k k'); reflexivity.
  - inversion N as [|? ? Hnot N']; subst.
    destruct (String.eqb_spec k0 k) as [->|Ne]; cbn.
    + destruct (String.eqb_spec k k') as [E|Ne'].
      * rewrite <- E. destruct (Map_get m k) eqn:G; [|reflexivity].
        apply (Map_get_In m k l N') in G. exfalso. apply Hnot.
        apply (in_map fst) in G. exact G.
      * reflexivity.
    + rewrite (IH N'). destruct (String.eqb_spec k0 k') as [->|Ne'].
      * destruct (String.eqb_spec k k'); [congruence | reflexivity].
      * reflexivity.
Qed.

Lemma In_Map_set (m : IndicatorMap) (k : string) (v : list Indicator) x :
  In x (Map_set m k v) -> x = (k, v) \/ In x m.
Proof.
  induction m as [|[k0 v0] m IH]; cbn.
  - intros [<-|[]]. left. reflexivity.
  - destruct (String.eqb_spec k0 k) as [->|Ne]; cbn.
    + intros [<-|H]; [left; reflexivity | right; right; exact H].
    + intros [<-|H]; [right; left; reflexivity|].
      destruct (IH H) as [->|H']; [left; reflexivity | right; right; exact H'].
Qed.

Lemma keys_Map_set (m : IndicatorMap) (k : string) (v : list Indicator) :
  map fst (Map_set m k v) = if Map_has m k then map fst m else map fst m ++ [k].
Proof.
  unfold Map_has. induction m as [|[k0 v0] m IH]; cbn; [reflexivity|].
  destruct (String.eqb_spec k0 k) as [->|Ne]; cbn; [reflexivity|].
  rewrite IH. destruct (Map_get m k); reflexivity.
Qed.

Lemma Map_has_keys (m : IndicatorMap) (k : string) :
  Map_has m k = false -> ~ In k (map fst m).
Proof.
  unfold Map_has. induction m as [|[k0 v0] m IH]; cbn; [tauto|].
  destruct (String.eqb_spec k0 k) as [->|Ne]; [discriminate|].
  intros H [E|I]; [contradiction | exact (IH H I)].
Qed.

Lemma NoDup_keys_set (m : IndicatorMap) (k : string) (v : list Indicator) :
  NoDup (map fst m) -> NoDup (map fst (Map_set m k v)).
Proof.
  intro N. rewrite keys_Map_set. destruct (Map_has m k) eqn:H; [exact N|].
  apply NoDup_app; [exact N | repeat constructor; intros [] |].
  intros a Ha [<-|[]]. exact (Map_has_keys m k H Ha).
Qed.

Lemma NoDup_names_filter (f : Indicator -> bool) (l : list Indicator) :
  NoDup (map name l) -> NoDup (map name (filter f l)).
Proof.
  induction l as [|h t IH]; cbn; intro N; [constructor|].
  inversion N as [|? ? Hnot N']; subst.
  destruct (f h); cbn; [|apply IH, N'].
  constructor; [|apply IH, N'].
  intro H. apply Hnot. apply in_map_iff in H. destruct H as (i & E & H).
  apply filter_In in H. apply in_map_iff. exists i. split; [exact E | apply H].
Qed.

Lemma sorted_filter (f : Indicator -> bool) (l : list Indicator) :
  StronglySorted zLevelOrder l -> StronglySorted zLevelOrder (filter f l).
Proof.
  intro S. induction S as [|a l S IH F]; cbn; [constructor|].
  destruct (f a); [|exact IH]. constructor; [exact IH|].
  rewrite Forall_forall in *. intros b Hb. apply filter_In in Hb. apply F, Hb.
Qed.

(** With distinct names, [findIndex] and [splice] remove the one
    indicator of the name. *)
Lemma spliceByName_spec (n : string) (l : list Indicator) :
  NoDup (map name l) ->
  match spliceByName n l with
  | Some rest =>
      In n (map name l) /\ rest = filter (fun i => negb (String.eqb (name i) n)) l
  | None =>
      ~ In n (map name l) /\ filter (fun i => negb (String.eqb (name i) n)) l = l
  end.
Proof.
  induction l as [|h t IH]; cbn; intro N; [split; [tauto | reflexivity]|].
  inversion N as [|? ? Hnot N']; subst.
  destruct (String.eqb_spec (name h) n) as [E|Ne]; cbn.
  - split; [left; exact E|]. subst n.
    symmetry. apply forallb_filter_id. apply forallb_forall. intros i Hi.
    destruct (String.eqb_spec (name i) (name h)) as [E|]; [|reflexivity].
    exfalso. apply Hnot. rewrite <- E. apply in_map, Hi.
  - specialize (IH N'). destruct (spliceByName n t) as [rest|]; cbn.
    + destruct IH as [I ->]. split; [right; exact I | reflexivity].
    + destruct IH as [I E]. split; [intros [H|H]; [contradiction | exact (I H)]|].
      rewrite E. reflexivity.
Qed.

Lemma removeEach_spec (paneId : string) (todo cur : list Indicator)
    (calls : list SchedulerCall) (removed : bool) :
  NoDup (map name cur) ->
  exists calls',
    removeEach paneId todo (cur, calls, removed)
    = (filter (fun i => negb (namedIn todo i)) cur, calls',
       removed || existsb (namedIn cur) todo).
Proof.
  revert cur calls removed.
  induction todo as [|j todo IH]; intros cur calls removed N; cbn [removeEach fold_left].
  - exists calls. cbn. rewrite orb_false_r.
    rewrite forallb_filter_id; [reflexivity|]. apply forallb_forall. reflexivity.
  - pose proof (spliceByName_spec (name j) cur N) as S.
    assert (F : forall l, filter (fun i => negb (namedIn todo i))
                            (filter (fun i => negb (String.eqb (name i) (name j))) l)
                          = filter (fun i => negb (namedIn (j :: todo) i)) l).
    { intro l. induction l as [|h t IHl]; cbn [filter]; [reflexivity|].
      change (namedIn (j :: todo) h)
        with (String.eqb (name h) (name j) || namedIn todo h).
      destruct (String.eqb (name h) (name j)); cbn [negb orb filter]; [exact IHl|].
      destruct (namedIn todo h); cbn [negb]; rewrite IHl; reflexivity. }
    destruct (spliceByName (name j) cur) as [rest|].
    + destruct S as [I ->].
      destruct (IH (filter (fun i => negb (String.eqb (name i) (name j))) cur)
                  (calls ++ [RemoveTask paneId (name j)]) true
                  (NoDup_names_filter _ _ N)) as (calls' & E).
      exists calls'. unfold removeEach in E. rewrite E, F. f_equal.
      cbn [existsb].
      assert (namedIn cur j = true) as ->.
      { unfold namedIn. apply existsb_exists. apply in_map_iff in I.
        destruct I as (i & Ei & Hi). exists i. split; [exact Hi|].
        apply String.eqb_eq. symmetry. exact Ei. }
      cbn. rewrite orb_true_r. reflexivity.
    + destruct S as [I Eid].
      destruct (IH cur calls removed N) as (calls' & E).
      exists calls'. unfold removeEach in E. rewrite E, <- F, Eid. f_equal.
      cbn [existsb].
      assert (namedIn cur j = false) as ->.
      { unfold namedIn. apply not_true_is_false. intro H. apply I.
        apply existsb_exists in H. destruct H as (i & Hi & Ei).
        apply String.eqb_eq in Ei. rewrite Ei. apply in_map, Hi. }
      reflexivity.
Qed.

Lemma pane_of_wellKept (reg : Registry) (paneId : string) :
  wellKept reg ->
  NoDup (map name (getIndicatorsByPaneId reg paneId))
  /\ StronglySorted zLevelOrder (getIndicatorsByPaneId reg paneId).
Proof.
  intros [N P]. unfold getIndicatorsByPaneId.
  destruct (Map_get (_indicators reg) paneId) as [l|] eqn:G.
  - apply (Map_get_In _ _ _ N) in G. destruct (P _ _ G) as (_ & H1 & H2).
    split; assumption.
  - split; constructor.
Qed.

Lemma wellKept_delete (reg : Registry) (paneId : string) (calls : list SchedulerCall) :
  wellKept reg -> wellKept (mkRegistry (Map_delete (_indicators reg) paneId) calls).
Proof.
  intros [N P]. split; cbn [_indicators].
  - apply NoDup_keys_delete, N.
  - intros q l H. apply In_Map_delete in H. exact (P q l H).
Qed.

Lemma wellKept_set (reg : Registry) (paneId : string) (l : list Indicator)
    (calls : list SchedulerCall) :
  wellKept reg -> paneOk l ->
  wellKept (mkRegistry (Map_set (_indicators reg) paneId l) calls).
Proof.
  intros [N P] Hl. split; cbn [_indicators].
  - apply NoDup_keys_set, N.
  - intros q l' H. apply In_Map_set in H. destruct H as [[= -> ->]|H].
    + exact Hl.
    + exact (P q l' H).
Qed.

Lemma removeFromPane_spec (reg : Registry) (removed : bool) (paneId : string)
    (todo : list Indicator) :
  wellKept reg ->
  let result := removeFromPane (reg, removed) (paneId, todo) in
  wellKept (fst result)
  /\ (forall q,
        getIndicatorsByPaneId (fst result) q
        = if String.eqb paneId q
          then filter (fun i => negb (namedIn todo i)) (getIndicatorsByPaneId reg paneId)
          else getIndicatorsByPaneId reg q)
  /\ snd result = removed || existsb (namedIn (getIndicatorsByPaneId reg paneId)) todo.
Proof.
  intros W. cbv zeta. unfold removeFromPane.
  destruct (pane_of_wellKept reg paneId W) as [Nn Ss].
  destruct (removeEach_spec paneId todo (getIndicatorsByPaneId reg paneId)
              (_taskScheduler reg) removed Nn) as (calls' & E).
  rewrite E. clear E.
  set (r := filter (fun i => negb (namedIn todo i)) (getIndicatorsByPaneId reg paneId)).
  assert (Hr : r <> [] -> paneOk r).
  { intro Hne. split; [exact Hne|]. split.
    - apply NoDup_names_filter, Nn.
    - apply sorted_filter, Ss. }
  destruct W as [N P].
  destruct r as [|h t] eqn:Er; cbn [fst snd].
  - split; [apply wellKept_delete; split; assumption|]. split; [|reflexivity].
    intro q. unfold getIndicatorsByPaneId at 1. cbn [_indicators].
    rewrite (Map_get_delete _ _ _ N).
    destruct (String.eqb paneId q); reflexivity.
  - split; [apply wellKept_set; [split; assumption | apply Hr; discriminate]|].
    split; [|reflexivity].
    intro q. unfold getIndicatorsByPaneId at 1. cbn [_indicators].
    rewrite Map_get_set. destruct (String.eqb paneId q); reflexivity.
Qed.

Lemma namedIn_find (l : list Indicator) (filterName : option string) (i : Indicator) :
  In i l -> namedIn (find l filterName) i = nameMatches filterName i.
Proof.
  intro Hi. unfold namedIn, find.
  destruct (nameMatches filterName i) eqn:M.
  - apply existsb_exists. exists i. split; [|apply String.eqb_refl].
    apply filter_In. split; assumption.
  - apply not_true_is_false. intro H. apply existsb_exists in H.
    destruct H as (j & Hj & E). apply filter_In in Hj. destruct Hj as [_ Mj].
    apply String.eqb_eq in E. unfold nameMatches in *.
    destruct filterName as [n|]; [|discriminate M]. rewrite E in M. congruence.
Qed.

Lemma filter_none {A : Type} (f : A -> bool) (l : list A) :
  (forall a, In a l -> f a = false) -> filter f l = [].
Proof.
  induction l as [|h t IH]; intro H; cbn; [reflexivity|].
  rewrite (H h (or_introl eq_refl)). apply IH. intros a Ha. apply H. right. exact Ha.
Qed.

Lemma removeAll_clears (m : IndicatorMap) (calls : list SchedulerCall) (removed : bool) :
  wellKept (mkRegistry m calls) ->
  _indicators
    (fst (fold_left removeFromPane
            (map (fun '(paneId, indicators) => (paneId, find indicators None)) m)
            (mkRegistry m calls, removed)))
  = [].
Proof.
  revert calls removed. induction m as [|[p l] rest IH]; intros calls removed W.
  - reflexivity.
  - cbn [map fold_left].
    pose proof (removeFromPane_spec (mkRegistry ((p, l) :: rest) calls) removed p
                  (find l None) W) as S.
    cbv zeta in S. destruct S as (W' & _ & _).
    unfold removeFromPane in *.
    assert (G : getIndicatorsByPaneId (mkRegistry ((p, l) :: rest) calls) p = l).
    { unfold getIndicatorsByPaneId. cbn. rewrite String.eqb_refl. reflexivity. }
    rewrite G in *.
    assert (Nn : NoDup (map name l)).
    { destruct W as [_ P]. apply (P p l). left. reflexivity. }
    destruct (removeEach_spec p (find l None) l
                (_taskScheduler (mkRegistry ((p, l) :: rest) calls)) removed Nn)
      as (calls' & E).
    rewrite E in *. clear E.
    assert (F : filter (fun i => negb (namedIn (find l None) i)) l = []).
    { apply filter_none. intros i Hi. rewrite (namedIn_find l None i Hi). reflexivity. }
    rewrite F in *. cbn [_indicators Map_delete] in *. rewrite String.eqb_refl in *.
    apply IH. exact W'.
Qed.

Lemma wellKept_fold_removeFromPane (entries : IndicatorMap) (reg : Registry)
    (removed : bool) :
  wellKept reg -> wellKept (fst (fold_left removeFromPane entries (reg, removed))).
Proof.
  revert reg removed. induction entries as [|[p todo] rest IH]; intros reg removed W.
  - exact W.
  - cbn [fold_left].
    pose proof (removeFromPane_spec reg removed p todo W) as S. cbv zeta in S.
    destruct (removeFromPane (reg, removed) (p, todo)) as [reg1 removed1].
    apply IH. apply S.
Qed.

Lemma removed_some (l : list Indicator) (filterName : option string) :
  existsb (namedIn l) (find l filterName) = existsb (nameMatches filterName) l.
Proof.
  destruct (existsb (nameMatches filterName) l) eqn:E.
  - apply existsb_exists in E. destruct E as (i & Hi & M).
    apply existsb_exists. exists i. split.
    + apply filter_In. split; assumption.
    + unfold namedIn. apply existsb_exists. exists i.
      split; [exact Hi | apply String.eqb_refl].
  - apply not_true_is_false. intro H. apply existsb_exists in H.
    destruct H as (i & Hi & _). apply filter_In in Hi. destruct Hi as [Hi M].
    assert (existsb (nameMatches filterName) l = true)
      by (apply existsb_exists; exists i; split; assumption).
    congruence.
Qed.

Lemma removeIndicator_spec (filter : IndicatorFilter)
    (reg : Registry) :
  wellKept reg ->
  let removed := fst (removeIndicator filter reg) in
  let reg' := snd (removeIndicator filter reg) in
  wellKept reg'
  /\ match filterPaneId filter, filterName filter with
     | Some paneId, filterName =>
         (forall q,
            getIndicatorsByPaneId reg' q
            = if String.eqb paneId q
              then List.filter (fun i => negb (nameMatches filterName i))
                     (getIndicatorsByPaneId reg paneId)
              else getIndicatorsByPaneId reg q)
         /\ removed = existsb (nameMatches filterName) (getIndicatorsByPaneId reg paneId)
     | None, None => _indicators reg' = []
     | None, Some _ => reg' = reg /\ removed = false
     end.
Proof.
  intro W. cbv zeta. unfold removeIndicator, getIndicatorsByFilter.
  destruct filter as [[paneId|] filterName]; cbn [filterPaneId IndicatorRegistry.filterName].
  - cbn [fold_left].
    pose proof (removeFromPane_spec reg false paneId
                  (find (getIndicatorsByPaneId reg paneId) filterName) W) as S.
    cbv zeta in S.
    destruct (removeFromPane (reg, false) _) as [reg1 removed1].
    cbn [fst snd] in *. destruct S as (W1 & G & R). split; [exact W1|]. split.
    + intro q. rewrite G. destruct (String.eqb paneId q); [|reflexivity].
      apply filter_ext_in. intros i Hi. rewrite namedIn_find by exact Hi. reflexivity.
    + rewrite R. cbn [orb]. apply removed_some.
  - destruct filterName as [n|].
    + cbn [fold_left fst snd]. split; [exact W|]. split; reflexivity.
    + pose proof (wellKept_fold_removeFromPane
                    (map (fun '(paneId, indicators) => (paneId, find indicators None))
                       (_indicators reg)) reg false W) as W1.
      destruct reg as [m calls]. cbn [_indicators] in *.
      pose proof (removeAll_clears m calls false W) as C.
      destruct (fold_left removeFromPane _ _) as [reg1 removed1].
      cbn [fst snd] in *. split; assumption.
Qed.

(** X26.  [removeIndicator] on a registry whose panes hold indicators of
    distinct names.  With a pane id it removes from that pane the
    indicators that the name selects (all of them without a name), leaves
    the other panes alone and reports whether there was one; with neither
    a pane id nor a name it empties the registry; with a name and no pane
    id it removes nothing and reports [false].  No pane is left with an
    empty list. *)
Theorem removeIndicator_removes_the_filtered (filter : IndicatorFilter)
    (reg : Registry) :
  wellKept reg ->
  let removed := fst (removeIndicator filter reg) in
  let reg' := snd (removeIndicator filter reg) in
  wellKept reg'
  /\ match filterPaneId filter, filterName filter with
     | Some paneId, filterName =>
         (forall q,
            getIndicatorsByPaneId reg' q
            = if String.eqb paneId q
              then List.filter (fun i => negb (nameMatches filterName i))
                     (getIndicatorsByPaneId reg paneId)
              else getIndicatorsByPaneId reg q)
         /\ removed = existsb (nameMatches filterName) (getIndicatorsByPaneId reg paneId)
     | None, None => _indicators reg' = []
     | None, Some _ => reg' = reg /\ removed = false
     end.
Proof. exact (removeIndicator_spec filter reg). Qed.

Lemma exampleRegistry_wellKept :
  wellKept
    (performAll
       [AddIndicator "MA" (mkIndicator "MA" 0) "candle_pane" true;
        AddIndicator "EMA" (mkIndicator "EMA" 0) "candle_pane" true;
        AddIndicator "VOL" (mkIndicator "VOL" 0) "pane_1" true]
       emptyRegistry).
Proof.
  split; cbn.
  - repeat constructor; cbn; intuition discriminate.
  - intros paneId indicators [[= <- <-]|[[= <- <-]|[]]].
    + split; [discriminate|]. cbn. split.
      * repeat constructor; cbn; intuition discriminate.
      * repeat constructor; unfold zLevelOrder; cbn; lia.
    + split; [discriminate|]. cbn. split; repeat constructor. intros [].
Qed.

Lemma removeIndicator_removes_the_filtered_witness :
  getIndicatorsByPaneId
    (snd (removeIndicator (mkIndicatorFilter (Some "candle_pane"%string) (Some "MA"%string))
            (performAll
               [AddIndicator "MA" (mkIndicator "MA" 0) "candle_pane" true;
                AddIndicator "EMA" (mkIndicator "EMA" 0) "candle_pane" true;
                AddIndicator "VOL" (mkIndicator "VOL" 0) "pane_1" true]
               emptyRegistry)))
    "candle_pane"%string
  = [mkIndicator "EMA" 0].
Proof.
  rewrite (proj1 (proj2 (removeIndicator_removes_the_filtered
                           (mkIndicatorFilter (Some "candle_pane"%string) (Some "MA"%string))
                           _ exampleRegistry_wellKept))).
  reflexivity.
Defined.

Lemma insertByZLevel_perm (i : Indicator) (l : list Indicator) :
  Permutation (insertByZLevel i l) (i :: l).
Proof.
  induction l as [|h t IH]; cbn; [reflexivity|].
  destruct (zLevel i <? zLevel h)%Z; [reflexivity|].
  rewrite IH. apply perm_swap.
Qed.

Lemma insertByZLevel_sorted (i : Indicator) (l : list Indicator) :
  StronglySorted zLevelOrder l -> StronglySorted zLevelOrder (insertByZLevel i l).
Proof.
  intro S. induction S as [|h t S IH F]; cbn; [repeat constructor|].
  rewrite Forall_forall in F.
  destruct (Z.ltb_spec (zLevel i) (zLevel h)) as [Hlt|Hge].
  - constructor; [constructor; [exact S | apply Forall_forall; exact F]|].
    apply Forall_forall. intros a [<-|Ha]; unfold zLevelOrder in *; [lia|].
    specialize (F a Ha). lia.
  - constructor; [exact IH|]. apply Forall_forall. intros a Ha.
    apply (Permutation_in _ (insertByZLevel_perm i t)) in Ha.
    destruct Ha as [<-|Ha]; [exact Hge | exact (F a Ha)].
Qed.

Lemma sortByZLevel_spec (l : list Indicator) :
  Permutation (sortByZLevel l) l /\ StronglySorted zLevelOrder (sortByZLevel l).
Proof.
  unfold sortByZLevel.
  assert (G : forall acc, StronglySorted zLevelOrder acc ->
                Permutation (fold_left (fun sorted i => insertByZLevel i sorted) l acc)
                  (l ++ acc)
                /\ StronglySorted zLevelOrder
                     (fold_left (fun sorted i => insertByZLevel i sorted) l acc)).
  { induction l as [|h t IH]; intros acc S; cbn [fold_left].
    - split; [reflexivity | exact S].
    - destruct (IH (insertByZLevel h acc) (insertByZLevel_sorted h acc S)) as [P S'].
      split; [|exact S']. rewrite P, insertByZLevel_perm. cbn.
      symmetry. apply Permutation_middle. }
  destruct (G [] (SSorted_nil _)) as [P S]. rewrite app_nil_r in P. split; assumption.
Qed.

Lemma Map_set_set (m : IndicatorMap) (k : string) (a b : list Indicator) :
  Map_set (Map_set m k a) k b = Map_set m k b.
Proof.
  induction m as [|[k0 v0] m IH]; cbn.
  - rewrite String.eqb_refl. reflexivity.
  - destruct (String.eqb k0 k) eqn:E; cbn; rewrite E; [reflexivity|].
    rewrite IH. reflexivity.
Qed.

Lemma paneOk_sorted_snoc (l : list Indicator) (indicator : Indicator) :
  NoDup (map name l) -> ~ In (name indicator) (map name l) ->
  paneOk (sortByZLevel (l ++ [indicator])).
Proof.
  intros N Hnot. destruct (sortByZLevel_spec (l ++ [indicator])) as [P S].
  split; [|split].
  - intro E. rewrite E in P. apply Permutation_nil in P.
    destruct l; discriminate P.
  - apply (Permutation_NoDup (l := map name (l ++ [indicator]))).
    + apply Permutation_map. symmetry. exact P.
    + rewrite map_app. apply NoDup_app; [exact N | repeat constructor; intros [] |].
      intros a Ha [<-|[]]. exact (Hnot Ha).
  - exact S.
Qed.

Lemma existsb_name (l : list Indicator) (n : string) :
  existsb (fun i => String.eqb (name i) n) l = false -> ~ In n (map name l).
Proof.
  intros E H. apply in_map_iff in H. destruct H as (i & Ei & Hi).
  assert (existsb (fun i => String.eqb (name i) n) l = true); [|congruence].
  apply existsb_exists. exists i. split; [exact Hi | apply String.eqb_eq, Ei].
Qed.

(** The registry after an accepted [addIndicator], from the list that the
    pane is given. *)
Lemma addIndicator_accepted (reg : Registry) (paneId : string)
    (l : list Indicator) (indicator : Indicator) (calls : list SchedulerCall) :
  wellKept reg -> NoDup (map name l) -> ~ In (name indicator) (map name l) ->
  let reg' :=
    mkRegistry (_sortIndicators paneId (Map_set (_indicators reg) paneId (l ++ [indicator])))
      calls in
  wellKept reg'
  /\ getIndicatorsByPaneId reg' paneId = sortByZLevel (l ++ [indicator])
  /\ forall q, q <> paneId -> getIndicatorsByPaneId reg' q = getIndicatorsByPaneId reg q.
Proof.
  intros W N Hnot. cbv zeta. unfold _sortIndicators.
  rewrite Map_get_set, String.eqb_refl, Map_set_set.
  split; [|split].
  - apply wellKept_set; [exact W | apply paneOk_sorted_snoc; assumption].
  - unfold getIndicatorsByPaneId. cbn [_indicators].
    rewrite Map_get_set, String.eqb_refl. reflexivity.
  - intros q Hq. unfold getIndicatorsByPaneId. cbn [_indicators].
    rewrite Map_get_set. destruct (String.eqb_spec paneId q); [congruence | reflexivity].
Qed.

Lemma addIndicator_spec (createName : string) (indicator : Indicator)
    (paneId : string) (isStack : bool) (reg : Registry) :
  wellKept reg -> name indicator = createName ->
  let added := fst (addIndicator createName indicator paneId isStack reg) in
  let reg' := snd (addIndicator createName indicator paneId isStack reg) in
  wellKept reg'
  /\ (forall q, q <> paneId -> getIndicatorsByPaneId reg' q = getIndicatorsByPaneId reg q)
  /\ if existsb (fun i => String.eqb (name i) createName)
          (getIndicatorsByPaneId reg paneId)
     then added = false /\ reg' = reg
     else added = true
          /\ Permutation (getIndicatorsByPaneId reg' paneId)
               (if isStack then indicator :: getIndicatorsByPaneId reg paneId
                else [indicator])
          /\ StronglySorted zLevelOrder (getIndicatorsByPaneId reg' paneId)
          /\ exists calls,
               _taskScheduler reg' = calls ++ [AddTask paneId (name indicator) Init].
Proof.
  intros W En. cbv zeta. unfold addIndicator.
  assert (Eg : match Map_get (_indicators reg) paneId with
               | Some l => existsb (fun i => String.eqb (name i) createName) l
               | None => false
               end
               = existsb (fun i => String.eqb (name i) createName)
                   (getIndicatorsByPaneId reg paneId)).
  { unfold getIndicatorsByPaneId. destruct (Map_get (_indicators reg) paneId); reflexivity. }
  rewrite Eg. clear Eg.
  destruct (existsb _ (getIndicatorsByPaneId reg paneId)) eqn:Ex; cbn [fst snd].
  - split; [exact W|]. split; [reflexivity|]. split; reflexivity.
  - apply existsb_name in Ex. rewrite <- En in Ex.
    destruct (pane_of_wellKept reg paneId W) as [Nn _].
    change (match Map_get (_indicators reg) paneId with Some l => l | None => [] end)
      with (getIndicatorsByPaneId reg paneId).
    destruct isStack; cbn [negb].
    + destruct (addIndicator_accepted reg paneId (getIndicatorsByPaneId reg paneId)
                  indicator (_taskScheduler reg ++ [AddTask paneId (name indicator) Init])
                  W Nn Ex) as (W' & G & O).
      cbn [fst snd]. split; [exact W'|]. split; [exact O|].
      split; [reflexivity|]. rewrite G.
      destruct (sortByZLevel_spec (getIndicatorsByPaneId reg paneId ++ [indicator]))
        as [P S].
      split; [|split; [exact S | eexists; reflexivity]].
      rewrite P. symmetry. apply Permutation_cons_append.
    + pose proof (removeIndicator_spec (mkIndicatorFilter (Some paneId) None) reg W) as R.
      cbv zeta in R. cbn [filterPaneId filterName] in R.
      destruct R as (W1 & G1 & _).
      set (reg1 := snd (removeIndicator (mkIndicatorFilter (Some paneId) None) reg)) in *.
      destruct (addIndicator_accepted reg1 paneId [] indicator
                  (_taskScheduler reg1 ++ [AddTask paneId (name indicator) Init])
                  W1 (NoDup_nil _) (fun H => H)) as (W' & G & O).
      cbn [fst snd app] in *. split; [exact W'|]. split.
      * intros q Hq. rewrite (O q Hq), G1.
        destruct (String.eqb_spec paneId q); [congruence | reflexivity].
      * split; [reflexivity|]. rewrite G. cbn.
        split; [reflexivity|]. split; [repeat constructor | eexists; reflexivity].
Qed.

(** X27.  [addIndicator], for an instance that carries the name it was
    created under, on a registry whose panes hold indicators of distinct
    names.  A name that the pane already has is refused: the call returns
    [false] and changes nothing.  Otherwise it returns [true]; the pane
    then holds the new indicator together with the ones it had (stacked)
    or the new indicator alone (not stacked), ordered by z level; the
    other panes are as they were; and the last call on the task scheduler
    submits the calculation of the new indicator as an [Init] task. *)
Theorem addIndicator_adds_once (createName : string) (indicator : Indicator)
    (paneId : string) (isStack : bool) (reg : Registry) :
  wellKept reg -> name indicator = createName ->
  let added := fst (addIndicator createName indicator paneId isStack reg) in
  let reg' := snd (addIndicator createName indicator paneId isStack reg) in
  wellKept reg'
  /\ (forall q, q <> paneId -> getIndicatorsByPaneId reg' q = getIndicatorsByPaneId reg q)
  /\ if existsb (fun i => String.eqb (name i) createName)
          (getIndicatorsByPaneId reg paneId)
     then added = false /\ reg' = reg
     else added = true
          /\ Permutation (getIndicatorsByPaneId reg' paneId)
               (if isStack then indicator :: getIndicatorsByPaneId reg paneId
                else [indicator])
          /\ StronglySorted zLevelOrder (getIndicatorsByPaneId reg' paneId)
          /\ exists calls,
               _taskScheduler reg' = calls ++ [AddTask paneId (name indicator) Init].
Proof. exact (addIndicator_spec createName indicator paneId isStack reg). Qed.

Lemma addIndicator_adds_once_witness :
  wellKept
    (snd (addIndicator "MA" (mkIndicator "MA" 0) "candle_pane" true emptyRegistry)).
Proof.
  assert (W : wellKept emptyRegistry).
  { split; [constructor | intros paneId indicators []]. }
  exact (proj1 (addIndicator_adds_once "MA" (mkIndicator "MA" 0) "candle_pane" true
                  emptyRegistry W eq_refl)).
Defined.

Lemma wellKept_perform (reg : Registry) (c : Call) :
  wellKept reg -> namedAsCreated c -> wellKept (perform reg c).
Proof.
  intros W Hc. destruct c as [createName indicator paneId isStack|filter]; cbn [perform].
  - apply (addIndicator_spec createName indicator paneId isStack reg W Hc).
  - apply (removeIndicator_spec filter reg W).
Qed.

(** X28.  Whatever indicators are added and removed, in any order, every
    pane of the registry holds at least one indicator, no two indicators
    of a pane have the same name, the indicators of a pane are in the
    order of their z levels, and no pane is listed twice (each instance
    carrying the name it was created under). *)
Theorem registry_well_kept (cs : list Call) :
  Forall namedAsCreated cs -> wellKept (performAll cs emptyRegistry).
Proof.
  unfold performAll.
  assert (W : wellKept emptyRegistry).
  { split; [constructor | intros paneId indicators []]. }
  revert W. generalize emptyRegistry.
  induction cs as [|c cs IH]; intros reg W F; cbn [fold_left]; [exact W|].
  inversion F as [|? ? Hc F']; subst.
  apply IH; [apply wellKept_perform; assumption | exact F'].
Qed.

Lemma registry_well_kept_witness :
  wellKept
    (performAll
       [AddIndicator "MA" (mkIndicator "MA" 0) "candle_pane" true;
        RemoveIndicator (mkIndicatorFilter (Some "candle_pane"%string) None)]
       emptyRegistry).
Proof.
  apply registry_well_kept. repeat constructor.
Defined.
End IndicatorRegistryFacts.

(** ** The layout of the indicator tooltip *)

Module TooltipLayoutFacts.
Import TooltipLayout.

Lemma updateRectSize_step (rectMeasured : RectMeasured) (maxWidth width height : Q) :
  0 <= rect_x rectMeasured -> 0 <= rect_h rectMeasured -> 0 <= width -> 0 <= height ->
  let rm := updateRectSize rectMeasured maxWidth width height in
  0 <= rect_x rm /\ width <= rect_x rm /\ rect_x rm <= Qmax maxWidth width
  /\ rect_h rectMeasured <= rect_h rm /\ height <= rect_h rm.
Proof.
  intros Hx Hh Hw Hht. cbv zeta. unfold updateRectSize.
  pose proof (Q.le_max_l (rect_w rectMeasured) (rect_x rectMeasured + width)) as M1.
  pose proof (Q.le_max_r (rect_w rectMeasured) (rect_x rectMeasured + width)) as M2.
  pose proof (Q.le_max_l (rect_h rectMeasured) height) as M3.
  pose proof (Q.le_max_r (rect_h rectMeasured) height) as M4.
  pose proof (Q.le_max_l maxWidth width) as M5.
  pose proof (Q.le_max_r maxWidth width) as M6.
  set (w := Qmax (rect_w rectMeasured) (rect_x rectMeasured + width)) in *.
  set (h := Qmax (rect_h rectMeasured) height) in *.
  set (m := Qmax maxWidth width) in *.
  destruct (Qlt_le_dec maxWidth w) as [Hwrap|Hfit]; cbn [rect_x rect_w rect_h];
    repeat split; lra.
Qed.

Section Measure.

Variable measureText : Font -> string -> Q.
Hypothesis measureText_nonneg : forall font text, 0 <= measureText font text.

Variable coordinate : Coordinate.
Variable maxWidth : Q.

Lemma featureWidth_nonneg (feature : TooltipFeatureStyle) :
  featureSized feature -> 0 <= featureWidth measureText feature.
Proof.
  intros (H1 & H2 & H3 & H4 & H5 & H6 & H7 & H8 & H9).
  unfold featureWidth, featureContentWidth.
  destruct (type feature).
  - pose proof (measureText_nonneg
                  (createFont (size feature) "normal" (iconFontFamily feature))
                  (iconFontContent feature)). lra.
  - lra.
Qed.

Lemma featureHeight_nonneg (feature : TooltipFeatureStyle) :
  featureSized feature -> 0 <= featureHeight feature.
Proof.
  intros (H1 & H2 & H3 & H4 & H5 & H6 & H7 & H8 & H9). unfold featureHeight. lra.
Qed.

(** The positions that a fold of [measurePositionFeatures] adds, each
    within any block at least as high as the fold leaves it. *)
Lemma measurePositionFeatures_fold (features : list TooltipFeatureStyle)
    (measureResult : list Coordinate) (rectMeasured : RectMeasured) :
  Forall featureSized features ->
  0 <= rect_x rectMeasured -> 0 <= rect_h rectMeasured ->
  exists added rm,
    fold_left
      (fun '(measureResult, rectMeasured) feature =>
         let elmWith := featureWidth measureText feature in
         let elmHeight := featureHeight feature in
         let rectMeasured := updateRectSize rectMeasured maxWidth elmWith elmHeight in
         (measureResult
          ++ [mkCoordinate
                (x coordinate + rect_x rectMeasured - elmWith + marginLeft feature)
                (y coordinate + rect_h rectMeasured - elmHeight + marginTop feature)],
          rectMeasured))
      features (measureResult, rectMeasured)
    = (measureResult ++ added, rm)
    /\ 0 <= rect_x rm /\ rect_h rectMeasured <= rect_h rm
    /\ Forall2
         (fun feature position =>
            forall height, rect_h rm <= height ->
              withinBlock coordinate maxWidth height
                (featureBox measureText feature position))
         features added.
Proof.
  revert measureResult rectMeasured.
  induction features as [|feature features IH];
    intros measureResult rectMeasured F Hx Hh; cbn [fold_left].
  - exists [], rectMeasured. rewrite app_nil_r.
    repeat split; try assumption; [apply Qle_refl | constructor].
  - inversion F as [|? ? Hf F']; subst.
    pose proof (featureWidth_nonneg feature Hf) as Hw.
    pose proof (featureHeight_nonneg feature Hf) as Hht.
    destruct (updateRectSize_step rectMeasured maxWidth _ _ Hx Hh Hw Hht)
      as (U1 & U2 & U3 & U4 & U5).
    cbv zeta in *.
    set (rm1 := updateRectSize rectMeasured maxWidth (featureWidth measureText feature)
                  (featureHeight feature)) in *.
    destruct (IH (measureResult
                  ++ [mkCoordinate
                        (x coordinate + rect_x rm1 - featureWidth measureText feature
                         + marginLeft feature)
                        (y coordinate + rect_h rm1 - featureHeight feature
                         + marginTop feature)])
                rm1 F' U1 ltac:(lra)) as (added & rm & E & R1 & R2 & R3).
    eexists (_ :: added), rm. rewrite E, <- app_assoc. cbn [app].
    split; [reflexivity|]. split; [exact R1|]. split; [lra|].
    constructor; [|exact R3].
    intros height Hheight. unfold withinBlock, featureBox.
    cbn [box_left box_top box_width box_height x y].
    repeat split; lra.
Qed.

Lemma legendWidth_nonneg (styles : TooltipTextStyle) (data : TooltipLegend) :
  textSized styles -> 0 <= legendWidth measureText styles data.
Proof.
  intros (H1 & H2 & H3 & H4 & H5). unfold legendWidth.
  pose proof (measureText_nonneg (legendFont styles) (titleText data)).
  pose proof (measureText_nonneg (legendFont styles) (valueText data)). lra.
Qed.

Lemma legendHeight_nonneg (styles : TooltipTextStyle) :
  textSized styles -> 0 <= legendHeight styles.
Proof. intros (H1 & H2 & H3 & H4 & H5). unfold legendHeight. lra. Qed.

Lemma measurePositionLegends_fold (styles : TooltipTextStyle)
    (legends : list TooltipLegend) (measureResult : list (Coordinate * Coordinate))
    (rectMeasured : RectMeasured) :
  textSized styles -> 0 <= rect_x rectMeasured -> 0 <= rect_h rectMeasured ->
  exists added rm,
    fold_left
      (fun '(measureResult, rectMeasured) data =>
         let titleTextWidth := measureText (legendFont styles) (titleText data) in
         let elmWith := legendWidth measureText styles data in
         let h := legendHeight styles in
         let rectMeasured := updateRectSize rectMeasured maxWidth elmWith h in
         let x := x coordinate + rect_x rectMeasured - elmWith + textMarginLeft styles in
         let y := y coordinate + rect_h rectMeasured - h + textMarginTop styles in
         (measureResult
          ++ [(if (0 <? String.length (titleText data))%nat
               then mkCoordinate x y else mkCoordinate 0 0,
               mkCoordinate (x + titleTextWidth) y)],
          rectMeasured))
      legends (measureResult, rectMeasured)
    = (measureResult ++ added, rm)
    /\ 0 <= rect_x rm /\ rect_h rectMeasured <= rect_h rm
    /\ Forall2
         (fun data position =>
            forall height, rect_h rm <= height ->
              withinBlock coordinate maxWidth height
                (legendBox measureText styles data position))
         legends added.
Proof.
  intro Hs. revert measureResult rectMeasured.
  induction legends as [|data legends IH];
    intros measureResult rectMeasured Hx Hh; cbn [fold_left].
  - exists [], rectMeasured. rewrite app_nil_r.
    repeat split; try assumption; [apply Qle_refl | constructor].
  - pose proof (legendWidth_nonneg styles data Hs) as Hw.
    pose proof (legendHeight_nonneg styles Hs) as Hht.
    destruct (updateRectSize_step rectMeasured maxWidth _ _ Hx Hh Hw Hht)
      as (U1 & U2 & U3 & U4 & U5).
    cbv zeta in *.
    set (rm1 := updateRectSize rectMeasured maxWidth (legendWidth measureText styles data)
                  (legendHeight styles)) in *.
    match goal with |- context [fold_left _ legends (?acc, rm1)] =>
      destruct (IH acc rm1 U1 ltac:(lra)) as (added & rm & E & R1 & R2 & R3)
    end.
    eexists (_ :: added), rm. rewrite E, <- app_assoc. cbn [app].
    split; [reflexivity|]. split; [exact R1|]. split; [lra|].
    constructor; [|exact R3].
    intros height Hheight. unfold withinBlock, legendBox.
    cbn [box_left box_top box_width box_height x y snd].
    repeat split; lra.
Qed.

Lemma measurePositionFeatures_spec (features : list TooltipFeatureStyle)
    (rectMeasured : RectMeasured) :
  Forall featureSized features ->
  0 <= rect_x rectMeasured -> 0 <= rect_h rectMeasured ->
  exists added rm,
    measurePositionFeatures measureText coordinate rectMeasured maxWidth features
    = (added, rm)
    /\ 0 <= rect_x rm /\ rect_h rectMeasured <= rect_h rm
    /\ Forall2
         (fun feature position =>
            forall height, rect_h rm <= height ->
              withinBlock coordinate maxWidth height
                (featureBox measureText feature position))
         features added.
Proof.
  intros F Hx Hh. unfold measurePositionFeatures.
  destruct (measurePositionFeatures_fold features [] rectMeasured F Hx Hh)
    as (added & rm & E & R).
  exists added, rm. split; [exact E | exact R].
Qed.

Lemma measurePositionLegends_spec (styles : TooltipTextStyle)
    (legends : list TooltipLegend) (rectMeasured : RectMeasured) :
  textSized styles -> 0 <= rect_x rectMeasured -> 0 <= rect_h rectMeasured ->
  exists added rm,
    measurePositionLegends measureText coordinate rectMeasured maxWidth legends styles
    = (added, rm)
    /\ 0 <= rect_x rm /\ rect_h rectMeasured <= rect_h rm
    /\ Forall2
         (fun data position =>
            forall height, rect_h rm <= height ->
              withinBlock coordinate maxWidth height
                (legendBox measureText styles data position))
         legends added.
Proof.
  intros Hs Hx Hh. unfold measurePositionLegends.
  destruct (measurePositionLegends_fold styles legends [] rectMeasured Hs Hx Hh)
    as (added & rm & E & R).
  exists added, rm. split; [exact E | exact R].
Qed.

Ltac inside_at P :=
  eapply Forall2_impl; [|exact P]; cbv beta; intros ? ? Hin; apply Hin; lra.

(** X29.  The measuring pass of the tooltip places every element (the
    features on the left, the name, the features in the middle, the
    legends, the features on the right) inside the block it reports:
    not above its top nor below the height that is returned, not left
    of its left edge, and not beyond [maxWidth] unless the element alone
    is wider; the rectangle that is painted behind the tooltip starts at
    the coordinate and has that height.  Sizes, margins and paddings are
    not negative, nor is a measured text width. *)
Theorem tooltip_elements_inside_block
    (leftFeatures middleFeatures rightFeatures : list TooltipFeatureStyle)
    (name calcParamsText : string) (legends : list TooltipLegend)
    (tooltipTextStyles : TooltipTextStyle) (tooltipOverlayOpacity : option Q) :
  Forall featureSized leftFeatures -> Forall featureSized middleFeatures ->
  Forall featureSized rightFeatures -> textSized tooltipTextStyles ->
  let result :=
    drawStandardTooltipRect measureText leftFeatures name calcParamsText
      middleFeatures legends rightFeatures coordinate maxWidth tooltipTextStyles
      tooltipOverlayOpacity in
  let positions := fst (fst result) in
  let height := snd (fst result) in
  let featuresInside :=
    Forall2 (fun feature position =>
               withinBlock coordinate maxWidth height
                 (featureBox measureText feature position)) in
  let legendsInside :=
    Forall2 (fun data position =>
               withinBlock coordinate maxWidth height
                 (legendBox measureText tooltipTextStyles data position)) in
  0 <= height
  /\ featuresInside leftFeatures (leftPositions positions)
  /\ legendsInside
       (if (0 <? String.length name)%nat
        then [mkTooltipLegend "" (name ++ calcParamsText)] else [])
       (namePositions positions)
  /\ featuresInside middleFeatures (middlePositions positions)
  /\ legendsInside legends (legendPositions positions)
  /\ featuresInside rightFeatures (rightPositions positions)
  /\ forall figure,
       snd result = Some figure ->
       figure_x figure = x coordinate /\ figure_y figure = y coordinate
       /\ figure_height figure = height.
Proof.
  intros FL FM FR Hs. cbv zeta. unfold drawStandardTooltipRect. cbv zeta.
  destruct (measurePositionFeatures_spec leftFeatures (mkRectMeasured 0 0 0) FL
              (Qle_refl 0) (Qle_refl 0)) as (a0 & rm1 & E0 & X1 & H1 & P0).
  rewrite E0. clear E0. cbn [rect_h] in H1.
  assert (N : exists a1 rm2,
            (if (0 <? String.length name)%nat
             then measurePositionLegends measureText coordinate rm1 maxWidth
                    [mkTooltipLegend "" (name ++ calcParamsText)] tooltipTextStyles
             else ([], rm1))
            = (a1, rm2)
            /\ 0 <= rect_x rm2 /\ rect_h rm1 <= rect_h rm2
            /\ Forall2
                 (fun data position =>
                    forall height, rect_h rm2 <= height ->
                      withinBlock coordinate maxWidth height
                        (legendBox measureText tooltipTextStyles data position))
                 (if (0 <? String.length name)%nat
                  then [mkTooltipLegend "" (name ++ calcParamsText)] else [])
                 a1).
  { destruct (0 <? String.length name)%nat.
    - apply measurePositionLegends_spec; [exact Hs | exact X1 | lra].
    - exists [], rm1. split; [reflexivity|]. split; [exact X1|].
      split; [apply Qle_refl | constructor]. }
  destruct N as (a1 & rm2 & E1 & X2 & H2 & P1). rewrite E1. clear E1.
  destruct (measurePositionFeatures_spec middleFeatures rm2 FM X2 ltac:(lra))
    as (a2 & rm3 & E2 & X3 & H3 & P2).
  rewrite E2. clear E2.
  assert (L : exists a3 rm4,
            (if (0 <? List.length legends)%nat
             then measurePositionLegends measureText coordinate rm3 maxWidth legends
                    tooltipTextStyles
             else ([], rm3))
            = (a3, rm4)
            /\ 0 <= rect_x rm4 /\ rect_h rm3 <= rect_h rm4
            /\ Forall2
                 (fun data position =>
                    forall height, rect_h rm4 <= height ->
                      withinBlock coordinate maxWidth height
                        (legendBox measureText tooltipTextStyles data position))
                 legends a3).
  { destruct legends as [|data legends].
    - exists [], rm3. split; [reflexivity|]. split; [exact X3|].
      split; [apply Qle_refl | constructor].
    - apply measurePositionLegends_spec; [exact Hs | exact X3 | lra]. }
  destruct L as (a3 & rm4 & E3 & X4 & H4 & P3). rewrite E3. clear E3.
  destruct (measurePositionFeatures_spec rightFeatures rm4 FR X4 ltac:(lra))
    as (a4 & rm5 & E4 & X5 & H5 & P4).
  rewrite E4. clear E4.
  cbn [fst snd leftPositions namePositions middlePositions legendPositions
       rightPositions].
  split; [lra|].
  split; [inside_at P0|].
  split; [inside_at P1|].
  split; [inside_at P2|].
  split; [inside_at P3|].
  split; [inside_at P4|].
  intros figure Hfig. destruct tooltipOverlayOpacity as [opacity|]; [|discriminate].
  destruct (Qlt_le_dec 0 opacity); [|discriminate].
  injection Hfig as <-. repeat split.
Qed.

End Measure.

Lemma exampleMeasureText_nonneg (font : Font) (text : string) :
  0 <= exampleMeasureText font text.
Proof.
  unfold exampleMeasureText. apply Qmult_le_0_compat; [|discriminate].
  change 0 with (inject_Z 0). rewrite <- Zle_Qle. lia.
Qed.

Lemma tooltip_elements_inside_block_witness :
  0 <= snd (fst (drawStandardTooltipRect exampleMeasureText [exampleFeature Left]
                   "MA" "(5,10)" [] [mkTooltipLegend "MA5: " "10.5"]
                   [exampleFeature Right] (mkCoordinate 4 6) 60 exampleTextStyle
                   (Some 1))).
Proof.
  apply (tooltip_elements_inside_block exampleMeasureText exampleMeasureText_nonneg
           (mkCoordinate 4 6) 60 [exampleFeature Left] [] [exampleFeature Right]
           "MA" "(5,10)" [mkTooltipLegend "MA5: " "10.5"] exampleTextStyle (Some 1)).
  - repeat constructor; discriminate.
  - constructor.
  - repeat constructor; discriminate.
  - repeat split; discriminate.
Defined.

Lemma classifyTooltipFeatures_fold (features l m r : list TooltipFeatureStyle) :
  fold_left
    (fun '(leftFeatures, middleFeatures, rightFeatures) feature =>
       match position feature with
       | Left => (leftFeatures ++ [feature], middleFeatures, rightFeatures)
       | Middle => (leftFeatures, middleFeatures ++ [feature], rightFeatures)
       | Right => (leftFeatures, middleFeatures, rightFeatures ++ [feature])
       end)
    features (l, m, r)
  = (l ++ filter (placedAt Left) features, m ++ filter (placedAt Middle) features,
     r ++ filter (placedAt Right) features).
Proof.
  revert l m r. induction features as [|feature features IH]; intros l m r;
    cbn [fold_left filter].
  - rewrite !app_nil_r. reflexivity.
  - assert (HL : placedAt Left feature
                 = match position feature with Left => true | _ => false end)
      by (unfold placedAt; destruct (position feature); reflexivity).
    assert (HM : placedAt Middle feature
                 = match position feature with Middle => true | _ => false end)
      by (unfold placedAt; destruct (position feature); reflexivity).
    assert (HR : placedAt Right feature
                 = match position feature with Right => true | _ => false end)
      by (unfold placedAt; destruct (position feature); reflexivity).
    rewrite HL, HM, HR.
    destruct (position feature); rewrite IH, <- ?app_assoc; reflexivity.
Qed.

(** X30.  [classifyTooltipFeatures] splits the features by position and
    keeps their order: the three lists are the features placed on the
    left, in the middle and on the right, each in the order of the input,
    so that every feature is in exactly one of them. *)
Theorem classifyTooltipFeatures_by_position (features : list TooltipFeatureStyle) :
  classifyTooltipFeatures features
  = (filter (placedAt Left) features, filter (placedAt Middle) features,
     filter (placedAt Right) features).
Proof.
  unfold classifyTooltipFeatures. rewrite classifyTooltipFeatures_fold. reflexivity.
Qed.

End TooltipLayoutFacts.
(** ** Gap bar space (C4) *)

Local Open Scope R_scope.

(** The gap as [_calcOptimalBarSpace] computes it from the smaller of the
    two floors. *)
Lemma calcOptimalBarSpace_cases (barSpace : R) :
  _calcOptimalBarSpace barSpace
  = Z.max 1
      (if (Z.rem (unadjustedGapBarSpace barSpace) 2 =? 0)%Z
       then if Rle_lt_dec barSpace (IZR (unadjustedGapBarSpace barSpace + 2))
            then (unadjustedGapBarSpace barSpace - 1)%Z
            else unadjustedGapBarSpace barSpace
       else unadjustedGapBarSpace barSpace).
Proof. reflexivity. Qed.

(** The ratio of the easing function lies in (0.8, 1], and it is 1 up to
    bar space 4. *)
Lemma gapRatio_bounds (barSpace : R) :
  let ratio := 1 - BAR_GAP_RATIO * atan (Rmax 4 barSpace - 4) / (PI * (5 / 10)) in
  8 / 10 < ratio <= 1 /\ (barSpace <= 4 -> ratio = 1).
Proof.
  cbv zeta. unfold BAR_GAP_RATIO. pose proof PI_RGT_0 as Hpi0.
  set (A := atan (Rmax 4 barSpace - 4)).
  assert (HA : 0 <= A < PI / 2).
  { unfold A. split; [|apply atan_bound].
    rewrite <- atan_0. destruct (Rle_lt_or_eq_dec 0 (Rmax 4 barSpace - 4)) as [H|H].
    - pose proof (Rmax_l 4 barSpace). lra.
    - apply Rlt_le, atan_increasing, H.
    - rewrite <- H. apply Rle_refl. }
  set (r := A / (PI * (5 / 10))).
  assert (E : r * (PI * (5 / 10)) = A) by (unfold r; field; lra).
  assert (Hr : 0 <= r < 1).
  { split.
    - apply (Rmult_le_reg_r (PI * (5 / 10))); [lra|]. rewrite E. lra.
    - apply (Rmult_lt_reg_r (PI * (5 / 10))); [lra|]. rewrite E. lra. }
  replace (2 / 10 * A / (PI * (5 / 10))) with (2 / 10 * r) by (unfold r, Rdiv; ring).
  split; [lra|]. intro H4.
  assert (A = 0) as EA.
  { unfold A. rewrite Rmax_left by lra. replace (4 - 4) with 0 by ring. apply atan_0. }
  assert (r = 0) by (unfold r; rewrite EA; unfold Rdiv; ring). lra.
Qed.

(** From bar space 1 on, the smaller floor is at least 1. *)
Lemma unadjustedGapBarSpace_positive (barSpace : R) :
  1 <= barSpace -> (1 <= unadjustedGapBarSpace barSpace)%Z.
Proof.
  intro H1. unfold unadjustedGapBarSpace. cbv zeta.
  destruct (gapRatio_bounds barSpace) as [[Hlo Hhi] H4]. cbv zeta in *.
  set (ratio := 1 - BAR_GAP_RATIO * atan (Rmax 4 barSpace - 4) / (PI * (5 / 10))) in *.
  apply Z.min_glb; apply Zfloor_lub; [|exact H1].
  destruct (Rle_lt_dec barSpace 4) as [H|H].
  - rewrite (H4 H). lra.
  - change (IZR 1) with 1. nra.
Qed.

Lemma odd_pred_of_even (g : Z) : Z.even g = true -> Z.odd (g - 1) = true.
Proof. intro H. rewrite Z.sub_1_r, Z.odd_pred. exact H. Qed.

Lemma rem_2_even (g : Z) : (0 <= g)%Z -> (Z.rem g 2 =? 0)%Z = Z.even g.
Proof. intro H. rewrite Z.rem_mod_nonneg by lia. symmetry. apply Zeven_mod. Qed.

(** C4 (as amended).  For every bar space from 1 on (hence for every one
    that [setBarSpace] accepts) the gap bar space is at least 1 pixel.  Let
    [g0] be the smaller of the two floors, the gap before its parity is
    looked at.  An even [g0] with [g0 + 2 >= barSpace] is decremented, any
    other [g0] is kept: the gap is odd exactly when [g0] is odd or
    [g0 + 2 >= barSpace], and it is the even number [g0] otherwise. *)
Theorem gapBarSpace_parity (barSpace : R) :
  1 <= barSpace ->
  let g0 := unadjustedGapBarSpace barSpace in
  let gap := _calcOptimalBarSpace barSpace in
  (1 <= gap)%Z
  /\ (Z.even g0 = true -> barSpace <= IZR (g0 + 2) -> gap = (g0 - 1)%Z)
  /\ (Z.even g0 = true -> IZR (g0 + 2) < barSpace -> gap = g0)
  /\ (Z.odd g0 = true -> gap = g0)
  /\ (Z.odd gap = true <-> Z.odd g0 = true \/ barSpace <= IZR (g0 + 2)).
Proof.
  intros H1 g0 gap.
  pose proof (unadjustedGapBarSpace_positive barSpace H1) as Hg. fold g0 in Hg.
  assert (E : gap = Z.max 1
                      (if Z.even g0
                       then if Rle_lt_dec barSpace (IZR (g0 + 2)) then (g0 - 1)%Z else g0
                       else g0)).
  { unfold gap. rewrite calcOptimalBarSpace_cases. fold g0.
    rewrite (rem_2_even g0) by lia. reflexivity. }
  assert (Hodd : Z.odd g0 = negb (Z.even g0)) by (symmetry; apply Z.negb_even).
  destruct (Z.even g0) eqn:Ev; cbn [negb] in Hodd.
  - assert (H2 : (2 <= g0)%Z).
    { destruct (Z.eq_dec g0 1) as [E1|]; [rewrite E1 in Ev; discriminate Ev | lia]. }
    destruct (Rle_lt_dec barSpace (IZR (g0 + 2))) as [Hle|Hgt].
    + assert (Eg : gap = (g0 - 1)%Z) by lia.
      split; [lia|]. split; [intros _ _; exact Eg|].
      split; [intros _ Hlt; lra|]. split; [intro Ho; congruence|].
      rewrite Eg, (odd_pred_of_even g0 Ev). split; [intros _; right; exact Hle | reflexivity].
    + assert (Eg : gap = g0) by lia.
      split; [lia|]. split; [intros _ Hle; lra|].
      split; [intros _ _; exact Eg|]. split; [intros _; exact Eg|].
      rewrite Eg, Hodd. split; [discriminate | intros [Ho|Hle]; [discriminate Ho | lra]].
  - assert (Eg : gap = g0) by lia.
    split; [lia|]. split; [discriminate|]. split; [discriminate|].
    split; [intros _; exact Eg|].
    rewrite Eg, Hodd. split; [intros _; left | intros _]; reflexivity.
Qed.

(** At bar space 2 the ratio is 1, both floors are 2, and the parity
    adjustment gives 1. *)
Lemma calcOptimalBarSpace_2 : _calcOptimalBarSpace 2 = 1%Z.
Proof.
  unfold _calcOptimalBarSpace. cbv zeta.
  rewrite Rmax_left by lra.
  replace (4 - 4) with 0 by ring. rewrite atan_0.
  replace (2 * (1 - BAR_GAP_RATIO * 0 / (PI * (5 / 10)))) with 2
    by (unfold Rdiv; ring).
  rewrite (ZfloorZ 2). change (Z.min 2 2) with 2%Z.
  destruct (Rle_lt_dec 2 (IZR (2 + 2))) as [_|H]; [reflexivity|].
  exfalso. change (IZR (2 + 2)) with 4 in H. lra.
Qed.

(** At the default bar space 10 the ratio lies between 0.8 and 0.9, the
    smaller floor is 8, [8 + 2 >= 10], and the gap is 7. *)
Lemma unadjustedGapBarSpace_10 : unadjustedGapBarSpace 10 = 8%Z.
Proof.
  unfold unadjustedGapBarSpace, BAR_GAP_RATIO. cbv zeta.
  rewrite Rmax_right by lra. replace (10 - 4) with 6 by ring.
  pose proof PI_RGT_0 as Hpi0. destruct (atan_bound 6) as [_ Hhi].
  assert (Hlo : PI / 4 < atan 6).
  { rewrite <- atan_1. apply atan_increasing. lra. }
  set (A := atan 6) in *.
  set (r := A / (PI * (5 / 10))).
  assert (E : r * (PI * (5 / 10)) = A) by (unfold r; field; lra).
  assert (Hr : 1 / 2 < r < 1).
  { split; apply (Rmult_lt_reg_r (PI * (5 / 10))); try lra; rewrite E; lra. }
  replace (2 / 10 * A / (PI * (5 / 10))) with (2 / 10 * r) by (unfold r, Rdiv; ring).
  rewrite (Zfloor_eq 8 (10 * (1 - 2 / 10 * r))) by lra.
  rewrite (ZfloorZ 10). reflexivity.
Qed.

Lemma gapBarSpace_parity_witness :
  1 <= 10
  /\ unadjustedGapBarSpace 10 = 8%Z
  /\ _calcOptimalBarSpace 10 = 7%Z
  /\ Z.odd (_calcOptimalBarSpace 10) = true.
Proof.
  assert (H : 1 <= 10) by lra.
  pose proof (gapBarSpace_parity 10 H) as P. cbv zeta in P.
  destruct P as (_ & Hdec & _ & _ & Hodd).
  rewrite unadjustedGapBarSpace_10 in Hdec, Hodd.
  assert (Hle : 10 <= IZR (8 + 2)) by (change (IZR (8 + 2)) with 10; lra).
  split; [exact H|]. split; [exact unadjustedGapBarSpace_10|].
  split; [exact (Hdec eq_refl Hle) | exact (proj2 Hodd (or_intror Hle))].
Defined.
(** [tan (PI / 8)] is above [1 / 16]: by the double-angle formula it solves
    [1 - t * t = 2 * t]. *)
Lemma tan_PI8_lower : / 16 < tan (PI / 8).
Proof.
  pose proof PI2_3_2 as Hpi. pose proof PI_RGT_0 as Hpi0.
  assert (Ht0 : 0 < tan (PI / 8)) by (apply tan_gt_0; lra).
  assert (Ht1 : tan (PI / 8) < 1).
  { rewrite <- tan_PI4. apply tan_increasing; lra. }
  assert (Hc8 : cos (PI / 8) <> 0) by (apply Rgt_not_eq, cos_gt_0; lra).
  assert (Hc4 : cos (2 * (PI / 8)) <> 0) by (apply Rgt_not_eq, cos_gt_0; lra).
  assert (Hd : 1 - tan (PI / 8) * tan (PI / 8) <> 0) by nra.
  pose proof (tan_2a (PI / 8) Hc8 Hc4 Hd) as E.
  replace (2 * (PI / 8)) with (PI / 4) in E by field.
  rewrite tan_PI4 in E.
  set (t := tan (PI / 8)) in *.
  assert (E' : 1 - t * t = 2 * t).
  { apply (Rmult_eq_compat_r (1 - t * t)) in E.
    unfold Rdiv in E. rewrite Rmult_assoc, Rinv_l in E by exact Hd. lra. }
  nra.
Qed.

Lemma atan_16_lower : 3 * PI / 8 < atan 16.
Proof.
  pose proof PI_RGT_0 as Hpi0.
  assert (H : atan (/ 16) < PI / 8).
  { rewrite <- (atan_tan (PI / 8)) by lra. apply atan_increasing, tan_PI8_lower. }
  rewrite (atan_inv 16) in H by lra. lra.
Qed.

(** C4, as stated, fails: at bar space 20 the ratio lies between 0.8 and
    0.85, the floor of [20 * ratio] is 16, [16 + 2 < 20] leaves the parity
    alone, and the gap bar space is the even number 16. *)
Lemma gapBarSpace_even_at_20 :
  1 <= 20 <= 50 /\ _calcOptimalBarSpace 20 = 16%Z /\ Z.odd 16 = false.
Proof.
  split; [lra|]. split; [|reflexivity].
  unfold _calcOptimalBarSpace, BAR_GAP_RATIO. cbv zeta.
  rewrite Rmax_right by lra. replace (20 - 4) with 16 by ring.
  pose proof atan_16_lower as Hlo. destruct (atan_bound 16) as [_ Hhi].
  pose proof PI_RGT_0 as Hpi0.
  set (A := atan 16) in *.
  set (r := A / (PI * (5 / 10))).
  assert (E : r * (PI * (5 / 10)) = A) by (unfold r; field; lra).
  assert (Hr : 3 / 4 < r < 1).
  { split; apply (Rmult_lt_reg_r (PI * (5 / 10))); try lra; rewrite E; lra. }
  replace (2 / 10 * A / (PI * (5 / 10))) with (2 / 10 * r) by (unfold r, Rdiv; ring).
  rewrite (Zfloor_eq 16 (20 * (1 - 2 / 10 * r))) by lra.
  rewrite (ZfloorZ 20). change (Z.min 16 20) with 16%Z.
  destruct (Rle_lt_dec 20 (IZR (16 + 2))) as [H|_]; [|reflexivity].
  exfalso. change (IZR (16 + 2)) with 18 in H. lra.
Qed.
